(** * The pollination model of natcap.invest: array kernels, scenario
      parsing, pipeline construction and argument validation

    A shallow embedding of [src/natcap/invest/pollination.py].

    Numbers.  The three kernels of the farm yield (on-farm abundance, total
    yield, wild yield) work on [float64] blocks: their pixels are binary64
    numbers and their arithmetic is that of IEEE 754, with its rounding, its
    infinities and [nan], as numpy computes on arrays of its default dtype.
    Table coefficients and the pixels of the other kernels are modelled as
    exact rationals ([Qc], canonical fractions, so that [=] is numeric
    equality); for these the rounding of IEEE arithmetic is not modelled, and
    the places where the Python code can leave the finite numbers are
    modelled explicitly: the division of the pollinator abundance kernel,
    whose mask keeps the zero divisors out, reports a zero divisor
    ([np.divide] returns [None]), and the scalar normalisation quotients of
    the scenario parser are [NonFinite] when the divisor is zero (numpy
    yields [nan] or [inf] and only warns).

    Arrays.  A raster block is the list of its pixels in row-major order;
    boolean masks are lists of [bool].  Boolean-mask indexing [a[m]] and
    masked assignment [r[m] = v] follow numpy: [a[m]] is the compacted list of
    the selected pixels and the assignment scatters a compacted list back.

    Dictionaries are [gmap]s; [sorted(d)] is a merge sort of the keys under
    the byte-wise lexicographic order of Python 2 [str]. *)

From Stdlib Require Import Floats.PrimFloat.
From Stdlib Require Import QArith Qcanon.
From Stdlib Require Import Strings.String Strings.Ascii DecimalString.
From stdpp Require Import base option list strings numbers gmap sorting.

Set Warnings "-inexact-float".

Local Open Scope Qc_scope.
Local Open Scope string_scope.

(** ** Module-level constants *)

Definition _INDEX_NODATA : Qc := Q2Qc (-1).

(** the same constant, [-1.0], in a [float64] block *)
Definition _INDEX_NODATA_float64 : PrimFloat.float := (-1)%float.

(** ** A fragment of numpy on flattened blocks *)

Module np.

(** [array != v], [array == v] *)
Definition ne (a : list Qc) (v : Qc) : list bool :=
  (λ x, bool_decide (x ≠ v)) <$> a.

Definition eq (a : list Qc) (v : Qc) : list bool :=
  (λ x, bool_decide (x = v)) <$> a.

(** [m1 & m2], [m1 | m2], [~m] *)
Definition and (m1 m2 : list bool) : list bool := zip_with andb m1 m2.
Definition or (m1 m2 : list bool) : list bool := zip_with orb m1 m2.
Definition not (m : list bool) : list bool := negb <$> m.

(** [numpy.zeros(a.shape, dtype=bool)] *)
Definition zeros_bool {A} (a : list A) : list bool := (λ _, false) <$> a.

(** [r = numpy.empty_like(a); r[:] = v] *)
Definition full_like {A} (a : list A) (v : A) : list A := (λ _, v) <$> a.

(** [a[m]]: the selected pixels, compacted *)
Fixpoint take {A} (a : list A) (m : list bool) : list A :=
  match a, m with
  | x :: a', b :: m' => if b then x :: take a' m' else take a' m'
  | _, _ => []
  end.

(** [r[m] = v] with [v] a compacted array: scatter [v] over the selected
    pixels of [r] *)
Fixpoint put {A} (r : list A) (m : list bool) (v : list A) : list A :=
  match r, m with
  | x :: r', true :: m' =>
      match v with
      | y :: v' => y :: put r' m' v'
      | [] => x :: r'
      end
  | x :: r', false :: m' => x :: put r' m' v
  | _, _ => r
  end.

(** [r[m] = c] with [c] a scalar *)
Definition put_scalar {A} (r : list A) (m : list bool) (c : A) : list A :=
  zip_with (λ x (b : bool), if b then c else x) r m.

(** elementwise arithmetic on equal-shaped arrays *)
Definition add (a b : list Qc) : list Qc := zip_with Qcplus a b.
Definition mul (a b : list Qc) : list Qc := zip_with Qcmult a b.
Definition mul_scalar (a : list Qc) (c : Qc) : list Qc := (λ x, x * c) <$> a.
Definition scalar_mul (c : Qc) (a : list Qc) : list Qc := (λ x, c * x) <$> a.

(** [a / b] in the pollinator abundance kernel, whose mask selects no zero
    divisor: [None] marks a zero divisor, which the kernel never meets *)
Fixpoint divide (a b : list Qc) : option (list Qc) :=
  match a, b with
  | x :: a', y :: b' =>
      if bool_decide (y = 0) then None
      else cons (x / y) <$> divide a' b'
  | _, _ => Some []
  end.

(** the larger of two numbers, as [numpy.maximum] on finite values *)
Definition maximum (x y : Qc) : Qc := if bool_decide (x < y) then y else x.

(** [numpy.max(rows, axis=0)]; reducing zero rows is an error *)
Definition max_axis0 (rows : list (list Qc)) : option (list Qc) :=
  match rows with
  | [] => None
  | r :: rs => Some (foldl (zip_with maximum) r rs)
  end.

(** [numpy.sum] of a list of scalars, accumulated from 0 *)
Definition sum (l : list Qc) : Qc := foldl Qcplus 0 l.

(** the comparisons and the arithmetic of [float64] blocks: IEEE 754
    binary64, where [nan != v] holds for every [v], a comparison with [nan]
    is false, and a division by zero yields an infinity or [nan] *)
Module float64.

Definition ne (a : list PrimFloat.float) (v : PrimFloat.float) : list bool :=
  (λ x, negb (x =? v)%float) <$> a.

Definition gt (a : list PrimFloat.float) (v : PrimFloat.float) : list bool :=
  (λ x, (v <? x)%float) <$> a.

Definition lt (a : list PrimFloat.float) (v : PrimFloat.float) : list bool :=
  (λ x, (x <? v)%float) <$> a.

Definition add (a b : list PrimFloat.float) : list PrimFloat.float :=
  zip_with PrimFloat.add a b.
Definition sub (a b : list PrimFloat.float) : list PrimFloat.float :=
  zip_with PrimFloat.sub a b.
Definition mul (a b : list PrimFloat.float) : list PrimFloat.float :=
  zip_with PrimFloat.mul a b.
Definition divide (a b : list PrimFloat.float) : list PrimFloat.float :=
  zip_with PrimFloat.div a b.
Definition scalar_mul (c : PrimFloat.float) (a : list PrimFloat.float)
    : list PrimFloat.float := (λ x, c * x)%float <$> a.
Definition scalar_sub (c : PrimFloat.float) (a : list PrimFloat.float)
    : list PrimFloat.float := (λ x, c - x)%float <$> a.

End float64.

End np.

(** ** The array kernels

    Each Python class with a [__call__] method is a module; the attributes
    set by [__init__] are the fields of its record [self]. *)

Module _SumRasters.

(** one iteration of the loop over [array_list], on the pair
    [(result, valid_mask)] *)
Definition step (st : list Qc * list bool) (array : list Qc)
    : list Qc * list bool :=
  let '(result, valid_mask) := st in
  let local_valid_mask := np.ne array _INDEX_NODATA in
  (np.put result local_valid_mask
     (np.add (np.take result local_valid_mask)
             (np.take array local_valid_mask)),
   np.or valid_mask local_valid_mask).

Definition __call__ (array_list : list (list Qc)) : option (list Qc) :=
  first ← head array_list;
  let valid_mask := np.zeros_bool first in
  let result := np.full_like first 0 in
  let '(result, valid_mask) := foldl step (result, valid_mask) array_list in
  Some (np.put_scalar result (np.not valid_mask) _INDEX_NODATA).

End _SumRasters.

Module _PollinatorSupplyOp.

Definition __call__ (foraged_flowers_array floral_resources_array
    convolve_ps_array : list Qc) : option (list Qc) :=
  let valid_mask := np.ne foraged_flowers_array _INDEX_NODATA in
  let result := np.full_like foraged_flowers_array _INDEX_NODATA in
  let zero_mask := np.eq floral_resources_array 0 in
  let result := np.put_scalar result (np.and zero_mask valid_mask) 0 in
  let result_mask := np.and valid_mask (np.not zero_mask) in
  quotient ← np.divide (np.take foraged_flowers_array result_mask)
                       (np.take floral_resources_array result_mask);
  Some (np.put result result_mask
          (np.mul quotient (np.take convolve_ps_array result_mask))).

End _PollinatorSupplyOp.

Module _PollinatorSupplyIndexOp.

Record self := { species_abundance : Qc }.

Definition __call__ (s : self) (floral_resources_array
    habitat_nesting_suitability_array : list Qc) : list Qc :=
  let result := np.full_like floral_resources_array _INDEX_NODATA in
  let valid_mask := np.ne floral_resources_array _INDEX_NODATA in
  np.put result valid_mask
    (np.mul (np.scalar_mul (species_abundance s)
               (np.take floral_resources_array valid_mask))
            (np.take habitat_nesting_suitability_array valid_mask)).

End _PollinatorSupplyIndexOp.

Module _MultByScalar.

Record self := { scalar : Qc }.

Definition __call__ (s : self) (array : list Qc) : list Qc :=
  let result := np.full_like array _INDEX_NODATA in
  let valid_mask := np.ne array _INDEX_NODATA in
  np.put result valid_mask (np.mul_scalar (np.take array valid_mask) (scalar s)).

End _MultByScalar.

(** The kernels of the farm yield, on [float64] blocks. *)

Module _OnFarmPollinatorAbundance.

Definition __call__ (h_array pat_array : list PrimFloat.float)
    : list PrimFloat.float :=
  let result := np.full_like h_array _INDEX_NODATA_float64 in
  let valid_mask :=
    np.and (np.float64.ne h_array _INDEX_NODATA_float64)
           (np.float64.ne pat_array _INDEX_NODATA_float64) in
  let h := np.take h_array valid_mask in
  let pat := np.take pat_array valid_mask in
  np.put result valid_mask
    (np.float64.divide
       (np.float64.mul pat (np.float64.scalar_sub 1 h))
       (np.float64.add
          (np.float64.mul h
             (np.float64.scalar_sub 1 (np.float64.scalar_mul 2 pat)))
          pat)).

End _OnFarmPollinatorAbundance.

Module _PYTOp.

Definition __call__ (mp_array FP_array : list PrimFloat.float)
    : list PrimFloat.float :=
  let valid_mask := np.float64.ne mp_array _INDEX_NODATA_float64 in
  let result := np.full_like mp_array _INDEX_NODATA_float64 in
  let result := np.put result valid_mask
    (np.float64.add (np.take mp_array valid_mask)
       (np.take FP_array valid_mask)) in
  let min_mask := np.and valid_mask (np.float64.gt result 1) in
  np.put_scalar result min_mask 1%float.

End _PYTOp.

Module _PYWOp.

Definition __call__ (mp_array PYT_array : list PrimFloat.float)
    : list PrimFloat.float :=
  let valid_mask := np.float64.ne mp_array _INDEX_NODATA_float64 in
  let result := np.full_like mp_array _INDEX_NODATA_float64 in
  let result := np.put result valid_mask
    (np.float64.sub (np.take PYT_array valid_mask)
       (np.take mp_array valid_mask)) in
  let max_mask := np.and valid_mask (np.float64.lt result 0) in
  np.put_scalar result max_mask 0%float.

End _PYWOp.

(** ** Python values, exceptions and the error monad *)

(** values of the [args] dictionary *)
Inductive pyval := PyNone | PyStr (s : string).

(** a table cell after [numerical_cast]: a number, or the text that could
    not be cast *)
Inductive cell := CNum (q : Qc) | CStr (s : string).

(** the result of a scalar division under numpy: a finite number, or
    [inf]/[nan] when the divisor is zero *)
Inductive fnum := Finite (q : Qc) | NonFinite.

#[global] Instance pyval_eq_dec : EqDecision pyval.
Proof. solve_decision. Defined.

#[global] Instance cell_eq_dec : EqDecision cell.
Proof. solve_decision. Defined.

#[global] Instance fnum_eq_dec : EqDecision fnum.
Proof. solve_decision. Defined.

(** the [ValueError]s raised by the scenario parser, with the data their
    messages are formatted from *)
Inductive config_error :=
| GuildHeaderMissing (pattern : string) (path : pyval) (headers : list string)
| BiophysicalHeaderMissing (pattern : string) (path : pyval)
    (headers : list string)
| FarmNotPolygon
| FarmHeaderMissing (pattern : string) (path : string) (headers : list string)
| ExpectedThreeEntries (table_type : string) (lookup_table : gmap string string)
| ExpectedTwoEntries (table_type : string) (lookup_table : gmap string string)
| UnknownFarmSeasons (found : list cell) (expected : list string)
| CouldNotConvertToFloat (s : string)
| CannotReshape (size rows : nat).

Inductive exn :=
| StopIteration
| KeyError (key : string)
| TypeError
| AttributeError
| ZeroDivisionError
| ValueError (what : config_error).

Inductive res (A : Type) := Ok (a : A) | Raise (e : exn).
Arguments Ok {A} a.
Arguments Raise {A} e.

#[global] Instance res_ret : MRet res := λ A a, Ok a.
#[global] Instance res_bind : MBind res := λ A B f m,
  match m with
  | Ok a => f a
  | Raise e => Raise e
  end.

(** [for x in l: body(x)] where the body may raise *)
Fixpoint for_each {A} (body : A → res unit) (l : list A) : res unit :=
  match l with
  | [] => Ok ()
  | x :: l' => body x ≫= λ _, for_each body l'
  end.

(** [d[key]] on a dictionary *)
Definition getitem {V} (d : gmap string V) (key : string) : res V :=
  match d !! key with
  | Some v => Ok v
  | None => Raise (KeyError key)
  end.

(** a number read out of a table cell, as [numpy.sum] and [/] need it *)
Definition as_number (c : cell) : res Qc :=
  match c with
  | CNum q => Ok q
  | CStr _ => Raise TypeError
  end.

(** [float(c)] *)
Definition float (c : cell) : res Qc :=
  match c with
  | CNum q => Ok q
  | CStr s => Raise (ValueError (CouldNotConvertToFloat s))
  end.

(** [x / total] where [total] is a numpy scalar: no exception on zero *)
Definition true_divide (x total : Qc) : fnum :=
  if bool_decide (total = 0) then NonFinite else Finite (x / total).

(** [for x in l: acc = body(acc, x)] where the body may raise *)
Fixpoint fold_each {A B} (body : B → A → res B) (acc : B) (l : list A)
    : res B :=
  match l with
  | [] => Ok acc
  | x :: l' => body acc x ≫= λ acc', fold_each body acc' l'
  end.

(** the first argument of [os.path.join]: [None] has no [endswith] *)
Definition as_str (v : pyval) : res string :=
  match v with
  | PyStr s => Ok s
  | PyNone => Raise AttributeError
  end.

(** ** [sorted] on strings *)

Definition str_le (a b : string) : Prop := String.leb a b = true.

#[global] Instance str_le_dec : RelDecision str_le.
Proof. intros a b. unfold str_le. apply _. Defined.

Definition sorted (l : list string) : list string := merge_sort str_le l.

(** the keys of a dictionary, in the dictionary's own iteration order *)
Definition keys {K} `{Countable K} {V} (d : gmap K V) : list K :=
  (map_to_list d).*1.

(** ** The header patterns and [re] on them

    Every regular expression of the module is either a literal or a literal
    prefix, the group [([^_]+)], and a literal suffix that is empty or starts
    with an underscore.  On this shape the greedy group is the longest run of
    characters other than the underscore. *)

Inductive regex := Literal (s : string) | OneGroup (prefix suffix : string).

Definition regex_source (r : regex) : string :=
  match r with
  | Literal s => s
  | OneGroup p s => p ++ "([^_]+)" ++ s
  end.

Fixpoint strip_prefix (p s : string) : option string :=
  match p with
  | "" => Some s
  | String a p' =>
      match s with
      | String b s' => if Ascii.eqb a b then strip_prefix p' s' else None
      | "" => None
      end
  end.

(** the longest leading run of non-underscore characters, and the rest *)
Fixpoint span_group (s : string) : string * string :=
  match s with
  | String c s' =>
      if Ascii.eqb c "_" then ("", s)
      else let '(g, r) := span_group s' in (String c g, r)
  | "" => ("", "")
  end.

(** [re.match(r, s)]: [(match.group(), match.group(1))] *)
Definition re_match (r : regex) (s : string) : option (string * string) :=
  match r with
  | Literal l => strip_prefix l s ≫= λ _, Some (l, "")
  | OneGroup p q =>
      rest ← strip_prefix p s;
      let '(g, rest') := span_group rest in
      if bool_decide (g = "") then None
      else strip_prefix q rest' ≫= λ _, Some (p ++ g ++ q, g)
  end.

(** [len(re.findall(r, s)) > 0]: a match starting at some position *)
Fixpoint re_search (r : regex) (s : string) : bool :=
  match re_match r s with
  | Some _ => true
  | None =>
      match s with
      | "" => false
      | String _ s' => re_search r s'
      end
  end.

Definition _NESTING_SUBSTRATE_PATTERN := OneGroup "nesting_" "_availability_index".
Definition _FLORAL_RESOURCES_AVAILABLE_PATTERN := OneGroup "floral_resources_" "_index".
Definition _EXPECTED_BIOPHYSICAL_HEADERS :=
  [Literal "lucode"; _NESTING_SUBSTRATE_PATTERN;
   _FLORAL_RESOURCES_AVAILABLE_PATTERN].

Definition _NESTING_SUITABILITY_PATTERN := OneGroup "nesting_suitability_" "_index".
Definition _FORAGING_ACTIVITY_PATTERN (season : string) : string :=
  "foraging_activity_" ++ season ++ "_index".
Definition _FORAGING_ACTIVITY_RE_PATTERN := OneGroup "foraging_activity_" "_index".
Definition _RELATIVE_SPECIES_ABUNDANCE_FIELD := "relative_abundance".
Definition _ALPHA_HEADER := "alpha".
Definition _EXPECTED_GUILD_HEADERS :=
  [Literal "species"; _NESTING_SUITABILITY_PATTERN;
   _FORAGING_ACTIVITY_RE_PATTERN; Literal _ALPHA_HEADER;
   Literal _RELATIVE_SPECIES_ABUNDANCE_FIELD].

Definition _FARM_FLORAL_RESOURCES_HEADER_PATTERN (season : string) : string :=
  "fr_" ++ season.
Definition _FARM_FLORAL_RESOURCES_PATTERN := OneGroup "fr_" "".
Definition _FARM_NESTING_SUBSTRATE_HEADER_PATTERN (substrate : string) : string :=
  "n_" ++ substrate.
Definition _FARM_NESTING_SUBSTRATE_RE_PATTERN := OneGroup "n_" "".
Definition _HALF_SATURATION_FARM_HEADER := "half_sat".
Definition _CROP_POLLINATOR_DEPENDENCE_FIELD := "p_dep".
Definition _MANAGED_POLLINATORS_FIELD := "p_managed".
Definition _FARM_SEASON_FIELD := "season".
Definition _EXPECTED_FARM_HEADERS :=
  [Literal _FARM_SEASON_FIELD; Literal "crop_type";
   Literal _HALF_SATURATION_FARM_HEADER; Literal _MANAGED_POLLINATORS_FIELD;
   _FARM_FLORAL_RESOURCES_PATTERN; _FARM_NESTING_SUBSTRATE_RE_PATTERN;
   Literal _CROP_POLLINATOR_DEPENDENCE_FIELD].

(** ** The habitat nesting index closure *)

Module _CalculateHabitatNestingIndex.

Record self := {
  substrate_path_list : list string;
  species_substrate_suitability_index_array : list cell;
  target_habitat_nesting_index_path : string;
}.

(** paths and suitability cells are both listed in the sorted order of the
    substrate names; [numpy.array] takes the cells as the table holds them,
    numbers or text, and the [reshape] to a column fails unless there is one
    cell per entry of [species_substrate_index_map] *)
Definition __init__ (substrate_path_map : gmap string string)
    (species_substrate_index_map : gmap string cell)
    (target_habitat_nesting_index_path : string) : res self :=
  let substrate_ids := sorted (keys substrate_path_map) in
  paths ← mapM (getitem substrate_path_map) substrate_ids;
  cells ← mapM (getitem species_substrate_index_map) substrate_ids;
  if bool_decide (length cells = size species_substrate_index_map) then
    Ok {| substrate_path_list := paths;
          species_substrate_suitability_index_array := cells;
          target_habitat_nesting_index_path :=
            target_habitat_nesting_index_path |}
  else
    Raise (ValueError (CannotReshape (length cells)
                         (size species_substrate_index_map))).

(** the numbers of an array of cells; an array that holds a text is an array
    of strings, on which the arithmetic of numpy raises *)
Definition numbers (cells : list cell) : option (list Qc) :=
  mapM (λ c, match c with CNum q => Some q | CStr _ => None end) cells.

(** the closure [max_op] of [__call__]: the species' substrate suitability
    scalars, one per substrate layer, scale the rows of the stack *)
Definition max_op (s : self) (substrate_index_arrays : list (list Qc))
    : option (list Qc) :=
  scalars ← numbers (species_substrate_suitability_index_array s);
  result ← np.max_axis0
    (zip_with np.mul_scalar substrate_index_arrays scalars);
  first ← head substrate_index_arrays;
  Some (np.put_scalar result (np.eq first _INDEX_NODATA) _INDEX_NODATA).

(** [raster_calculator] hands [max_op] one block of every substrate raster,
    in the order of [substrate_path_list]; [band] reads the block of a path *)
Definition __call__ (s : self) (band : string → list Qc) : option (list Qc) :=
  max_op s (band <$> substrate_path_list s).

End _CalculateHabitatNestingIndex.

(** ** Input tables and the external collaborators *)

(** the farm layer as [ogr] presents it *)
Inductive geom_type := wkbPolygon | wkbMultiPolygon | wkbOther.

Record farm_vector := {
  farm_geom_type : geom_type;
  farm_field_names : list string;
  farm_features : list (gmap string cell);
}.

Record raster_info := {
  projection : string;
  mean_pixel_size : Qc;
}.

(** What the module takes from [utils], [ogr] and [pygeoprocessing]: the
    tables as [utils.build_lookup_from_csv] returns them (keyed by species
    name and by landcover code), the farm layer behind a path, the metadata
    of a raster and the file suffix [utils.make_suffix_string] derives from
    [args]. *)
Record collaborators := {
  build_lookup_from_csv_species : pyval → gmap string (gmap string cell);
  build_lookup_from_csv_lucode : pyval → gmap Z (gmap string cell);
  ogr_Open : string → farm_vector;
  get_raster_info : pyval → raster_info;
  make_suffix_string : gmap string pyval → string;
}.

(** ** [_parse_scenario_variables] *)

Record scenario_variables := {
  season_list : list string;
  substrate_list : list string;
  species_list : list string;
  alpha_value : gmap string Qc;
  species_abundance : gmap string fnum;
  species_foraging_activity : gmap (string * string) fnum;
  landcover_substrate_index : gmap string (gmap Z cell);
  landcover_floral_resources : gmap string (gmap Z cell);
  species_substrate_index : gmap string (gmap string cell);
  foraging_activity_index : gmap (string * string) cell;
}.

(** [d[name][table] = header] on a [defaultdict(dict)] *)
Definition setitem2 (d : gmap string (gmap string string))
    (name table header : string) : gmap string (gmap string string) :=
  <[name := <[table := header]> (default ∅ (d !! name))]> d.

(** [match = re.match(pattern, header); if match:
      d[match.group(1)][table] = match.group()] *)
Definition collect (table : string) (pattern : regex)
    (d : gmap string (gmap string string)) (header : string)
    : gmap string (gmap string string) :=
  match re_match pattern header with
  | Some (group0, name) => setitem2 d name table group0
  | None => d
  end.

(** The body of one of the three loops [for header in ..._headers] that fill
    [season_to_header] and [substrate_to_header]: [table] is the inner key
    the loop writes, the two patterns are the ones it matches. *)
Definition scan_header (table : string) (season_pattern substrate_pattern : regex)
    (st : gmap string (gmap string string) * gmap string (gmap string string))
    (header : string)
    : gmap string (gmap string string) * gmap string (gmap string string) :=
  let '(season_to_header, substrate_to_header) := st in
  (collect table season_pattern season_to_header header,
   collect table substrate_pattern substrate_to_header header).

Definition scan_headers (table : string) (season_pattern substrate_pattern : regex)
    (headers : list string)
    (st : gmap string (gmap string string) * gmap string (gmap string string)) :=
  foldl (scan_header table season_pattern substrate_pattern) st headers.

(** [for header in expected: if len(re.findall(header, " ".join(headers)))
    == 0: raise ValueError(...)] *)
Definition check_expected_headers (expected : list regex)
    (headers : list string) (err : string → config_error) : res unit :=
  for_each (λ header,
    if re_search header (String.concat " " headers) then Ok ()
    else Raise (ValueError (err (regex_source header)))) expected.

(** the body of the loop over
    [itertools.chain(season_to_header.iteritems(),
                     substrate_to_header.iteritems())] *)
Definition check_entry (has_farm : bool) (entry : string * gmap string string)
    : res unit :=
  let '(table_type, lookup_table) := entry in
  if bool_decide (size lookup_table ≠ 3%nat) && has_farm then
    Raise (ValueError (ExpectedThreeEntries table_type lookup_table))
  else if bool_decide (size lookup_table ≠ 2%nat) && negb has_farm then
    Raise (ValueError (ExpectedTwoEntries table_type lookup_table))
  else Ok ().

(** [farm_season_set.difference(season_to_header)] is empty *)
Definition check_farm_seasons (farm : farm_vector)
    (season_to_header : gmap string (gmap string string)) : res unit :=
  farm_seasons ← mapM (λ farm_feature, getitem farm_feature _FARM_SEASON_FIELD)
                   (farm_features farm);
  let unknown := List.filter (λ c,
    match c with
    | CStr s => bool_decide (season_to_header !! s = None)
    | CNum _ => true
    end) farm_seasons in
  if bool_decide (unknown = []) then Ok ()
  else Raise (ValueError (UnknownFarmSeasons unknown (keys season_to_header))).

(** [guild_table[species][header]] as a number *)
Definition number_at {K} `{Countable K} (table : gmap K (gmap string cell))
    (key : K) (key_name header : string) : res Qc :=
  match table !! key with
  | Some row => getitem row header ≫= as_number
  | None => Raise (KeyError key_name)
  end.

Definition cell_at {K} `{Countable K} (table : gmap K (gmap string cell))
    (key : K) (key_name header : string) : res cell :=
  match table !! key with
  | Some row => getitem row header
  | None => Raise (KeyError key_name)
  end.

(** a dictionary filled by assignments [d[k] = v] in the order of the list *)
Definition dict_of {K} `{Countable K} {V} (items : list (K * V)) : gmap K V :=
  foldl (λ d kv, <[kv.1 := kv.2]> d) ∅ items.

(** the raw relative abundances divided by their sum over all species *)
Definition normalize_abundance (guild_table : gmap string (gmap string cell))
    (species_list : list string) : res (gmap string fnum) :=
  raw ← mapM (λ species,
           number_at guild_table species species
             _RELATIVE_SPECIES_ABUNDANCE_FIELD) species_list;
  let total_relative_abundance := np.sum raw in
  items ← mapM (λ species,
             x ← number_at guild_table species species
                   _RELATIVE_SPECIES_ABUNDANCE_FIELD;
             Ok (species, true_divide x total_relative_abundance))
           species_list;
  Ok (dict_of items).

(** the foraging activity of one species in every season, divided by the
    species' total over the seasons *)
Definition normalize_activity (guild_table : gmap string (gmap string cell))
    (season_list : list string) (species : string)
    : res (list (string * string * fnum)) :=
  raw ← mapM (λ season,
           number_at guild_table species species
             (_FORAGING_ACTIVITY_PATTERN season)) season_list;
  let total_activity := np.sum raw in
  mapM (λ season,
    x ← number_at guild_table species species
          (_FORAGING_ACTIVITY_PATTERN season);
    Ok ((species, season), true_divide x total_activity)) season_list.

(** [for raw_landcover_id in table: for name in names:
      result[name][landcover_id] =
        table[landcover_id][name_to_header[name]['biophysical']]]
    on a [defaultdict(dict)] *)
Definition landcover_index (table : gmap Z (gmap string cell))
    (name_to_header : gmap string (gmap string string)) (names : list string)
    : res (gmap string (gmap Z cell)) :=
  fold_each (λ result landcover_id,
    fold_each (λ result name,
      headers ← getitem name_to_header name;
      header ← getitem headers "biophysical";
      c ← cell_at table landcover_id "lucode" header;
      Ok (<[name := <[landcover_id := c]> (default ∅ (result !! name))]> result))
    result names) ∅ (keys table).

(** what the first part of [_parse_scenario_variables] holds in its local
    variables once the three tables are read and their headers scanned *)
Record tables := {
  guild_table : gmap string (gmap string cell);
  landcover_biophysical_table : gmap Z (gmap string cell);
  farm : option farm_vector;
  season_to_header : gmap string (gmap string string);
  substrate_to_header : gmap string (gmap string string);
}.

(** [args['farm_vector_path']] when the key is present with a value other
    than [''] and [None] *)
Definition farm_vector_path_of (args : gmap string pyval) : option string :=
  match args !! "farm_vector_path" with
  | Some (PyStr s) => if bool_decide (s ≠ "") then Some s else None
  | _ => None
  end.

(** [table.itervalues().next().keys()] *)
Definition first_row_keys {K} `{Countable K} (table : gmap K (gmap string cell))
    : res (list string) :=
  match map_to_list table with
  | (_, row) :: _ => Ok (keys row)
  | [] => Raise StopIteration
  end.

Section scenario.

Context (ext : collaborators).

(** lines 847-941: the tables are read, the expected headers are looked for
    and the season and substrate names are collected *)
Definition read_tables (args : gmap string pyval) : res tables :=
  guild_table_path ← getitem args "guild_table_path";
  landcover_biophysical_table_path ←
    getitem args "landcover_biophysical_table_path";
  let farm_vector_path := farm_vector_path_of args in
  let guild_table := build_lookup_from_csv_species ext guild_table_path in
  guild_headers ← first_row_keys guild_table;
  _ ← check_expected_headers _EXPECTED_GUILD_HEADERS guild_headers
        (λ p, GuildHeaderMissing p guild_table_path guild_headers);
  let landcover_biophysical_table :=
    build_lookup_from_csv_lucode ext landcover_biophysical_table_path in
  biophysical_table_headers ← first_row_keys landcover_biophysical_table;
  _ ← check_expected_headers _EXPECTED_BIOPHYSICAL_HEADERS
        biophysical_table_headers
        (λ p, BiophysicalHeaderMissing p landcover_biophysical_table_path
                biophysical_table_headers);
  let headers := scan_headers "guild" _FORAGING_ACTIVITY_RE_PATTERN
                   _NESTING_SUITABILITY_PATTERN guild_headers (∅, ∅) in
  '(farm_vector, headers) ←
    match farm_vector_path with
    | Some path =>
        let farm_vector := ogr_Open ext path in
        match farm_geom_type farm_vector with
        | wkbOther => Raise (ValueError FarmNotPolygon)
        | _ =>
            let farm_headers := farm_field_names farm_vector in
            _ ← check_expected_headers _EXPECTED_FARM_HEADERS farm_headers
                  (λ p, FarmHeaderMissing p path farm_headers);
            Ok (Some farm_vector,
                scan_headers "farm" _FARM_FLORAL_RESOURCES_PATTERN
                  _FARM_NESTING_SUBSTRATE_RE_PATTERN farm_headers headers)
        end
    | None => Ok (None, headers)
    end;
  let '(season_to_header, substrate_to_header) :=
    scan_headers "biophysical" _FLORAL_RESOURCES_AVAILABLE_PATTERN
      _NESTING_SUBSTRATE_PATTERN biophysical_table_headers headers in
  Ok {| guild_table := guild_table;
        landcover_biophysical_table := landcover_biophysical_table;
        farm := farm_vector;
        season_to_header := season_to_header;
        substrate_to_header := substrate_to_header |}.

End scenario.

(** lines 943-970: every season and substrate has an entry for each table,
    and the farms name known seasons *)
Definition cross_check (t : tables) : res unit :=
  _ ← for_each (check_entry (bool_decide (farm t ≠ None)))
        (map_to_list (season_to_header t)
         ++ map_to_list (substrate_to_header t));
  match farm t with
  | Some farm_vector => check_farm_seasons farm_vector (season_to_header t)
  | None => Ok ()
  end.

(** lines 972-1045: the result dictionary *)
Definition scenario_of (t : tables) : res scenario_variables :=
  let season_list := sorted (keys (season_to_header t)) in
  let substrate_list := sorted (keys (substrate_to_header t)) in
  let species_list := sorted (keys (guild_table t)) in
  alpha_items ← mapM (λ species,
                   a ← cell_at (guild_table t) species species _ALPHA_HEADER
                         ≫= float;
                   Ok (species, a)) species_list;
  species_abundance ← normalize_abundance (guild_table t) species_list;
  activity_items ← mapM (normalize_activity (guild_table t) season_list)
                     species_list;
  landcover_substrate_index ←
    landcover_index (landcover_biophysical_table t) (substrate_to_header t)
      substrate_list;
  landcover_floral_resources ←
    landcover_index (landcover_biophysical_table t) (season_to_header t)
      season_list;
  substrate_items ← mapM (λ species,
                       row ← mapM (λ substrate,
                                headers ← getitem (substrate_to_header t)
                                            substrate;
                                header ← getitem headers "guild";
                                c ← cell_at (guild_table t) species species
                                      header;
                                Ok (substrate, c)) substrate_list;
                       Ok (species, dict_of row)) species_list;
  foraging_items ← mapM (λ species,
                      mapM (λ season,
                        headers ← getitem (season_to_header t) season;
                        header ← getitem headers "guild";
                        c ← cell_at (guild_table t) species species header;
                        Ok ((species, season), c)) season_list) species_list;
  Ok {| season_list := season_list;
        substrate_list := substrate_list;
        species_list := species_list;
        alpha_value := dict_of alpha_items;
        species_abundance := species_abundance;
        species_foraging_activity := dict_of (concat activity_items);
        landcover_substrate_index := landcover_substrate_index;
        landcover_floral_resources := landcover_floral_resources;
        species_substrate_index := dict_of substrate_items;
        foraging_activity_index := dict_of (concat foraging_items) |}.

(** The function is the three parts in sequence. *)
Definition _parse_scenario_variables (ext : collaborators)
    (args : gmap string pyval) : res scenario_variables :=
  t ← read_tables ext args;
  _ ← cross_check t;
  scenario_of t.

(** ** Paths and file names *)

Definition starts_with_slash (s : string) : bool :=
  match s with
  | String c _ => Ascii.eqb c "/"
  | "" => false
  end.

Fixpoint ends_with_slash (s : string) : bool :=
  match s with
  | "" => false
  | String c "" => Ascii.eqb c "/"
  | String _ s' => ends_with_slash s'
  end.

(** [os.path.join(a, b)] of [posixpath] *)
Definition os_path_join (a b : string) : string :=
  if starts_with_slash b then b
  else if bool_decide (a = "") || ends_with_slash a then a ++ b
  else a ++ "/" ++ b.

(** the nearest integer of a non-negative fraction, ties to even *)
Definition round_half_even (num : Z) (den : positive) : Z :=
  let q := (num / Z.pos den)%Z in
  let r := (num mod Z.pos den)%Z in
  match (2 * r ?= Z.pos den)%Z with
  | Lt => q
  | Gt => (q + 1)%Z
  | Eq => if Z.even q then q else (q + 1)%Z
  end.

Definition decimal (n : Z) : string :=
  NilZero.string_of_uint (N.to_uint (Z.to_N n)).

(** ['%f' % x]: sign, integer part and six decimals, of the exact value of
    the flight distance (the rounding of its float division is not
    modelled) *)
Definition format_f (x : Qc) : string :=
  let micro :=
    round_half_even (Z.abs (Qnum (this x)) * 1000000) (Qden (this x)) in
  (if bool_decide (x < 0) then "-" else "")
  ++ decimal (micro / 1000000) ++ "."
  ++ match decimal (1000000 + micro mod 1000000) with
     | String _ digits => digits
     | "" => ""
     end.

Definition _NESTING_SUBSTRATE_INDEX_FILEPATTERN (substrate suffix : string) :=
  "nesting_substrate_index_" ++ substrate ++ suffix ++ ".tif".
Definition _FARM_NESTING_SUBSTRATE_INDEX_FILEPATTERN (substrate suffix : string) :=
  "farm_nesting_substrate_index_" ++ substrate ++ suffix ++ ".tif".
Definition _HABITAT_NESTING_INDEX_FILE_PATTERN (species suffix : string) :=
  "habitat_nesting_index_" ++ species ++ suffix ++ ".tif".
Definition _RELATIVE_FLORAL_ABUNDANCE_INDEX_FILE_PATTERN (season suffix : string) :=
  "relative_floral_abundance_index_" ++ season ++ suffix ++ ".tif".
Definition _FARM_RELATIVE_FLORAL_ABUNDANCE_INDEX_FILE_PATTERN
    (season suffix : string) :=
  "farm_relative_floral_abundance_index_" ++ season ++ suffix ++ ".tif".
Definition _LOCAL_FORAGING_EFFECTIVENESS_FILE_PATTERN (species suffix : string) :=
  "local_foraging_effectiveness_" ++ species ++ suffix ++ ".tif".
Definition _FLORAL_RESOURCES_INDEX_FILE_PATTERN (species suffix : string) :=
  "floral_resources_" ++ species ++ suffix ++ ".tif".
Definition _POLLINATOR_SUPPLY_FILE_PATTERN (species suffix : string) :=
  "pollinator_supply_" ++ species ++ suffix ++ ".tif".
Definition _PROJECTED_FARM_VECTOR_FILE_PATTERN (suffix : string) :=
  "reprojected_farm_vector" ++ suffix ++ ".shp".
Definition _KERNEL_FILE_PATTERN (alpha : Qc) (suffix : string) :=
  "kernel_" ++ format_f alpha ++ suffix ++ ".tif".
Definition _POLLINATOR_ABUNDANCE_FILE_PATTERN (species season suffix : string) :=
  "pollinator_abundance_" ++ species ++ "_" ++ season ++ suffix ++ ".tif".
Definition _TOTAL_POLLINATOR_ABUNDANCE_FILE_PATTERN (season suffix : string) :=
  "total_pollinator_abundance_" ++ season ++ suffix ++ ".tif".
Definition _FORAGED_FLOWERS_INDEX_FILE_PATTERN (species season suffix : string) :=
  "foraged_flowers_index_" ++ species ++ "_" ++ season ++ suffix ++ ".tif".
Definition _CONVOLVE_PS_FILE_PATH (species suffix : string) :=
  "convolve_ps_" ++ species ++ suffix ++ ".tif".
Definition _HALF_SATURATION_FILE_PATTERN (season suffix : string) :=
  "half_saturation_" ++ season ++ suffix ++ ".tif".
Definition _BLANK_RASTER_FILE_PATTERN (suffix : string) :=
  "blank_raster" ++ suffix ++ ".tif".
Definition _FARM_POLLINATOR_SEASON_FILE_PATTERN (season suffix : string) :=
  "farm_pollinator_" ++ season ++ suffix ++ ".tif".
Definition _FARM_POLLINATOR_FILE_PATTERN (suffix : string) :=
  "farm_pollinators" ++ suffix ++ ".tif".
Definition _MANAGED_POLLINATOR_FILE_PATTERN (suffix : string) :=
  "managed_pollinators" ++ suffix ++ ".tif".
Definition _TOTAL_POLLINATOR_YIELD_FILE_PATTERN (suffix : string) :=
  "total_pollinator_yield" ++ suffix ++ ".tif".
Definition _WILD_POLLINATOR_YIELD_FILE_PATTERN (suffix : string) :=
  "wild_pollinator_yield" ++ suffix ++ ".tif".

(** ** The task graph *)

(** the array kernels handed to [raster_calculator], with their closure
    parameters *)
Inductive kernel_op :=
| MultByScalar_op (scalar : fnum)
| SumRasters_op
| PollinatorSupplyIndexOp_op (species_abundance : fnum)
| PollinatorSupplyOp_op
| OnFarmPollinatorAbundance_op
| PYTOp_op
| PYWOp_op.

(** the callables registered with the task graph, with their arguments *)
Inductive callable :=
| reproject_vector (base_vector_path : pyval) (target_projection : string)
    (target_path : string)
| reclassify_raster (base_raster_path : pyval) (value_map : gmap Z cell)
    (target_raster_path : string)
| _rasterize_vector_onto_base (base_raster_path base_vector_path
    attribute_id target_raster_path : string) (filter_string : option string)
| calculate_habitat_nesting_index_op (op : _CalculateHabitatNestingIndex.self)
| raster_calculator (base_raster_path_list : list string) (op : kernel_op)
    (target_raster_path : string)
| exponential_decay_kernel_raster (alpha : Qc) (kernel_path : string)
| convolve_2d (signal_path kernel_path target_path : string)
| new_raster_from_base (base_path : pyval) (target_path : string).

(** a registered task; tasks are referred to by their position in the graph *)
Record task := {
  func : callable;
  target_path_list : list string;
  dependent_task_list : list nat;
}.

(** computations that register tasks and may raise: the graph is threaded
    through, and a raise keeps the tasks registered so far *)
Definition graph (A : Type) : Type := list task → res A * list task.

Definition gret {A} (a : A) : graph A := λ g, (Ok a, g).

Definition gbind {A B} (m : graph A) (k : A → graph B) : graph B :=
  λ g, match m g with
       | (Ok a, g') => k a g'
       | (Raise e, g') => (Raise e, g')
       end.

Definition lift {A} (r : res A) : graph A := λ g, (r, g).

(** [task_graph.add_task(func=..., target_path_list=...,
    dependent_task_list=...)] *)
Definition add_task (f : callable) (targets : list string) (deps : list nat)
    : graph nat :=
  λ g, (Ok (length g),
        (g ++ [{| func := f; target_path_list := targets;
                  dependent_task_list := deps |}])%list).

#[global] Instance graph_ret : MRet graph := λ A a, gret a.
#[global] Instance graph_bind : MBind graph := λ A B k m, gbind m k.

(** [for x in l: ...] threading an accumulator through the graph monad *)
Fixpoint gfold {A B} (body : B → A → graph B) (acc : B) (l : list A)
    : graph B :=
  match l with
  | [] => gret acc
  | x :: l' => gbind (body acc x) (λ acc', gfold body acc' l')
  end.

(** [d[k]] on a [defaultdict(dict)] *)
Definition getdefault {K} `{Countable K} {K'} `{Countable K'} {V}
    (d : gmap K (gmap K' V)) (k : K) : gmap K' V := default ∅ (d !! k).

(** [d[k]] on the plain dictionaries of [scenario_variables], whose keys are
    shown by [name] in the [KeyError] *)
Definition lookup_or_raise {K} `{Countable K} {V} (d : gmap K V) (k : K)
    (name : string) : res V :=
  match d !! k with
  | Some v => Ok v
  | None => Raise (KeyError name)
  end.

(** ** [execute]: construction of the pipeline

    The body of [execute] as far as it registers tasks.  The loops are named
    after the quantity they build.  The aggregation of the yield rasters over
    the farm polygons, which follows the last registration, reads rasters
    through [ogr] and [pygeoprocessing] and registers nothing; it is not
    part of the model. *)

Section pipeline.

Context (ext : collaborators).

(** [nesting_substrate_index[substrate]], N(x, n) = ln(l(x), n) *)
Definition nesting_substrate_tasks (sv : scenario_variables)
    (landcover_raster_path : pyval) (intermediate_output_dir file_suffix : string)
    : graph (gmap string string * gmap string nat) :=
  gfold (λ '(path_map, task_map) substrate,
    let nesting_substrate_index_path :=
      os_path_join intermediate_output_dir
        (_NESTING_SUBSTRATE_INDEX_FILEPATTERN substrate file_suffix) in
    t ← add_task
          (reclassify_raster landcover_raster_path
             (getdefault (landcover_substrate_index sv) substrate)
             nesting_substrate_index_path)
          [nesting_substrate_index_path] [];
    gret (<[substrate := nesting_substrate_index_path]> path_map,
          <[substrate := t]> task_map))
  (∅, ∅) (substrate_list sv).

(** [farm_nesting_substrate_index[substrate]]: the farm substrate rasterized
    over N(x, n) *)
Definition farm_nesting_substrate_tasks (sv : scenario_variables)
    (nesting_substrate_index_path : gmap string string)
    (landcover_substrate_index_tasks : gmap string nat)
    (farm_vector_path : string) (reproject_farm_task : nat)
    (intermediate_output_dir file_suffix : string)
    : graph (gmap string string * list nat) :=
  gfold (λ '(path_map, task_list) substrate,
    let farm_substrate_id := _FARM_NESTING_SUBSTRATE_HEADER_PATTERN substrate in
    let farm_nesting_substrate_index_path :=
      os_path_join intermediate_output_dir
        (_FARM_NESTING_SUBSTRATE_INDEX_FILEPATTERN substrate file_suffix) in
    base ← lift (lookup_or_raise nesting_substrate_index_path substrate
                   substrate);
    dep ← lift (lookup_or_raise landcover_substrate_index_tasks substrate
                  substrate);
    t ← add_task
          (_rasterize_vector_onto_base base farm_vector_path farm_substrate_id
             farm_nesting_substrate_index_path None)
          [farm_nesting_substrate_index_path] [dep; reproject_farm_task];
    gret (<[substrate := farm_nesting_substrate_index_path]> path_map,
          (task_list ++ [t])%list))
  (∅, []) (substrate_list sv).

(** [habitat_nesting_index[species]], HN(x, s) = max_n(N(x, n) ns(s,n)) *)
Definition habitat_nesting_index_tasks (sv : scenario_variables)
    (substrate_path_map : gmap string string) (dependent_task_list : list nat)
    (intermediate_output_dir file_suffix : string)
    : graph (gmap string string * gmap string nat) :=
  gfold (λ '(path_map, task_map) species,
    let habitat_nesting_index_path :=
      os_path_join intermediate_output_dir
        (_HABITAT_NESTING_INDEX_FILE_PATTERN species file_suffix) in
    calculate_habitat_nesting_index_op' ←
      lift (_CalculateHabitatNestingIndex.__init__ substrate_path_map
              (getdefault (species_substrate_index sv) species)
              habitat_nesting_index_path);
    t ← add_task
          (calculate_habitat_nesting_index_op calculate_habitat_nesting_index_op')
          [habitat_nesting_index_path] dependent_task_list;
    gret (<[species := habitat_nesting_index_path]> path_map,
          <[species := t]> task_map))
  (∅, ∅) (species_list sv).

(** [relative_floral_abundance_index[season]], RA(l(x), j), with the farm
    floral resources rasterized over the top when there is a farm *)
Definition relative_floral_abundance_tasks (sv : scenario_variables)
    (landcover_raster_path : pyval) (farm : option (string * nat))
    (intermediate_output_dir file_suffix : string)
    : graph (gmap string string * gmap string nat) :=
  gfold (λ '(path_map, task_map) season,
    let relative_floral_abundance_index_path :=
      os_path_join intermediate_output_dir
        (_RELATIVE_FLORAL_ABUNDANCE_INDEX_FILE_PATTERN season file_suffix) in
    relative_floral_abudance_task ← add_task
      (reclassify_raster landcover_raster_path
         (getdefault (landcover_floral_resources sv) season)
         relative_floral_abundance_index_path)
      [relative_floral_abundance_index_path] [];
    match farm with
    | Some (farm_vector_path, reproject_farm_task) =>
        let farm_relative_floral_abundance_index_path :=
          os_path_join intermediate_output_dir
            (_FARM_RELATIVE_FLORAL_ABUNDANCE_INDEX_FILE_PATTERN season
               file_suffix) in
        let farm_floral_resources_id :=
          _FARM_FLORAL_RESOURCES_HEADER_PATTERN season in
        t ← add_task
              (_rasterize_vector_onto_base relative_floral_abundance_index_path
                 farm_vector_path farm_floral_resources_id
                 farm_relative_floral_abundance_index_path None)
              [farm_relative_floral_abundance_index_path]
              [relative_floral_abudance_task; reproject_farm_task];
        gret (<[season := farm_relative_floral_abundance_index_path]> path_map,
              <[season := t]> task_map)
    | None =>
        gret (<[season := relative_floral_abundance_index_path]> path_map,
              <[season := relative_floral_abudance_task]> task_map)
    end)
  (∅, ∅) (season_list sv).

(** [foraged_flowers_index[(species, season)]] = RA(l(x),j)*fa(s,j) *)
Definition foraged_flowers_tasks (sv : scenario_variables)
    (relative_floral_abundance_index_path : gmap string string)
    (relative_floral_abudance_task_map : gmap string nat)
    (intermediate_output_dir file_suffix : string)
    : graph (gmap (string * string) string * gmap (string * string) nat) :=
  gfold (λ acc species,
    gfold (λ '(path_map, task_map) season,
      let foraged_flowers_index_path :=
        os_path_join intermediate_output_dir
          (_FORAGED_FLOWERS_INDEX_FILE_PATTERN species season file_suffix) in
      relative_abundance_path ←
        lift (lookup_or_raise relative_floral_abundance_index_path season
                season);
      scalar ← lift (lookup_or_raise (species_foraging_activity sv)
                       (species, season) species);
      dep ← lift (lookup_or_raise relative_floral_abudance_task_map season
                    season);
      t ← add_task
            (raster_calculator [relative_abundance_path]
               (MultByScalar_op scalar) foraged_flowers_index_path)
            [foraged_flowers_index_path] [dep];
      gret (<[(species, season) := foraged_flowers_index_path]> path_map,
            <[(species, season) := t]> task_map))
    acc (season_list sv))
  (∅, ∅) (species_list sv).

(** the convolution kernel for the flight range of a species: the flight
    distance in pixels (a float division, which raises on a zero pixel
    size) and the path of the kernel raster, named after that number *)
Definition species_kernel (sv : scenario_variables)
    (landcover_raster_info : raster_info)
    (intermediate_output_dir file_suffix species : string)
    : res (Qc * string) :=
  alpha_s ← lookup_or_raise (alpha_value sv) species species;
  alpha ← (if bool_decide (mean_pixel_size landcover_raster_info = 0)
           then Raise ZeroDivisionError
           else Ok (alpha_s / mean_pixel_size landcover_raster_info));
  let kernel_path :=
    os_path_join intermediate_output_dir
      (_KERNEL_FILE_PATTERN alpha file_suffix) in
  Ok (alpha, kernel_path).

(** the body of the loop over species that builds foraging effectiveness,
    the decay kernel, floral resources, pollinator supply and pollinator
    abundance *)
Definition species_tasks (sv : scenario_variables)
    (landcover_raster_info : raster_info)
    (foraged_flowers_index_path : gmap (string * string) string)
    (foraged_flowers_index_task_map : gmap (string * string) nat)
    (habitat_nesting_index_path : gmap string string)
    (habitat_nesting_tasks : gmap string nat)
    (intermediate_output_dir output_dir file_suffix : string)
    (acc : gmap (string * string) string * gmap (string * string) nat)
    (species : string)
    : graph (gmap (string * string) string * gmap (string * string) nat) :=
    (* FE(x, s) = sum_j [RA(l(x), j) * fa(s, j)] *)
    foraged_flowers_path_band_list ← lift (mapM (λ season,
      lookup_or_raise foraged_flowers_index_path (species, season) species)
      (season_list sv));
    let local_foraging_effectiveness_path :=
      os_path_join intermediate_output_dir
        (_LOCAL_FORAGING_EFFECTIVENESS_FILE_PATTERN species file_suffix) in
    foraged_deps ← lift (mapM (λ season,
      lookup_or_raise foraged_flowers_index_task_map (species, season) species)
      (season_list sv));
    local_foraging_effectiveness_task ← add_task
      (raster_calculator foraged_flowers_path_band_list SumRasters_op
         local_foraging_effectiveness_path)
      [local_foraging_effectiveness_path] foraged_deps;
    (* a convolution kernel for the species flight range *)
    '(alpha, kernel_path) ← lift (species_kernel sv landcover_raster_info
                                    intermediate_output_dir file_suffix species);
    alpha_kernel_raster_task ← add_task
      (exponential_decay_kernel_raster alpha kernel_path) [kernel_path] [];
    (* convolve FE with alpha_s *)
    let floral_resources_index_path :=
      os_path_join intermediate_output_dir
        (_FLORAL_RESOURCES_INDEX_FILE_PATTERN species file_suffix) in
    floral_resources_task ← add_task
      (convolve_2d local_foraging_effectiveness_path kernel_path
         floral_resources_index_path)
      [floral_resources_index_path]
      [alpha_kernel_raster_task; local_foraging_effectiveness_task];
    (* PS(x,s) = FR(x,s) * HN(x,s) * sa(s) *)
    let pollinator_supply_index_path :=
      os_path_join output_dir
        (_POLLINATOR_SUPPLY_FILE_PATTERN species file_suffix) in
    sa ← lift (lookup_or_raise (species_abundance sv) species species);
    hn_path ← lift (lookup_or_raise habitat_nesting_index_path species species);
    hn_task ← lift (lookup_or_raise habitat_nesting_tasks species species);
    pollinator_supply_task ← add_task
      (raster_calculator [hn_path; floral_resources_index_path]
         (PollinatorSupplyIndexOp_op sa) pollinator_supply_index_path)
      [pollinator_supply_index_path] [floral_resources_task; hn_task];
    (* convolved_PS: PS over alpha_s *)
    let convolve_ps_path :=
      os_path_join intermediate_output_dir
        (_CONVOLVE_PS_FILE_PATH species file_suffix) in
    convolve_ps_task ← add_task
      (convolve_2d pollinator_supply_index_path kernel_path convolve_ps_path)
      [convolve_ps_path] [alpha_kernel_raster_task; pollinator_supply_task];
    (* PA(x,s,j) = RA(l(x),j) fa(s,j) convolve(ps, alpha_s) *)
    gfold (λ '(path_map, task_map) season,
      foraged_flowers_path ← lift (lookup_or_raise foraged_flowers_index_path
                                     (species, season) species);
      let pollinator_abundance_path :=
        os_path_join output_dir
          (_POLLINATOR_ABUNDANCE_FILE_PATTERN species season file_suffix) in
      foraged_task ← lift (lookup_or_raise foraged_flowers_index_task_map
                             (species, season) species);
      t ← add_task
            (raster_calculator
               [foraged_flowers_path; floral_resources_index_path;
                convolve_ps_path]
               PollinatorSupplyOp_op pollinator_abundance_path)
            [pollinator_abundance_path]
            [foraged_task; floral_resources_task; convolve_ps_task];
      mret (<[(species, season) := pollinator_abundance_path]> path_map,
            <[(species, season) := t]> task_map))
    acc (season_list sv).

Definition pollinator_abundance_tasks (sv : scenario_variables)
    (landcover_raster_info : raster_info)
    (foraged_flowers_index_path : gmap (string * string) string)
    (foraged_flowers_index_task_map : gmap (string * string) nat)
    (habitat_nesting_index_path : gmap string string)
    (habitat_nesting_tasks : gmap string nat)
    (intermediate_output_dir output_dir file_suffix : string)
    : graph (gmap (string * string) string * gmap (string * string) nat) :=
  gfold (species_tasks sv landcover_raster_info foraged_flowers_index_path
           foraged_flowers_index_task_map habitat_nesting_index_path
           habitat_nesting_tasks intermediate_output_dir output_dir
           file_suffix)
    (∅, ∅) (species_list sv).

(** the farm yield part of the pipeline, from the blank raster to PYW *)
Definition farm_yield_tasks (sv : scenario_variables)
    (landcover_raster_path : pyval)
    (pollinator_abundance_path_map : gmap (string * string) string)
    (pollinator_abundance_task_map : gmap (string * string) nat)
    (farm_vector_path : string) (reproject_farm_task : nat)
    (intermediate_output_dir output_dir file_suffix : string) : graph unit :=
  let blank_raster_path :=
    os_path_join intermediate_output_dir
      (_BLANK_RASTER_FILE_PATTERN file_suffix) in
  blank_raster_task ← add_task
    (new_raster_from_base landcover_raster_path blank_raster_path)
    [blank_raster_path] [];
  '(farm_pollinator_season_path_list, farm_pollinator_season_task_list) ←
    gfold (λ '(path_list, task_list) season,
      (* PAT(x,j) = sum_s PA(x,s,j) *)
      let total_pollinator_abundance_index_path :=
        os_path_join output_dir
          (_TOTAL_POLLINATOR_ABUNDANCE_FILE_PATTERN season file_suffix) in
      band_list ← lift (mapM (λ species,
        lookup_or_raise pollinator_abundance_path_map (species, season) species)
        (species_list sv));
      deps ← lift (mapM (λ species,
        lookup_or_raise pollinator_abundance_task_map (species, season) species)
        (species_list sv));
      total_pollinator_abundance_task ← add_task
        (raster_calculator band_list SumRasters_op
           total_pollinator_abundance_index_path)
        [total_pollinator_abundance_index_path] deps;
      let half_saturation_raster_path :=
        os_path_join intermediate_output_dir
          (_HALF_SATURATION_FILE_PATTERN season file_suffix) in
      half_saturation_task ← add_task
        (_rasterize_vector_onto_base blank_raster_path farm_vector_path
           _HALF_SATURATION_FARM_HEADER half_saturation_raster_path
           (Some (_FARM_SEASON_FIELD ++ "='" ++ season ++ "'")))
        [half_saturation_raster_path] [blank_raster_task];
      (* on farm pollinator abundance, FP_season *)
      let farm_pollinator_season_path :=
        os_path_join intermediate_output_dir
          (_FARM_POLLINATOR_SEASON_FILE_PATTERN season file_suffix) in
      t ← add_task
            (raster_calculator
               [half_saturation_raster_path;
                total_pollinator_abundance_index_path]
               OnFarmPollinatorAbundance_op farm_pollinator_season_path)
            [farm_pollinator_season_path]
            [half_saturation_task; total_pollinator_abundance_task];
      mret ((path_list ++ [farm_pollinator_season_path])%list,
            (task_list ++ [t])%list))
    ([], []) (season_list sv);
  let farm_pollinator_path :=
    os_path_join output_dir (_FARM_POLLINATOR_FILE_PATTERN file_suffix) in
  farm_pollinator_task ← add_task
    (raster_calculator farm_pollinator_season_path_list SumRasters_op
       farm_pollinator_path)
    [farm_pollinator_path] farm_pollinator_season_task_list;
  let managed_pollinator_path :=
    os_path_join intermediate_output_dir
      (_MANAGED_POLLINATOR_FILE_PATTERN file_suffix) in
  managed_pollinator_task ← add_task
    (_rasterize_vector_onto_base blank_raster_path farm_vector_path
       _MANAGED_POLLINATORS_FIELD managed_pollinator_path None)
    [managed_pollinator_path] [reproject_farm_task];
  let total_pollinator_yield_path :=
    os_path_join output_dir (_TOTAL_POLLINATOR_YIELD_FILE_PATTERN file_suffix) in
  pyt_task ← add_task
    (raster_calculator [managed_pollinator_path; farm_pollinator_path]
       PYTOp_op total_pollinator_yield_path)
    [total_pollinator_yield_path] [farm_pollinator_task; managed_pollinator_task];
  let wild_pollinator_yield_path :=
    os_path_join output_dir (_WILD_POLLINATOR_YIELD_FILE_PATTERN file_suffix) in
  wild_pollinator_task ← add_task
    (raster_calculator [managed_pollinator_path; total_pollinator_yield_path]
       PYWOp_op wild_pollinator_yield_path)
    [wild_pollinator_yield_path] [pyt_task; managed_pollinator_task];
  mret ().

Definition execute (args : gmap string pyval) : graph unit :=
  (* working directories and the file suffix *)
  workspace_dir ← lift (getitem args "workspace_dir" ≫= as_str);
  let intermediate_output_dir :=
    os_path_join workspace_dir "intermediate_outputs" in
  let output_dir := workspace_dir in
  let file_suffix := make_suffix_string ext args in
  let farm_vector_path :=
    match args !! "farm_vector_path" with
    | Some v =>
        if bool_decide (v ≠ PyStr "") then
          Some (os_path_join intermediate_output_dir
                  (_PROJECTED_FARM_VECTOR_FILE_PATTERN file_suffix))
        else None
    | None => None
    end in
  (* the scenario variables; raises if any of the inputs are malformed *)
  scenario_variables ← lift (_parse_scenario_variables ext args);
  landcover_raster_path ← lift (getitem args "landcover_raster_path");
  let landcover_raster_info := get_raster_info ext landcover_raster_path in
  (* task_graph = taskgraph.TaskGraph(work_token_dir, _N_WORKERS) *)
  farm ← match farm_vector_path with
         | Some path =>
             base ← lift (getitem args "farm_vector_path");
             reproject_farm_task ← add_task
               (reproject_vector base (projection landcover_raster_info) path)
               [path] [];
             mret (Some (path, reproject_farm_task))
         | None => mret None
         end;
  '(nesting_substrate_index_path, landcover_substrate_index_tasks) ←
    nesting_substrate_tasks scenario_variables landcover_raster_path
      intermediate_output_dir file_suffix;
  '(substrate_path_map, dependent_task_list) ←
    match farm with
    | Some (path, reproject_farm_task) =>
        farm_nesting_substrate_tasks scenario_variables
          nesting_substrate_index_path landcover_substrate_index_tasks
          path reproject_farm_task intermediate_output_dir file_suffix
    | None =>
        mret (nesting_substrate_index_path,
              (map_to_list landcover_substrate_index_tasks).*2)
    end;
  '(habitat_nesting_index_path, habitat_nesting_tasks) ←
    habitat_nesting_index_tasks scenario_variables substrate_path_map
      dependent_task_list intermediate_output_dir file_suffix;
  '(relative_floral_abundance_index_path, relative_floral_abudance_task_map) ←
    relative_floral_abundance_tasks scenario_variables landcover_raster_path
      farm intermediate_output_dir file_suffix;
  '(foraged_flowers_index_path, foraged_flowers_index_task_map) ←
    foraged_flowers_tasks scenario_variables
      relative_floral_abundance_index_path relative_floral_abudance_task_map
      intermediate_output_dir file_suffix;
  '(pollinator_abundance_path_map, pollinator_abundance_task_map) ←
    pollinator_abundance_tasks scenario_variables landcover_raster_info
      foraged_flowers_index_path foraged_flowers_index_task_map
      habitat_nesting_index_path habitat_nesting_tasks
      intermediate_output_dir output_dir file_suffix;
  (* the farm vector calculation; without farms the graph is complete *)
  match farm with
  | None => mret ()
  | Some (path, reproject_farm_task) =>
      farm_yield_tasks scenario_variables landcover_raster_path
        pollinator_abundance_path_map pollinator_abundance_task_map
        path reproject_farm_task intermediate_output_dir output_dir file_suffix
  end.

End pipeline.

(** ** [validate]

    The module exports [validate] under the decorator
    [validation.invest_validator] of the package's [validation] module.  The
    definition is the function the decorator wraps.  The decorator checks
    the arguments before it calls the function, among them that a
    [limit_to] other than [None] is a key of [args]; the statements about a
    [limit_to] take it to be one. *)

(** the state of the disk as [os.path.exists], [gdal.Open] and [ogr.Open]
    see it *)
Record disk := {
  path_exists : string → bool;
  opens_as_raster : string → bool;
  opens_as_vector : string → bool;
}.

(** [os.path.exists(v)]: [os.stat] rejects [None] with a [TypeError], which
    [exists] does not catch *)
Definition os_path_exists (d : disk) (v : pyval) : res bool :=
  match v with
  | PyStr s => Ok (path_exists d s)
  | PyNone => Raise TypeError
  end.

Inductive key_type := raster | vector.

Definition limited (limit_to : option string) (key : string) : bool :=
  match limit_to with
  | None => true
  | Some k => bool_decide (k = key)
  end.

(** [', '.join(l)] *)
Definition join_comma (l : list string) : string := String.concat ", " l.

Definition validate (d : disk) (args : gmap string pyval)
    (limit_to : option string) : res (list (list string * string)) :=
  let '(missing_key_list, no_value_list) :=
    foldl (λ '(missing_key_list, no_value_list) key,
      if limited limit_to key then
        match args !! key with
        | None => ((missing_key_list ++ [key])%list, no_value_list)
        | Some v =>
            if bool_decide (v = PyStr "" ∨ v = PyNone)
            then (missing_key_list, (no_value_list ++ [key])%list)
            else (missing_key_list, no_value_list)
        end
      else (missing_key_list, no_value_list))
    ([], [])
    ["workspace_dir"; "landcover_raster_path"; "guild_table_path";
     "landcover_biophysical_table_path"; "farm_vector_path"] in
  if bool_decide (0 < length missing_key_list)%nat then
    Raise (KeyError
      ("The following keys were expected in `args` but were missing"
       ++ join_comma missing_key_list))
  else
    let validation_error_list :=
      if bool_decide (0 < length no_value_list)%nat
      then [(no_value_list, "parameter has no value")] else [] in
    validation_error_list ← fold_each
      (λ (validation_error_list : list (list string * string)) key,
      if limited limit_to key then
        v ← getitem args key;
        os_path_exists d v ≫= λ found : bool,
        if found then Ok validation_error_list
        else Ok (validation_error_list ++ [([key], "not found on disk")])%list
      else Ok validation_error_list)
      validation_error_list
      ["landcover_raster_path"; "guild_table_path";
       "landcover_biophysical_table_path"; "farm_vector_path"];
    fold_each
      (λ (validation_error_list : list (list string * string))
         '(key, key_type),
      match args !! key with
      | Some v =>
          if limited limit_to key then
            os_path_exists d v ≫= λ found : bool,
            if negb found then
              Ok (validation_error_list ++ [([key], "not found on disk")])%list
            else
              path ← as_str v;
              match key_type with
              | raster =>
                  if opens_as_raster d path then Ok validation_error_list
                  else Ok (validation_error_list
                           ++ [([key], "not a raster")])%list
              | vector =>
                  if opens_as_vector d path then Ok validation_error_list
                  else Ok (validation_error_list
                           ++ [([key], "not a vector")])%list
              end
          else Ok validation_error_list
      | None => Ok validation_error_list
      end)
      validation_error_list
      [("landcover_raster_path", raster); ("farm_vector_path", vector)].

(** ** Vocabulary of the statements *)

(** pixel [i] of every block of a stack *)
Definition column (i : nat) (stack : list (list Qc)) : option (list Qc) :=
  mapM (λ a : list Qc, a !! i) stack.

(** the sum of a list of numbers *)
Definition Qcsum (l : list Qc) : Qc := foldr Qcplus 0 l.

(** an [args] dictionary with every required key, where the optional farm
    vector is given as [None] *)
Definition args_with_none_value : gmap string pyval :=
  {[ "workspace_dir" := PyStr "workspace";
     "landcover_raster_path" := PyStr "landcover.tif";
     "guild_table_path" := PyStr "guild_table.csv";
     "landcover_biophysical_table_path" := PyStr "biophysical_table.csv";
     "farm_vector_path" := PyNone ]}.

(** the keys [validate] requires *)
Definition required_keys : list string :=
  ["workspace_dir"; "landcover_raster_path"; "guild_table_path";
   "landcover_biophysical_table_path"; "farm_vector_path"].

(** the season or substrate names a pattern finds in a list of headers *)
Definition names_in (pattern : regex) (headers : list string) : list string :=
  omap (λ header, snd <$> re_match pattern header) headers.

(** the headers of a table as the parser takes them, from one of its rows *)
Definition headers_of {K} `{Countable K} (table : gmap K (gmap string cell))
    : list string :=
  match first_row_keys table with
  | Ok headers => headers
  | Raise _ => []
  end.

(** the headers of the three input tables of a run *)
Definition guild_headers_of (ext : collaborators) (args : gmap string pyval)
    : list string :=
  headers_of (build_lookup_from_csv_species ext
                (default PyNone (args !! "guild_table_path"))).

Definition biophysical_headers_of (ext : collaborators)
    (args : gmap string pyval) : list string :=
  headers_of (build_lookup_from_csv_lucode ext
                (default PyNone (args !! "landcover_biophysical_table_path"))).

Definition farm_headers_of (ext : collaborators) (args : gmap string pyval)
    : list string :=
  match farm_vector_path_of args with
  | Some path => farm_field_names (ogr_Open ext path)
  | None => []
  end.

(** the tables that have to define every season and every substrate *)
Definition required_tables (args : gmap string pyval) : list string :=
  match farm_vector_path_of args with
  | Some _ => ["guild"; "farm"; "biophysical"]
  | None => ["guild"; "biophysical"]
  end.

(** the season names and the substrate names a table defines *)
Definition seasons_of (ext : collaborators) (args : gmap string pyval)
    (table : string) : list string :=
  if bool_decide (table = "guild") then
    names_in _FORAGING_ACTIVITY_RE_PATTERN (guild_headers_of ext args)
  else if bool_decide (table = "farm") then
    names_in _FARM_FLORAL_RESOURCES_PATTERN (farm_headers_of ext args)
  else if bool_decide (table = "biophysical") then
    names_in _FLORAL_RESOURCES_AVAILABLE_PATTERN
      (biophysical_headers_of ext args)
  else [].

Definition substrates_of (ext : collaborators) (args : gmap string pyval)
    (table : string) : list string :=
  if bool_decide (table = "guild") then
    names_in _NESTING_SUITABILITY_PATTERN (guild_headers_of ext args)
  else if bool_decide (table = "farm") then
    names_in _FARM_NESTING_SUBSTRATE_RE_PATTERN (farm_headers_of ext args)
  else if bool_decide (table = "biophysical") then
    names_in _NESTING_SUBSTRATE_PATTERN (biophysical_headers_of ext args)
  else [].

(** [name] is defined by one required table and missing from another *)
Definition mismatched (names_of : string → list string)
    (args : gmap string pyval) (name : string) : Prop :=
  ∃ present absent,
    present ∈ required_tables args ∧ absent ∈ required_tables args ∧
    name ∈ names_of present ∧ name ∉ names_of absent.

(** all the season names, and all the substrate names, of the input tables *)
Definition season_names (ext : collaborators) (args : gmap string pyval)
    : gset string :=
  list_to_set (concat (seasons_of ext args <$> required_tables args)).

Definition substrate_names (ext : collaborators) (args : gmap string pyval)
    : gset string :=
  list_to_set (concat (substrates_of ext args <$> required_tables args)).

(** the species names of the guild table of a run *)
Definition species_of (ext : collaborators) (args : gmap string pyval)
    : gset string :=
  dom (build_lookup_from_csv_species ext
         (default PyNone (args !! "guild_table_path"))).

(** dictionary [d] has an entry for [name] that lists [table] *)
Definition defines (d : gmap string (gmap string string))
    (name table : string) : Prop :=
  ∃ tables, d !! name = Some tables ∧ is_Some (tables !! table).

(** every entry of the dictionary lists at least one table *)
Definition populated (d : gmap string (gmap string string)) : Prop :=
  ∀ name tables, d !! name = Some tables → tables ≠ ∅.

(** the error of the cross-table check for an entry of the season or
    substrate dictionary *)
Definition entry_error (args : gmap string pyval) (name : string)
    (tables : gmap string string) : exn :=
  match farm_vector_path_of args with
  | Some _ => ValueError (ExpectedThreeEntries name tables)
  | None => ValueError (ExpectedTwoEntries name tables)
  end.

(** a fraction as a pixel value *)
Definition frac (n : Z) (d : positive) : Qc := Q2Qc (n # d).


Definition intermediate_dir_of (args : gmap string pyval) : string :=
  match args !! "workspace_dir" with
  | Some (PyStr workspace_dir) =>
      os_path_join workspace_dir "intermediate_outputs"
  | _ => ""
  end.

(** a computation that only adds tasks to the graph it is given *)
Definition extends {A} (m : graph A) : Prop :=
  ∀ g r g', m g = (r, g') → g `prefix_of` g'.

(** [t] is the task that builds the decay kernel raster [path] for the
    flight distance [alpha] *)
Definition kernel_task (alpha : Qc) (path : string) (t : task) : Prop :=
  func t = exponential_decay_kernel_raster alpha path ∧
  target_path_list t = [path].




(** the foraging activity weights of a species over the seasons, and the
    relative abundance weights over the species, as the result holds them *)
Definition activity_weights (sv : scenario_variables) (species : string)
    : option (list fnum) :=
  mapM (λ season, species_foraging_activity sv !! (species, season))
    (season_list sv).

Definition abundance_weights (sv : scenario_variables) : option (list fnum) :=
  mapM (λ species, species_abundance sv !! species) (species_list sv).

(** the guild table of a run and the numbers in its cells *)
Definition guild_table_of (ext : collaborators) (args : gmap string pyval)
    : gmap string (gmap string cell) :=
  build_lookup_from_csv_species ext
    (default PyNone (args !! "guild_table_path")).




(** *** Example scenarios

    A guild table of two species over one substrate and two seasons with its
    biophysical table, and three variants of the guild table: without the
    summer column, without the summer and the alpha columns, and with a
    species that forages in no season. *)

Definition guild_row (species : string) (columns : list (string * cell))
    : string * gmap string cell :=
  (species, list_to_map (("species", CStr species) :: columns)).

Definition example_guild_table : gmap string (gmap string cell) :=
  list_to_map
    [guild_row "apis"
       [("nesting_suitability_cavity_index", CNum (frac 1 2));
        ("foraging_activity_spring_index", CNum (frac 1 2));
        ("foraging_activity_summer_index", CNum (frac 1 4));
        ("alpha", CNum (frac 500 1));
        ("relative_abundance", CNum 1)];
     guild_row "bombus"
       [("nesting_suitability_cavity_index", CNum 1);
        ("foraging_activity_spring_index", CNum (frac 1 2));
        ("foraging_activity_summer_index", CNum (frac 1 2));
        ("alpha", CNum (frac 500 1));
        ("relative_abundance", CNum (frac 3 1))]].

Definition guild_table_without_summer : gmap string (gmap string cell) :=
  list_to_map
    [guild_row "apis"
       [("nesting_suitability_cavity_index", CNum (frac 1 2));
        ("foraging_activity_spring_index", CNum (frac 1 2));
        ("alpha", CNum (frac 500 1));
        ("relative_abundance", CNum 1)]].

Definition guild_table_without_alpha : gmap string (gmap string cell) :=
  list_to_map
    [guild_row "apis"
       [("nesting_suitability_cavity_index", CNum (frac 1 2));
        ("foraging_activity_spring_index", CNum (frac 1 2));
        ("relative_abundance", CNum 1)]].

Definition guild_table_idle_species : gmap string (gmap string cell) :=
  list_to_map
    [guild_row "apis"
       [("nesting_suitability_cavity_index", CNum (frac 1 2));
        ("foraging_activity_spring_index", CNum 0);
        ("foraging_activity_summer_index", CNum 0);
        ("alpha", CNum (frac 500 1));
        ("relative_abundance", CNum 0)]].

Definition example_biophysical_table : gmap Z (gmap string cell) :=
  list_to_map
    [(1%Z, list_to_map
        [("lucode", CNum 1);
         ("nesting_cavity_availability_index", CNum (frac 1 2));
         ("floral_resources_spring_index", CNum (frac 1 2));
         ("floral_resources_summer_index", CNum 1)])].

(** the files of the examples *)
Definition example_files : collaborators :=
  {| build_lookup_from_csv_species := λ path,
       if bool_decide (path = PyStr "guild_without_summer.csv")
       then guild_table_without_summer
       else if bool_decide (path = PyStr "guild_without_alpha.csv")
       then guild_table_without_alpha
       else if bool_decide (path = PyStr "guild_idle_species.csv")
       then guild_table_idle_species
       else example_guild_table;
     build_lookup_from_csv_lucode := λ _, example_biophysical_table;
     ogr_Open := λ _, {| farm_geom_type := wkbPolygon;
                         farm_field_names := [];
                         farm_features := [] |};
     get_raster_info := λ _, {| projection := "EPSG:32610";
                                mean_pixel_size := frac 30 1 |};
     make_suffix_string := λ _, "" |}.

Definition example_args (guild_table_path : string) : gmap string pyval :=
  {[ "workspace_dir" := PyStr "workspace";
     "landcover_raster_path" := PyStr "landcover.tif";
     "guild_table_path" := PyStr guild_table_path;
     "landcover_biophysical_table_path" := PyStr "biophysical_table.csv" ]}.

(** *** More example scenarios *)

(** a farm layer of one blueberry field pollinated in spring, and the files
    and arguments of the example scenario with that layer *)
Definition example_farm : farm_vector :=
  {| farm_geom_type := wkbPolygon;
     farm_field_names :=
       ["season"; "crop_type"; "half_sat"; "p_managed"; "fr_spring";
        "fr_summer"; "n_cavity"; "p_dep"];
     farm_features :=
       [list_to_map
          [("season", CStr "spring"); ("crop_type", CStr "blueberries");
           ("half_sat", CNum (frac 1 2)); ("p_managed", CNum 0);
           ("fr_spring", CNum (frac 1 2)); ("fr_summer", CNum (frac 1 4));
           ("n_cavity", CNum (frac 1 2)); ("p_dep", CNum (frac 3 4))]] |}.

Definition example_farm_files : collaborators :=
  {| build_lookup_from_csv_species := λ _, example_guild_table;
     build_lookup_from_csv_lucode := λ _, example_biophysical_table;
     ogr_Open := λ path,
       if bool_decide (path = "roads.shp")
       then {| farm_geom_type := wkbOther;
               farm_field_names := [];
               farm_features := [] |}
       else example_farm;
     get_raster_info := λ _, {| projection := "EPSG:32610";
                                mean_pixel_size := frac 30 1 |};
     make_suffix_string := λ _, "" |}.

Definition example_farm_args (farm_vector_path : pyval) : gmap string pyval :=
  <["farm_vector_path" := farm_vector_path]> (example_args "guild_table.csv").

(** the scenarios the parser returns for the example files, without and
    with the farm layer *)
Definition empty_scenario : scenario_variables :=
  {| season_list := []; substrate_list := []; species_list := [];
     alpha_value := ∅; species_abundance := ∅;
     species_foraging_activity := ∅; landcover_substrate_index := ∅;
     landcover_floral_resources := ∅; species_substrate_index := ∅;
     foraging_activity_index := ∅ |}.

Definition example_scenario : scenario_variables :=
  Eval vm_compute in
  match _parse_scenario_variables example_files
          (example_args "guild_table.csv") with
  | Ok sv => sv
  | Raise _ => empty_scenario
  end.

Definition example_farm_scenario : scenario_variables :=
  Eval vm_compute in
  match _parse_scenario_variables example_farm_files
          (example_farm_args (PyStr "farms.shp")) with
  | Ok sv => sv
  | Raise _ => empty_scenario
  end.

(** a disk on which every path exists and opens, and one that lacks the
    landcover raster *)
Definition example_disk : disk :=
  {| path_exists := λ _, true;
     opens_as_raster := λ _, true;
     opens_as_vector := λ _, true |}.

Definition disk_without_landcover : disk :=
  {| path_exists := λ path, bool_decide (path ≠ "landcover.tif");
     opens_as_raster := λ _, true;
     opens_as_vector := λ _, true |}.

(** *** Header names *)

(** the string contains an underscore *)
Fixpoint has_underscore (s : string) : bool :=
  match s with
  | "" => false
  | String c s' => Ascii.eqb c "_" || has_underscore s'
  end.

(** the cell of a table under a row key and a header *)
Definition raw_cell {K} `{Countable K} (table : gmap K (gmap string cell))
    (key : K) (header : string) : option cell :=
  row ← table !! key; row !! header.

(** the header a table has to use for a season or substrate name *)
Definition season_header (table name : string) : string :=
  if bool_decide (table = "guild") then _FORAGING_ACTIVITY_PATTERN name
  else if bool_decide (table = "farm")
  then _FARM_FLORAL_RESOURCES_HEADER_PATTERN name
  else "floral_resources_" ++ name ++ "_index".

Definition substrate_header (table name : string) : string :=
  if bool_decide (table = "guild") then "nesting_suitability_" ++ name ++ "_index"
  else if bool_decide (table = "farm")
  then _FARM_NESTING_SUBSTRATE_HEADER_PATTERN name
  else "nesting_" ++ name ++ "_availability_index".

(** every header the dictionary stores is the one built from its name *)
Definition named (fmt : string → string → string)
    (d : gmap string (gmap string string)) : Prop :=
  ∀ name tables table header,
    d !! name = Some tables → tables !! table = Some header →
    header = fmt table name.

(** *** Validation keys *)

(** the keys whose values [validate] looks up on disk *)
Definition path_keys : list string :=
  ["landcover_raster_path"; "guild_table_path";
   "landcover_biophysical_table_path"; "farm_vector_path"].

(** *** Task identifiers in scope

    [bounded n a]: every task identifier held in the value [a] refers to
    one of the first [n] tasks of the graph. *)

Class Bounded (A : Type) := bounded : nat → A → Prop.
Global Hint Mode Bounded ! : typeclass_instances.

#[global] Instance bounded_task_id : Bounded nat := λ n t, (t < n)%nat.
#[global] Instance bounded_unit : Bounded unit := λ _ _, True.
#[global] Instance bounded_string : Bounded string := λ _ _, True.
#[global] Instance bounded_pyval : Bounded pyval := λ _ _, True.
#[global] Instance bounded_fnum : Bounded fnum := λ _ _, True.
#[global] Instance bounded_Qc : Bounded Qc := λ _ _, True.
#[global] Instance bounded_scenario : Bounded scenario_variables := λ _ _, True.
#[global] Instance bounded_closure :
  Bounded _CalculateHabitatNestingIndex.self := λ _ _, True.
#[global] Instance bounded_list {A} `{Bounded A} : Bounded (list A) :=
  λ n l, Forall (bounded n) l.
#[global] Instance bounded_option {A} `{Bounded A} : Bounded (option A) :=
  λ n o, from_option (bounded n) True o.
#[global] Instance bounded_prod {A B} `{Bounded A} `{Bounded B}
    : Bounded (A * B) :=
  λ n p, bounded n p.1 ∧ bounded n p.2.
#[global] Instance bounded_map {K} `{Countable K} {V} `{Bounded V}
    : Bounded (gmap K V) :=
  λ n m, ∀ k v, m !! k = Some v → bounded n v.

(** identifiers in scope of [n] tasks remain in scope of more tasks *)
Class BoundedMono (A : Type) `{Bounded A} :=
  bounded_mono : ∀ (n n' : nat) (a : A), (n ≤ n')%nat → bounded n a → bounded n' a.

(** values that hold no task identifier *)
Class NoIds (A : Type) `{Bounded A} := no_ids : ∀ (n : nat) (a : A), bounded n a.

(** [path] lies in the directory [workspace_dir] *)
Definition inside (workspace_dir path : string) : Prop :=
  ∃ rest, path = workspace_dir ++ rest.

(** the callables of the landscape part of the pipeline, which runs with or
    without a farm vector *)
Definition landscape_only (f : callable) : Prop :=
  match f with
  | reproject_vector _ _ _ => False
  | _rasterize_vector_onto_base _ _ _ _ _ => False
  | new_raster_from_base _ _ => False
  | raster_calculator _ op _ =>
      match op with
      | OnFarmPollinatorAbundance_op | PYTOp_op | PYWOp_op => False
      | _ => True
      end
  | _ => True
  end.

(** [execute] takes the farm branch: the key is present with a value other
    than [''] *)
Definition farm_requested (args : gmap string pyval) : bool :=
  match args !! "farm_vector_path" with
  | Some v => bool_decide (v ≠ PyStr "")
  | None => false
  end.

(** a graph in which every task satisfies [P] and depends only on tasks
    registered before it *)
Definition well_formed (P : task → Prop) (g : list task) : Prop :=
  ∀ i t, g !! i = Some t → P t ∧ bounded i (dependent_task_list t).

(** a computation that keeps the graph well formed and returns only
    identifiers of registered tasks, when the identifiers it is given are
    among the first [n] *)
Definition sound (P : task → Prop) (n : nat) {A} `{Bounded A} (m : graph A)
    : Prop :=
  ∀ g r g', well_formed P g → (n ≤ length g)%nat → m g = (r, g') →
    well_formed P g' ∧ (length g ≤ length g')%nat ∧
    ∀ a, r = Ok a → bounded (length g') a.

(** what every task of the pipeline satisfies: one target path, inside the
    workspace; and, when no farm vector is requested, a callable of the
    landscape part *)
Definition task_ok (workspace_dir : string) (farm : bool) (t : task) : Prop :=
  (∃ path, target_path_list t = [path] ∧ inside workspace_dir path) ∧
  (farm = false → landscape_only (func t)).

(** *** The number of tasks

    [adds k m]: a run of [m] that returns has registered [k] tasks. *)
Definition adds {A} (k : nat) (m : graph A) : Prop :=
  ∀ g a g', m g = (Ok a, g') → length g' = (length g + k)%nat.

(** the number of tasks of a run on a scenario, without and with a farm
    vector *)
Definition task_count (sv : scenario_variables) (farm : bool) : nat :=
  let substrates := length (substrate_list sv) in
  let seasons := length (season_list sv) in
  let species := length (species_list sv) in
  if farm
  then 6 + 2 * substrates + 5 * seasons + species * (6 + 2 * seasons)
  else substrates + seasons + species * (6 + 2 * seasons).

(** *** The biophysical table *)

(** the biophysical table of a run *)
Definition biophysical_table_of (ext : collaborators)
    (args : gmap string pyval) : gmap Z (gmap string cell) :=
  build_lookup_from_csv_lucode ext
    (default PyNone (args !! "landcover_biophysical_table_path")).

(** what [landcover_index] has written for the pairs of a name and a
    landcover code that [written] holds: the cell of the code's row under
    the biophysical header of the name *)
Definition copied (table : gmap Z (gmap string cell))
    (name_to_header : gmap string (gmap string string))
    (written : string → Z → Prop) (result : gmap string (gmap Z cell)) : Prop :=
  ∀ name landcover_id, written name landcover_id →
    ∃ headers header row c,
      name_to_header !! name = Some headers ∧
      headers !! "biophysical" = Some header ∧
      result !! name = Some row ∧ row !! landcover_id = Some c ∧
      raw_cell table landcover_id header = Some c.

(** the files of the examples with a landcover raster whose pixels have no
    extent *)
Definition flat_raster_files : collaborators :=
  {| build_lookup_from_csv_species := build_lookup_from_csv_species example_files;
     build_lookup_from_csv_lucode := build_lookup_from_csv_lucode example_files;
     ogr_Open := ogr_Open example_files;
     get_raster_info := λ _, {| projection := "EPSG:32610";
                                mean_pixel_size := 0 |};
     make_suffix_string := make_suffix_string example_files |}.

(** * Properties *)

Local Open Scope Qc_scope.
Set Warnings "-clear-no-such-hyp".

(** ** Boolean-mask indexing *)

Section masks.

Context {A : Type}.
Implicit Types (a b r v : list A) (m : list bool) (i : nat).

Lemma take_zip_with (f : A → A → A) a b m :
  np.take (zip_with f a b) m = zip_with f (np.take a m) (np.take b m).
Proof.
  revert b m. induction a as [|x a IH]; intros [|y b] [|[] m]; simpl;
    try reflexivity.
  - by destruct (np.take a m).
  - by rewrite IH.
  - apply IH.
Qed.

Lemma take_fmap (f : A → A) a m :
  np.take (f <$> a) m = f <$> np.take a m.
Proof.
  revert m. induction a as [|x a IH]; intros [|[] m]; simpl;
    rewrite ?IH; reflexivity.
Qed.

Lemma length_put r m v : length (np.put r m v) = length r.
Proof.
  revert m v. induction r as [|x r IH]; intros [|[] m] v; simpl; try done.
  - destruct v; simpl; by rewrite ?IH.
  - by rewrite IH.
Qed.

Lemma length_take_eq a b m :
  length a = length b → length (np.take a m) = length (np.take b m).
Proof.
  revert b m. induction a as [|x a IH]; intros [|y b] [|[] m] Hl;
    simplify_eq/=; auto.
Qed.

(** scattering the selection of [a] back over [r]: [m] chooses, pixel by
    pixel, between [a] and [r] *)
Lemma put_take_lookup r m a i :
  length r = length m → length a = length m →
  np.put r m (np.take a m) !! i =
    match m !! i with
    | Some true => a !! i
    | _ => r !! i
    end.
Proof.
  revert m a i. induction r as [|x r IH]; intros [|c m] [|y a] i Hr Ha;
    simplify_eq/=.
  - by destruct i.
  - destruct c, i; simpl; auto.
Qed.

Lemma put_scalar_lookup r m c i :
  np.put_scalar r m c !! i =
    x ← r !! i; k ← m !! i; Some (if k : bool then c else x).
Proof. unfold np.put_scalar. by rewrite lookup_zip_with. Qed.

Lemma length_put_scalar r m c :
  length r = length m → length (np.put_scalar r m c) = length r.
Proof. intros H. unfold np.put_scalar. rewrite length_zip_with. lia. Qed.

(** the pixels selected by a mask that excludes the zeros of [b] are
    non-zero, so that dividing by them is defined *)
Lemma take_nonzero (b : list Qc) m :
  Forall (λ y, y ≠ 0) (np.take b (np.and m (np.not (np.eq b 0)))).
Proof.
  revert m. induction b as [|y b IH]; intros [|c m]; simpl; try constructor.
  destruct c; simpl; [|apply IH].
  case_bool_decide; simpl; [apply IH|]. constructor; [done|apply IH].
Qed.

Lemma divide_nonzero (a b : list Qc) :
  length a = length b → Forall (λ y, y ≠ 0) b →
  np.divide a b = Some (zip_with Qcdiv a b).
Proof.
  revert b. induction a as [|x a IH]; intros [|y b] Hl Hb; simplify_eq/=;
    [done|].
  inversion_clear Hb. rewrite bool_decide_eq_false_2 by done.
  by rewrite IH.
Qed.

End masks.

(** ** The kernels, pixel by pixel *)

(** unfolds the elementwise operations to [fmap] and [zip_with] and reads
    pixel [i] through them *)
Ltac np_unfold :=
  unfold np.ne, np.eq, np.and, np.or, np.not, np.zeros_bool,
    np.full_like, np.add, np.mul, np.mul_scalar, np.scalar_mul,
    np.float64.ne, np.float64.gt, np.float64.lt,
    np.float64.add, np.float64.sub, np.float64.mul, np.float64.divide,
    np.float64.scalar_mul, np.float64.scalar_sub in *.

Ltac np_lengths :=
  unfold np.put_scalar;
  repeat first [ rewrite length_put | rewrite length_fmap
               | rewrite length_zip_with ];
  lia.

Ltac np_pixel :=
  repeat first
    [ rewrite put_scalar_lookup
    | rewrite put_take_lookup by np_lengths
    | rewrite list_lookup_fmap
    | rewrite lookup_zip_with
    | progress simplify_option_eq ].

Section pixels.

Implicit Types (i : nat).

Lemma PYTOp_pixel (mp_array FP_array : list PrimFloat.float) i
    (mp FP : PrimFloat.float) :
  length mp_array = length FP_array →
  mp_array !! i = Some mp → FP_array !! i = Some FP →
  _PYTOp.__call__ mp_array FP_array !! i =
    Some (if mp =? _INDEX_NODATA_float64 then _INDEX_NODATA_float64
          else if 1 <? mp + FP then 1 else mp + FP)%float.
Proof.
  intros Hl Hm Hf. unfold _PYTOp.__call__. cbv zeta.
  unfold np.float64.add. rewrite <- take_zip_with. np_unfold.
  np_pixel; by destruct (mp =? _INDEX_NODATA_float64)%float.
Qed.

Lemma PYWOp_pixel (mp_array PYT_array : list PrimFloat.float) i
    (mp PYT : PrimFloat.float) :
  length mp_array = length PYT_array →
  mp_array !! i = Some mp → PYT_array !! i = Some PYT →
  _PYWOp.__call__ mp_array PYT_array !! i =
    Some (if mp =? _INDEX_NODATA_float64 then _INDEX_NODATA_float64
          else if PYT - mp <? 0 then 0 else PYT - mp)%float.
Proof.
  intros Hl Hm Hf. unfold _PYWOp.__call__. cbv zeta.
  unfold np.float64.sub. rewrite <- take_zip_with. np_unfold.
  np_pixel; by destruct (mp =? _INDEX_NODATA_float64)%float.
Qed.

Lemma MultByScalar_pixel (s : _MultByScalar.self) (array : list Qc) i (x : Qc) :
  array !! i = Some x →
  _MultByScalar.__call__ s array !! i =
    Some (if bool_decide (x = _INDEX_NODATA) then _INDEX_NODATA
          else x * _MultByScalar.scalar s).
Proof.
  intros Hx. unfold _MultByScalar.__call__. cbv zeta.
  unfold np.mul_scalar. rewrite <- take_fmap. np_unfold.
  np_pixel; reflexivity.
Qed.

Lemma PollinatorSupplyIndexOp_pixel (s : _PollinatorSupplyIndexOp.self)
    (floral_resources_array habitat_nesting_suitability_array : list Qc) i
    (fr hn : Qc) :
  length floral_resources_array = length habitat_nesting_suitability_array →
  floral_resources_array !! i = Some fr →
  habitat_nesting_suitability_array !! i = Some hn →
  _PollinatorSupplyIndexOp.__call__ s floral_resources_array
      habitat_nesting_suitability_array !! i =
    Some (if bool_decide (fr = _INDEX_NODATA) then _INDEX_NODATA
          else _PollinatorSupplyIndexOp.species_abundance s * fr * hn).
Proof.
  intros Hl Hf Hh. unfold _PollinatorSupplyIndexOp.__call__. cbv zeta.
  unfold np.mul, np.scalar_mul. rewrite <- take_fmap, <- take_zip_with.
  np_unfold. np_pixel; reflexivity.
Qed.

(** the division of the pollinator abundance kernel meets no zero divisor:
    the kernel returns, and the returned block is as long as its input *)
Lemma PollinatorSupplyOp_returns
    (foraged_flowers_array floral_resources_array convolve_ps_array : list Qc) :
  length foraged_flowers_array = length floral_resources_array →
  length foraged_flowers_array = length convolve_ps_array →
  _PollinatorSupplyOp.__call__ foraged_flowers_array floral_resources_array
      convolve_ps_array =
    let valid_mask := np.ne foraged_flowers_array _INDEX_NODATA in
    let zero_mask := np.eq floral_resources_array 0 in
    let result_mask := np.and valid_mask (np.not zero_mask) in
    Some (np.put
      (np.put_scalar (np.full_like foraged_flowers_array _INDEX_NODATA)
         (np.and zero_mask valid_mask) 0)
      result_mask
      (np.take
         (np.mul (zip_with Qcdiv foraged_flowers_array floral_resources_array)
            convolve_ps_array)
         result_mask)).
Proof.
  intros Hfr Hps. unfold _PollinatorSupplyOp.__call__. cbv zeta.
  rewrite divide_nonzero; [| by apply length_take_eq | apply take_nonzero].
  simpl. unfold np.mul. by rewrite <- !take_zip_with.
Qed.

Lemma PollinatorSupplyOp_pixel
    (foraged_flowers_array floral_resources_array convolve_ps_array : list Qc)
    i (foraged fr ps : Qc) :
  length foraged_flowers_array = length floral_resources_array →
  length foraged_flowers_array = length convolve_ps_array →
  foraged_flowers_array !! i = Some foraged →
  floral_resources_array !! i = Some fr →
  convolve_ps_array !! i = Some ps →
  ∃ result,
    _PollinatorSupplyOp.__call__ foraged_flowers_array floral_resources_array
      convolve_ps_array = Some result ∧
    result !! i =
      Some (if bool_decide (foraged = _INDEX_NODATA) then _INDEX_NODATA
            else if bool_decide (fr = 0) then 0
            else foraged / fr * ps).
Proof.
  intros Hfr Hps Hf Hr Hp. eexists. split.
  { by apply PollinatorSupplyOp_returns. }
  cbv zeta. np_unfold. np_pixel; reflexivity.
Qed.


(** the on-farm abundance kernel, pixel by pixel: every pixel is written,
    whatever its divisor *)
Lemma OnFarmPollinatorAbundance_pixel
    (h_array pat_array : list PrimFloat.float) i (h pat : PrimFloat.float) :
  length h_array = length pat_array →
  h_array !! i = Some h → pat_array !! i = Some pat →
  _OnFarmPollinatorAbundance.__call__ h_array pat_array !! i =
    Some (if (h =? _INDEX_NODATA_float64) || (pat =? _INDEX_NODATA_float64)
          then _INDEX_NODATA_float64
          else pat * (1 - h) / (h * (1 - 2 * pat) + pat))%float.
Proof.
  intros Hl Hh Hp. unfold _OnFarmPollinatorAbundance.__call__. cbv zeta.
  unfold np.float64.divide, np.float64.mul, np.float64.add,
    np.float64.scalar_sub, np.float64.scalar_mul.
  repeat first [rewrite <- take_fmap | rewrite <- take_zip_with].
  np_unfold.
  np_pixel;
    by destruct (h =? _INDEX_NODATA_float64)%float,
         (pat =? _INDEX_NODATA_float64)%float.
Qed.

(** *** Reductions along the stack of blocks *)

Lemma foldl_zip_with_lookup (f : Qc → Qc → Qc) (rs : list (list Qc)) :
  ∀ (r : list Qc) i (x : Qc) (xs : list Qc),
    r !! i = Some x → column i rs = Some xs →
    foldl (zip_with f) r rs !! i = Some (foldl f x xs).
Proof.
  unfold column. induction rs as [|r1 rs IH]; intros r i x xs Hr Hc;
    simplify_option_eq; [done|].
  apply IH; [|done]. rewrite lookup_zip_with. by simplify_option_eq.
Qed.

Lemma column_scaled (stack : list (list Qc)) (scalars : list Qc) i
    (xs : list Qc) :
  column i stack = Some xs →
  column i (zip_with np.mul_scalar stack scalars) =
    Some (zip_with Qcmult xs scalars).
Proof.
  unfold column. revert scalars xs.
  induction stack as [|a stack IH]; intros [|c scalars] xs Hc;
    simplify_option_eq; try done.
  change (np.mul_scalar a c) with ((λ x, x * c) <$> a).
  rewrite list_lookup_fmap. by simplify_option_eq.
Qed.

(** the running maximum is the greatest element met so far *)
Lemma foldl_maximum_upper (xs : list Qc) :
  ∀ x : Qc, x ≤ foldl np.maximum x xs ∧
            Forall (λ y, y ≤ foldl np.maximum x xs) xs.
Proof.
  induction xs as [|y xs IH]; intros x; simpl.
  { split; [apply Qcle_refl | constructor]. }
  destruct (IH (np.maximum x y)) as [Hm Hall].
  assert (x ≤ np.maximum x y ∧ y ≤ np.maximum x y) as [Hx Hy].
  { unfold np.maximum. case_bool_decide as Hlt.
    - split; [by apply Qclt_le_weak | apply Qcle_refl].
    - split; [apply Qcle_refl | by apply Qcnot_lt_le]. }
  split; [by eapply Qcle_trans|].
  constructor; [by eapply Qcle_trans | done].
Qed.

Lemma foldl_maximum_elem (xs : list Qc) :
  ∀ x : Qc, foldl np.maximum x xs ∈ x :: xs.
Proof.
  induction xs as [|y xs IH]; intros x; simpl; [by left|].
  specialize (IH (np.maximum x y)). apply elem_of_cons in IH as [IH|IH].
  - rewrite IH. unfold np.maximum.
    case_bool_decide; [right; left | left].
  - by do 2 right.
Qed.

Lemma max_op_pixel (s : _CalculateHabitatNestingIndex.self)
    (first : list Qc) (rest : list (list Qc)) (c : Qc) (cs : list Qc) i
    (x : Qc) (xs : list Qc) :
  _CalculateHabitatNestingIndex.numbers
    (_CalculateHabitatNestingIndex.species_substrate_suitability_index_array s)
    = Some (c :: cs) →
  first !! i = Some x → column i rest = Some xs →
  ∃ result,
    _CalculateHabitatNestingIndex.max_op s (first :: rest) = Some result ∧
    result !! i =
      Some (if bool_decide (x = _INDEX_NODATA) then _INDEX_NODATA
            else foldl np.maximum (x * c) (zip_with Qcmult xs cs)).
Proof.
  intros Hs Hx Hxs. unfold _CalculateHabitatNestingIndex.max_op.
  rewrite Hs. simpl. eexists. split; [reflexivity|].
  rewrite put_scalar_lookup.
  rewrite (foldl_zip_with_lookup np.maximum _ _ i (x * c)
             (zip_with Qcmult xs cs)).
  - np_unfold. rewrite list_lookup_fmap, Hx. simpl. by case_bool_decide.
  - unfold np.mul_scalar. by rewrite list_lookup_fmap, Hx.
  - by apply column_scaled.
Qed.

Lemma SumRasters_step_length (n : nat) (result : list Qc) (mask : list bool)
    (array : list Qc) :
  length result = n → length mask = n → length array = n →
  length (_SumRasters.step (result, mask) array).1 = n ∧
  length (_SumRasters.step (result, mask) array).2 = n.
Proof. intros. simpl. np_unfold. split; np_lengths. Qed.

Lemma SumRasters_step_pixel (result : list Qc) (mask : list bool)
    (array : list Qc) i (r x : Qc) (k : bool) :
  length result = length array →
  result !! i = Some r → mask !! i = Some k → array !! i = Some x →
  (_SumRasters.step (result, mask) array).1 !! i =
    Some (if bool_decide (x ≠ _INDEX_NODATA) then r + x else r) ∧
  (_SumRasters.step (result, mask) array).2 !! i =
    Some (k || bool_decide (x ≠ _INDEX_NODATA)).
Proof.
  intros Hl Hr Hk Hx. simpl. unfold np.add. rewrite <- take_zip_with.
  np_unfold. split; np_pixel; reflexivity.
Qed.

Lemma SumRasters_fold_pixel (n : nat) (arrays : list (list Qc)) i :
  Forall (λ a : list Qc, length a = n) arrays →
  ∀ (result : list Qc) (mask : list bool) (r : Qc) (k : bool) (xs : list Qc),
    length result = n → length mask = n →
    result !! i = Some r → mask !! i = Some k → column i arrays = Some xs →
    (foldl _SumRasters.step (result, mask) arrays).1 !! i =
      Some (foldl (λ acc x, if bool_decide (x ≠ _INDEX_NODATA)
                            then acc + x else acc) r xs) ∧
    (foldl _SumRasters.step (result, mask) arrays).2 !! i =
      Some (foldl (λ acc x, acc || bool_decide (x ≠ _INDEX_NODATA)) k xs).
Proof.
  unfold column. induction 1 as [|a arrays Ha _ IH];
    intros result mask r k xs Hr Hm Hri Hmi Hc.
  { injection Hc as <-. by split. }
  simpl in Hc. destruct (a !! i) as [x|] eqn:Hx; [|done]. simpl in Hc.
  destruct (mapM _ arrays) as [xs'|] eqn:Hxs; [|done].
  injection Hc as <-. cbn [foldl].
  destruct (SumRasters_step_length n result mask a) as [? ?]; [done..|].
  destruct (SumRasters_step_pixel result mask a i r x k) as [? ?];
    [congruence|done..|].
  destruct (_SumRasters.step (result, mask) a) as [result' mask'] eqn:Hstep.
  by apply IH.
Qed.

Lemma foldl_valid_mask (xs : list Qc) :
  ∀ k : bool,
    foldl (λ acc x, acc || bool_decide (x ≠ _INDEX_NODATA)) k xs = false ↔
    k = false ∧ Forall (λ x, x = _INDEX_NODATA) xs.
Proof.
  induction xs as [|x xs IH]; intros k; simpl.
  { split; [intros ->; by split | by intros [-> _]]. }
  rewrite IH, orb_false_iff, Forall_cons, bool_decide_eq_false.
  split; [intros [[-> Hx] ?] | intros [-> [-> ?]]]; repeat split; try done.
  - by destruct (decide (x = _INDEX_NODATA)).
  - by intros [].
Qed.

Lemma foldl_valid_sum (xs : list Qc) :
  ∀ r : Qc,
    foldl (λ acc x, if bool_decide (x ≠ _INDEX_NODATA) then acc + x else acc)
      r xs = r + Qcsum (filter (λ x, x ≠ _INDEX_NODATA) xs).
Proof.
  unfold Qcsum. induction xs as [|x xs IH]; intros r; simpl.
  { by rewrite Qcplus_0_r. }
  rewrite IH. case_bool_decide.
  - rewrite filter_cons_True by done. simpl. by rewrite Qcplus_assoc.
  - rewrite filter_cons_False; [done|]. intros Hne. by apply Hne.
Qed.

Lemma Qcsum_nonneg (xs : list Qc) : Forall (λ x, 0 ≤ x) xs → 0 ≤ Qcsum xs.
Proof.
  unfold Qcsum. induction 1 as [|x xs Hx _ IH]; simpl; [done|].
  by apply Qcplus_nonneg_nonneg.
Qed.

Lemma SumRasters_pixel (n : nat) (arrays : list (list Qc)) i (xs : list Qc) :
  arrays ≠ [] → Forall (λ a : list Qc, length a = n) arrays →
  column i arrays = Some xs →
  ∃ result,
    _SumRasters.__call__ arrays = Some result ∧
    result !! i =
      Some (if bool_decide (Forall (λ x, x = _INDEX_NODATA) xs)
            then _INDEX_NODATA
            else Qcsum (filter (λ x, x ≠ _INDEX_NODATA) xs)).
Proof.
  intros Hne Hlen Hcol. unfold _SumRasters.__call__.
  destruct arrays as [|first rest]; [done|]. cbn [head mbind option_bind].
  assert (∃ x, first !! i = Some x) as [x Hx].
  { unfold column in Hcol. simpl in Hcol.
    destruct (first !! i); [by eexists | done]. }
  assert (length first = n) as Hfirst by by inversion Hlen.
  destruct (SumRasters_fold_pixel n (first :: rest) i Hlen
              (np.full_like first 0) (np.zeros_bool first) 0 false xs)
    as [Hres Hmask]; try done.
  { np_unfold; np_lengths. }
  { np_unfold; np_lengths. }
  { np_unfold. by rewrite list_lookup_fmap, Hx. }
  { np_unfold. by rewrite list_lookup_fmap, Hx. }
  destruct (foldl _ _ _) as [result mask]. simpl in Hres, Hmask.
  eexists. split; [reflexivity|].
  rewrite put_scalar_lookup, Hres. unfold np.not.
  rewrite list_lookup_fmap, Hmask. simpl. f_equal.
  rewrite foldl_valid_sum, Qcplus_0_l.
  destruct (foldl _ false xs) eqn:Hk; simpl.
  - rewrite bool_decide_eq_false_2; [done|].
    intros Hall. apply not_false_iff_true in Hk. apply Hk.
    apply foldl_valid_mask. by split.
  - apply foldl_valid_mask in Hk as [_ Hall].
    by rewrite bool_decide_eq_true_2.
Qed.

End pixels.

(** ** No-data propagation (C1) *)

Lemma length_foldl_zip_with (f : Qc → Qc → Qc) (rs : list (list Qc)) :
  ∀ r : list Qc,
    Forall (λ a : list Qc, length a = length r) rs →
    length (foldl (zip_with f) r rs) = length r.
Proof.
  induction rs as [|a rs IH]; intros r Hrs; simpl; [done|].
  inversion_clear Hrs as [|?? Ha Hrest].
  rewrite IH; rewrite length_zip_with, Ha, Nat.min_id; [done|].
  eapply Forall_impl; [done|]. simpl. congruence.
Qed.

Lemma Forall_length_scaled (stack : list (list Qc)) (scalars : list Qc)
    (n : nat) :
  Forall (λ a : list Qc, length a = n) stack →
  Forall (λ a : list Qc, length a = n) (zip_with np.mul_scalar stack scalars).
Proof.
  intros Hs. revert scalars.
  induction Hs as [|a stack Ha _ IH]; intros [|c cs]; simpl;
    constructor; [|apply IH].
  unfold np.mul_scalar. by rewrite length_fmap.
Qed.

Lemma lookup_same_length {A B} (a : list A) (b : list B) i (x : A) :
  length a = length b → a !! i = Some x → ∃ y, b !! i = Some y.
Proof.
  intros Hl Hx. apply lookup_lt_is_Some. rewrite <- Hl.
  by eapply lookup_lt_Some.
Qed.

(** C1, as stated, fails: a no-data pixel in the second input of the PYT
    kernel, in the second input of the pollinator supply index kernel, or in
    the floral resources or convolved supply input of the pollinator
    abundance kernel is used as the number -1 and the output pixel is not
    no-data. *)
Lemma no_data_propagation_counterexample :
  _PYTOp.__call__ [0.5%float] [_INDEX_NODATA_float64] = [(-0.5)%float] ∧
  ((-0.5) =? _INDEX_NODATA_float64)%float = false ∧
  _PollinatorSupplyIndexOp.__call__
    {| _PollinatorSupplyIndexOp.species_abundance := 1 |}
    [frac 1 2] [_INDEX_NODATA] = [frac (-1) 2] ∧
  _PollinatorSupplyOp.__call__ [frac 1 2] [_INDEX_NODATA] [1]
    = Some [frac (-1) 2] ∧
  _PollinatorSupplyOp.__call__ [frac 1 2] [1] [_INDEX_NODATA]
    = Some [frac (-1) 2] ∧
  frac (-1) 2 ≠ _INDEX_NODATA.
Proof. split; [reflexivity|]. split; [reflexivity|]. repeat split; compute_done. Qed.

(** C1, amended: every kernel other than the raster sum returns no-data at
    each pixel where its reference input holds no-data.  The reference input
    is the first argument (the managed pollinators for PYT and PYW, the first
    block for the pollinator supply index, the foraged flowers for the
    pollinator abundance, the first substrate layer for the habitat nesting
    index, the only block of the scalar product); the on-farm abundance
    kernel masks on both of its inputs. *)
Theorem no_data_propagation_reference_input :
  (∀ (mp_array FP_array : list PrimFloat.float) i,
     length mp_array = length FP_array →
     mp_array !! i = Some _INDEX_NODATA_float64 →
     _PYTOp.__call__ mp_array FP_array !! i = Some _INDEX_NODATA_float64) ∧
  (∀ (mp_array PYT_array : list PrimFloat.float) i,
     length mp_array = length PYT_array →
     mp_array !! i = Some _INDEX_NODATA_float64 →
     _PYWOp.__call__ mp_array PYT_array !! i = Some _INDEX_NODATA_float64) ∧
  (∀ s (first second : list Qc) i,
     length first = length second →
     first !! i = Some _INDEX_NODATA →
     _PollinatorSupplyIndexOp.__call__ s first second !! i
       = Some _INDEX_NODATA) ∧
  (∀ (foraged_flowers_array floral_resources_array convolve_ps_array
        : list Qc) i,
     length foraged_flowers_array = length floral_resources_array →
     length foraged_flowers_array = length convolve_ps_array →
     foraged_flowers_array !! i = Some _INDEX_NODATA →
     ∃ result,
       _PollinatorSupplyOp.__call__ foraged_flowers_array
         floral_resources_array convolve_ps_array = Some result ∧
       result !! i = Some _INDEX_NODATA) ∧
  (∀ s (array : list Qc) i,
     array !! i = Some _INDEX_NODATA →
     _MultByScalar.__call__ s array !! i = Some _INDEX_NODATA) ∧
  (∀ (h_array pat_array : list PrimFloat.float) i,
     length h_array = length pat_array →
     h_array !! i = Some _INDEX_NODATA_float64 ∨
     pat_array !! i = Some _INDEX_NODATA_float64 →
     _OnFarmPollinatorAbundance.__call__ h_array pat_array !! i
       = Some _INDEX_NODATA_float64) ∧
  (∀ s (first : list Qc) (rest : list (list Qc)) (result : list Qc) i,
     first !! i = Some _INDEX_NODATA →
     Forall (λ a : list Qc, length a = length first) rest →
     _CalculateHabitatNestingIndex.max_op s (first :: rest) = Some result →
     result !! i = Some _INDEX_NODATA).
Proof.
  repeat apply conj.
  - intros mp fp i Hl Hm.
    destruct (lookup_same_length mp fp i _ Hl Hm) as [f Hf].
    by rewrite (PYTOp_pixel mp fp i _ f Hl Hm Hf).
  - intros mp pyt i Hl Hm.
    destruct (lookup_same_length mp pyt i _ Hl Hm) as [f Hf].
    by rewrite (PYWOp_pixel mp pyt i _ f Hl Hm Hf).
  - intros s a b i Hl Ha.
    destruct (lookup_same_length a b i _ Hl Ha) as [y Hy].
    by rewrite (PollinatorSupplyIndexOp_pixel s a b i _ y Hl Ha Hy),
      bool_decide_eq_true_2.
  - intros fo fr ps i Hfr Hps Hfo.
    destruct (lookup_same_length fo fr i _ Hfr Hfo) as [r Hr].
    destruct (lookup_same_length fo ps i _ Hps Hfo) as [p Hp].
    destruct (PollinatorSupplyOp_pixel fo fr ps i _ r p Hfr Hps Hfo Hr Hp)
      as (result & Hcall & Hres).
    exists result. by rewrite bool_decide_eq_true_2 in Hres.
  - intros s a i Ha.
    by rewrite (MultByScalar_pixel s a i _ Ha), bool_decide_eq_true_2.
  - intros h pat i Hl [Hh|Hp].
    + destruct (lookup_same_length h pat i _ Hl Hh) as [y Hy].
      by rewrite (OnFarmPollinatorAbundance_pixel h pat i _ y Hl Hh Hy).
    + destruct (lookup_same_length pat h i _ (eq_sym Hl) Hp) as [x Hx].
      rewrite (OnFarmPollinatorAbundance_pixel h pat i x _ Hl Hx Hp).
      by rewrite orb_true_r.
  - intros s first rest result i Hf Hrest.
    unfold _CalculateHabitatNestingIndex.max_op.
    destruct (_CalculateHabitatNestingIndex.numbers _) as [scalars|];
      simpl; [|done].
    destruct (np.max_axis0 _) as [stacked|] eqn:Hmax; simpl; [|done].
    intros [= <-]. rewrite put_scalar_lookup.
    assert (length stacked = length first) as Hl.
    { unfold np.max_axis0 in Hmax.
      destruct scalars as [|c cs]; simplify_eq/=.
      rewrite length_foldl_zip_with.
      - unfold np.mul_scalar. by rewrite length_fmap.
      - apply Forall_length_scaled. unfold np.mul_scalar at 1.
        by rewrite length_fmap. }
    destruct (lookup_lt_is_Some_2 stacked i) as [m Hm].
    { rewrite Hl. by eapply lookup_lt_Some. }
    unfold np.eq. by rewrite Hm, list_lookup_fmap, Hf.
Qed.

Lemma no_data_propagation_reference_input_witness :
  _PYTOp.__call__ [_INDEX_NODATA_float64; 0.5%float] [0.5%float; 0.5%float]
    !! 0%nat = Some _INDEX_NODATA_float64.
Proof.
  apply (proj1 no_data_propagation_reference_input); reflexivity.
Defined.

(** ** Pollinator abundance (C2) *)

(** C2: on equal-shaped blocks the pollinator abundance kernel returns (its
    masked division meets no zero divisor), and at every pixel where the
    foraged flowers are not no-data the result is [foraged / FR * convolved
    PS] when FR is not zero and exactly 0 when FR is zero. *)
Theorem pollinator_abundance_zero_floral_resources
    (foraged_flowers_array floral_resources_array convolve_ps_array : list Qc) :
  length foraged_flowers_array = length floral_resources_array →
  length foraged_flowers_array = length convolve_ps_array →
  ∃ result,
    _PollinatorSupplyOp.__call__ foraged_flowers_array floral_resources_array
      convolve_ps_array = Some result ∧
    length result = length foraged_flowers_array ∧
    ∀ i (foraged fr ps : Qc),
      foraged_flowers_array !! i = Some foraged →
      floral_resources_array !! i = Some fr →
      convolve_ps_array !! i = Some ps →
      foraged ≠ _INDEX_NODATA →
      (fr ≠ 0 → result !! i = Some (foraged / fr * ps)) ∧
      (fr = 0 → result !! i = Some 0).
Proof.
  intros Hfr Hps. eexists. split; [by apply PollinatorSupplyOp_returns|].
  cbv zeta. split; [np_unfold; np_lengths|].
  intros i foraged fr ps Hf Hr Hp Hvalid.
  destruct (PollinatorSupplyOp_pixel _ _ _ i _ _ _ Hfr Hps Hf Hr Hp)
    as (result & Hcall & Hres).
  rewrite PollinatorSupplyOp_returns in Hcall by done.
  cbv zeta in Hcall. injection Hcall as <-.
  rewrite Hres, bool_decide_eq_false_2 by done.
  split; intros H0; [by rewrite bool_decide_eq_false_2
                    | by rewrite bool_decide_eq_true_2].
Qed.

Lemma pollinator_abundance_zero_floral_resources_witness :
  ∃ result,
    _PollinatorSupplyOp.__call__ [frac 1 2; frac 1 2] [frac 1 4; 0] [frac 3 1; frac 3 1]
      = Some result ∧
    length result = 2%nat ∧
    ∀ i (foraged fr ps : Qc),
      [frac 1 2; frac 1 2] !! i = Some foraged →
      [frac 1 4; 0] !! i = Some fr →
      [frac 3 1; frac 3 1] !! i = Some ps →
      foraged ≠ _INDEX_NODATA →
      (fr ≠ 0 → result !! i = Some (foraged / fr * ps)) ∧
      (fr = 0 → result !! i = Some 0).
Proof.
  apply (pollinator_abundance_zero_floral_resources
           [frac 1 2; frac 1 2] [frac 1 4; 0] [frac 3 1; frac 3 1]); reflexivity.
Defined.

(** ** Farm yield (C3) *)

(** C3, as stated, fails in its example of the wild yield: the kernels work
    in binary64, where 1.0 - 0.9 is 0.09999999999999998 and not the number
    that 0.1 denotes. *)
Lemma farm_yield_rounding_counterexample :
  _PYWOp.__call__ [0.9%float] [1%float] = [0.09999999999999998%float] ∧
  _PYWOp.__call__ [0.9%float] [1%float] ≠ [0.1%float].
Proof.
  split; [reflexivity|]. intros Hcall.
  apply (f_equal (λ block, (λ PYW, PYW =? 0.1)%float <$> block)) in Hcall.
  vm_compute in Hcall. discriminate.
Qed.

(** C3, amended: where the managed pollinators are not no-data, the total
    yield kernel returns 1 where the binary64 sum [mp + FP] exceeds 1 and
    that sum elsewhere, and the wild yield kernel returns 0 where the
    binary64 difference [PYT - mp] is below 0 and that difference elsewhere;
    for mp = 0.9 and FP = 0.3 the total yield is exactly 1, and for PYT = 1
    and mp = 0.9 the wild yield is within 1e-15 of 0.1. *)
Theorem farm_yield_clamp :
  (∀ (mp_array FP_array : list PrimFloat.float) i (mp FP : PrimFloat.float),
     length mp_array = length FP_array →
     mp_array !! i = Some mp → FP_array !! i = Some FP →
     (mp =? _INDEX_NODATA_float64)%float = false →
     _PYTOp.__call__ mp_array FP_array !! i =
       Some (if 1 <? mp + FP then 1 else mp + FP)%float) ∧
  (∀ (mp_array PYT_array : list PrimFloat.float) i
     (mp PYT : PrimFloat.float),
     length mp_array = length PYT_array →
     mp_array !! i = Some mp → PYT_array !! i = Some PYT →
     (mp =? _INDEX_NODATA_float64)%float = false →
     _PYWOp.__call__ mp_array PYT_array !! i =
       Some (if PYT - mp <? 0 then 0 else PYT - mp)%float) ∧
  _PYTOp.__call__ [0.9%float] [0.3%float] = [1%float] ∧
  ∃ PYW : PrimFloat.float,
    _PYWOp.__call__ [0.9%float] [1%float] = [PYW] ∧
    (PrimFloat.abs (PYW - 0.1) <? 1e-15)%float = true.
Proof.
  repeat apply conj.
  - intros mp_array FP_array i mp FP Hl Hm Hf Hvalid.
    by rewrite (PYTOp_pixel mp_array FP_array i mp FP Hl Hm Hf), Hvalid.
  - intros mp_array PYT_array i mp PYT Hl Hm Hf Hvalid.
    by rewrite (PYWOp_pixel mp_array PYT_array i mp PYT Hl Hm Hf), Hvalid.
  - reflexivity.
  - eexists. split; reflexivity.
Qed.

Lemma farm_yield_clamp_witness :
  _PYTOp.__call__ [0.9%float; 0.25%float] [0.3%float; 0.5%float] !! 1%nat
    = Some (if 1 <? 0.25 + 0.5 then 1 else 0.25 + 0.5)%float.
Proof.
  apply (proj1 farm_yield_clamp [0.9%float; 0.25%float]
           [0.3%float; 0.5%float] 1%nat 0.25%float 0.5%float);
    reflexivity.
Defined.

(** ** Habitat nesting index (C4) *)

Lemma res_mapM_length {A B} (f : A → res B) (l : list A) :
  ∀ l' : list B, mapM f l = Ok l' → length l' = length l.
Proof.
  induction l as [|x l IH]; intros l'; simpl.
  { by intros [= <-]. }
  destruct (f x) as [y|e]; simpl; [|done].
  destruct (mapM f l) as [k|e]; simpl; [|done].
  intros [= <-]. simpl. f_equal. by apply IH.
Qed.

Lemma sorted_length (l : list string) : length (sorted l) = length l.
Proof. unfold sorted. by rewrite merge_sort_Permutation. Qed.

Lemma keys_nonempty {V} (d : gmap string V) : d ≠ ∅ → keys d ≠ [].
Proof.
  unfold keys. intros Hd Hk. apply Hd. apply map_to_list_empty_iff.
  by apply fmap_nil_inv in Hk.
Qed.

(** the constructor lists one path and one cell per substrate *)
Lemma CalculateHabitatNestingIndex_init_lengths
    (substrate_path_map : gmap string string)
    (species_substrate_index_map : gmap string cell) (target : string)
    (s : _CalculateHabitatNestingIndex.self) :
  _CalculateHabitatNestingIndex.__init__ substrate_path_map
    species_substrate_index_map target = Ok s →
  length (_CalculateHabitatNestingIndex.substrate_path_list s)
    = length (keys substrate_path_map) ∧
  length (_CalculateHabitatNestingIndex.species_substrate_suitability_index_array s)
    = length (keys substrate_path_map).
Proof.
  unfold _CalculateHabitatNestingIndex.__init__.
  destruct (mapM (getitem substrate_path_map) _) as [paths|e] eqn:Hp;
    simpl; [|done].
  destruct (mapM (getitem species_substrate_index_map) _) as [cells|e] eqn:Hs;
    simpl; [|done].
  case_bool_decide; [|done]. intros [= <-]. simpl.
  apply res_mapM_length in Hp, Hs. by rewrite Hp, Hs, sorted_length.
Qed.

(** C4: the habitat nesting index of a species whose suitability cells are
    numbers is, pixel by pixel, the largest of the products of a substrate
    layer with the species' scalar for that substrate, except that a no-data
    pixel of the first substrate layer (in sorted order of the substrate
    names) stays no-data; for two substrates with values 0.2 and 0.8 and
    scalars 0.5 and 1.0 it is 0.8. *)
Theorem habitat_nesting_index_formula :
  (∀ (substrate_path_map : gmap string string)
     (species_substrate_index_map : gmap string cell) (target : string)
     (s : _CalculateHabitatNestingIndex.self) (band : string → list Qc) i
     (N scalars : list Qc),
     _CalculateHabitatNestingIndex.__init__ substrate_path_map
       species_substrate_index_map target = Ok s →
     _CalculateHabitatNestingIndex.numbers
       (_CalculateHabitatNestingIndex.species_substrate_suitability_index_array s)
       = Some scalars →
     substrate_path_map ≠ ∅ →
     column i (band <$> _CalculateHabitatNestingIndex.substrate_path_list s)
       = Some N →
     ∃ (result : list Qc) (reference HN : Qc),
       _CalculateHabitatNestingIndex.__call__ s band = Some result ∧
       head N = Some reference ∧
       let products := zip_with Qcmult N scalars in
       HN ∈ products ∧ Forall (λ p, p ≤ HN) products ∧
       result !! i =
         Some (if bool_decide (reference = _INDEX_NODATA) then _INDEX_NODATA
               else HN)) ∧
  (∃ s,
     _CalculateHabitatNestingIndex.__init__
       {[ "cavity" := "cavity.tif"; "ground" := "ground.tif" ]}
       {[ "cavity" := CNum (frac 1 2); "ground" := CNum 1 ]}
       "habitat_nesting_index.tif" = Ok s ∧
     _CalculateHabitatNestingIndex.__call__ s
       (λ path, if bool_decide (path = "cavity.tif") then [frac 1 5]
                else [frac 4 5]) = Some [frac 4 5]).
Proof.
  split.
  - intros pm im target s band i N scalars Hinit Hnumbers Hne Hcol.
    destruct (CalculateHabitatNestingIndex_init_lengths _ _ _ _ Hinit)
      as [Hpaths Hscalars].
    pose proof (keys_nonempty pm Hne) as Hkeys.
    unfold _CalculateHabitatNestingIndex.__call__.
    destruct (_CalculateHabitatNestingIndex.substrate_path_list s)
      as [|p ps] eqn:Hps.
    { by destruct (keys pm). }
    assert (length scalars = length (keys pm)) as Hlen.
    { rewrite <- Hscalars. symmetry.
      by apply (length_mapM _ _ _ Hnumbers). }
    destruct scalars as [|c cs].
    { by destruct (keys pm). }
    unfold column in Hcol. simpl in Hcol.
    destruct (band p !! i) as [x|] eqn:Hx; [|done]. simpl in Hcol.
    change (list_fmap string (list Qc) band ps) with (band <$> ps) in Hcol.
    destruct (column i (band <$> ps)) as [xs|] eqn:Hxs;
      unfold column in Hxs; rewrite Hxs in Hcol; [|done].
    injection Hcol as <-.
    destruct (max_op_pixel s (band p) (band <$> ps) c cs i x xs Hnumbers Hx
                Hxs)
      as (result & Hcall & Hres).
    exists result, x, (foldl np.maximum (x * c) (zip_with Qcmult xs cs)).
    simpl. repeat split; try done.
    + apply foldl_maximum_elem.
    + constructor; apply foldl_maximum_upper.
  - eexists. split; [reflexivity|]. compute_done.
Qed.

Lemma habitat_nesting_index_formula_witness :
  ∃ (result : list Qc) (reference HN : Qc),
    _CalculateHabitatNestingIndex.__call__
      {| _CalculateHabitatNestingIndex.substrate_path_list := ["cavity.tif"];
         _CalculateHabitatNestingIndex.species_substrate_suitability_index_array
           := [CNum (frac 1 2)];
         _CalculateHabitatNestingIndex.target_habitat_nesting_index_path
           := "hn.tif" |}
      (λ _, [frac 1 5]) = Some result ∧
    head [frac 1 5] = Some reference ∧
    let products := zip_with Qcmult [frac 1 5] [frac 1 2] in
    HN ∈ products ∧ Forall (λ p, p ≤ HN) products ∧
    result !! 0%nat =
      Some (if bool_decide (reference = _INDEX_NODATA) then _INDEX_NODATA
            else HN).
Proof.
  apply (proj1 habitat_nesting_index_formula {[ "cavity" := "cavity.tif" ]}
           {[ "cavity" := CNum (frac 1 2) ]} "hn.tif"
           {| _CalculateHabitatNestingIndex.substrate_path_list :=
                ["cavity.tif"];
              _CalculateHabitatNestingIndex.species_substrate_suitability_index_array
                := [CNum (frac 1 2)];
              _CalculateHabitatNestingIndex.target_habitat_nesting_index_path
                := "hn.tif" |}
           (λ _, [frac 1 5]) 0%nat [frac 1 5] [frac 1 2]).
  - vm_compute. reflexivity.
  - reflexivity.
  - apply (insert_non_empty (M:=gmap string)).
  - reflexivity.
Defined.

(** ** Raster sum (C5) *)

(** C5, as stated, fails in its "only if": two blocks that hold -0.5 at a
    pixel are both valid there, and their sum is the no-data value -1. *)
Lemma raster_sum_no_data_counterexample :
  _SumRasters.__call__ [[frac (-1) 2]; [frac (-1) 2]] = Some [_INDEX_NODATA] ∧
  ¬ Forall (λ a : list Qc, a !! 0%nat = Some _INDEX_NODATA)
      [[frac (-1) 2]; [frac (-1) 2]].
Proof.
  split; [compute_done|]. intros H. by inversion_clear H.
Qed.

(** C5, amended: on a non-empty list of equal-shaped blocks the raster sum
    returns, at a pixel where every input is no-data, the no-data value, and
    at every other pixel the sum of the inputs that are not no-data; when
    the valid inputs at a pixel are not negative, the output there is
    no-data if and only if every input is. *)
Theorem raster_sum_ignores_no_data (n : nat) (array_list : list (list Qc)) i
    (pixels : list Qc) :
  array_list ≠ [] →
  Forall (λ a : list Qc, length a = n) array_list →
  column i array_list = Some pixels →
  ∃ result,
    _SumRasters.__call__ array_list = Some result ∧
    (Forall (λ x, x = _INDEX_NODATA) pixels →
     result !! i = Some _INDEX_NODATA) ∧
    (¬ Forall (λ x, x = _INDEX_NODATA) pixels →
     result !! i = Some (Qcsum (filter (λ x, x ≠ _INDEX_NODATA) pixels))) ∧
    (Forall (λ x, x = _INDEX_NODATA ∨ 0 ≤ x) pixels →
     result !! i = Some _INDEX_NODATA ↔
     Forall (λ x, x = _INDEX_NODATA) pixels).
Proof.
  intros Hne Hlen Hcol.
  destruct (SumRasters_pixel n array_list i pixels Hne Hlen Hcol)
    as (result & Hcall & Hres).
  exists result. split; [done|]. rewrite Hres.
  split; [|split].
  - intros Hall. by rewrite bool_decide_eq_true_2.
  - intros Hall. by rewrite bool_decide_eq_false_2.
  - intros Hpos. case_bool_decide as Hall; [done|].
    split; [|done]. intros [= Hsum]. exfalso.
    assert (0 ≤ Qcsum (filter (λ x, x ≠ _INDEX_NODATA) pixels)) as Hge.
    { apply Qcsum_nonneg, Forall_forall. intros x [Hx Hin]%list_elem_of_filter.
      rewrite Forall_forall in Hpos. by destruct (Hpos x Hin). }
    rewrite Hsum in Hge. by apply Qcle_not_lt in Hge.
Qed.

Lemma raster_sum_ignores_no_data_witness :
  ∃ result,
    _SumRasters.__call__ [[frac 1 2; _INDEX_NODATA]; [_INDEX_NODATA; _INDEX_NODATA]]
      = Some result ∧
    (Forall (λ x, x = _INDEX_NODATA) [frac 1 2; _INDEX_NODATA] →
     result !! 0%nat = Some _INDEX_NODATA) ∧
    (¬ Forall (λ x, x = _INDEX_NODATA) [frac 1 2; _INDEX_NODATA] →
     result !! 0%nat
       = Some (Qcsum (filter (λ x, x ≠ _INDEX_NODATA)
                        [frac 1 2; _INDEX_NODATA]))) ∧
    (Forall (λ x, x = _INDEX_NODATA ∨ 0 ≤ x) [frac 1 2; _INDEX_NODATA] →
     result !! 0%nat = Some _INDEX_NODATA ↔
     Forall (λ x, x = _INDEX_NODATA) [frac 1 2; _INDEX_NODATA]).
Proof.
  apply (raster_sum_ignores_no_data 2
           [[frac 1 2; _INDEX_NODATA]; [_INDEX_NODATA; _INDEX_NODATA]] 0).
  - discriminate.
  - repeat constructor.
  - reflexivity.
Defined.

(** ** The kernel raster of a species *)


Lemma species_kernel_Ok (sv : scenario_variables)
    (landcover_raster_info : raster_info)
    (intermediate_output_dir file_suffix species : string) (alpha : Qc)
    (path : string) :
  species_kernel sv landcover_raster_info intermediate_output_dir file_suffix
    species = Ok (alpha, path) →
  ∃ alpha_s,
    alpha_value sv !! species = Some alpha_s ∧
    mean_pixel_size landcover_raster_info ≠ 0 ∧
    alpha = alpha_s / mean_pixel_size landcover_raster_info.
Proof.
  unfold species_kernel, lookup_or_raise.
  destruct (alpha_value sv !! species) as [alpha_s|]; simpl; [|done].
  case_bool_decide as Hpx; simpl; [done|]. intros [= <- _]. eauto.
Qed.

(** ** Argument validation (C10) *)

(** the first loop of [validate] without a [limit_to]: the keys absent from
    [args] and the keys with an empty value, each in the order of the list *)
Lemma validate_first_loop (args : gmap string pyval) (keys : list string) :
  ∀ missing_key_list no_value_list : list string,
    foldl (λ '(missing_key_list, no_value_list) key,
      if limited None key then
        match args !! key with
        | None => ((missing_key_list ++ [key])%list, no_value_list)
        | Some v =>
            if bool_decide (v = PyStr "" ∨ v = PyNone)
            then (missing_key_list, (no_value_list ++ [key])%list)
            else (missing_key_list, no_value_list)
        end
      else (missing_key_list, no_value_list))
    (missing_key_list, no_value_list) keys =
    ((missing_key_list ++ filter (λ key, args !! key = None) keys)%list,
     (no_value_list
      ++ filter (λ key, args !! key = Some (PyStr "")
                        ∨ args !! key = Some PyNone) keys)%list).
Proof.
  induction keys as [|key keys IH]; intros missing no_value.
  { simpl. rewrite ?filter_nil, ?app_nil_r. reflexivity. }
  cbn [foldl]. change (limited None key) with true. cbv iota.
  destruct (args !! key) as [v|] eqn:Hkey.
  - rewrite (filter_cons_False (λ key, args !! key = None))
      by (simpl; congruence).
    case_bool_decide as Hv.
    + rewrite IH, filter_cons_True
        by (simpl; destruct Hv; subst; [by left|by right]).
      by rewrite <- app_assoc.
    + rewrite IH, filter_cons_False; [reflexivity|].
      simpl. intros [?|?]; apply Hv; [left|right]; congruence.
  - rewrite IH, filter_cons_True by done.
    rewrite filter_cons_False; [by rewrite <- app_assoc|].
    simpl. intros [?|?]; congruence.
Qed.

(** without a [limit_to], an [args] that lacks a required key makes
    [validate] raise the [KeyError] whose message lists the missing keys *)
Lemma validate_missing_keys (d : disk) (args : gmap string pyval)
    (key : string) :
  key ∈ required_keys → args !! key = None →
  validate d args None =
    Raise (KeyError
      ("The following keys were expected in `args` but were missing"
       ++ join_comma (filter (λ key, args !! key = None) required_keys))).
Proof.
  intros Hin Hkey. unfold validate.
  change ["workspace_dir"; "landcover_raster_path"; "guild_table_path";
          "landcover_biophysical_table_path"; "farm_vector_path"]
    with required_keys.
  rewrite validate_first_loop. cbn [app].
  rewrite bool_decide_eq_true_2; [done|].
  assert (key ∈ filter (λ key, args !! key = None) required_keys) as Hf.
  { by apply list_elem_of_filter. }
  destruct (filter _ required_keys); [by apply elem_of_nil in Hf|].
  simpl. lia.
Qed.

(** C10 at its failing input: all five keys are present and the farm vector
    path is [None].  The key is recorded in [no_value_list], and the loop
    that follows hands the value to [os.path.exists], which raises a
    [TypeError]: [validate] raises although no key is missing. *)
Theorem validate_none_value_raises (d : disk) :
  Forall (λ key, is_Some (args_with_none_value !! key)) required_keys ∧
  validate d args_with_none_value None = Raise TypeError.
Proof.
  split; [by repeat constructor|].
  destruct d as [exists_ is_raster is_vector]. vm_compute.
  by destruct (exists_ "landcover.tif"), (exists_ "guild_table.csv"),
    (exists_ "biophysical_table.csv").
Qed.

(** ** The order of [sorted] *)

Lemma ascii_compare_refl (c : ascii) : Ascii.compare c c = Eq.
Proof. unfold Ascii.compare. apply N.compare_refl. Qed.

Lemma ascii_compare_lt_trans (x y z : ascii) :
  Ascii.compare x y = Lt → Ascii.compare y z = Lt → Ascii.compare x z = Lt.
Proof.
  unfold Ascii.compare. rewrite !N.compare_lt_iff. apply N.lt_trans.
Qed.

Lemma string_leb_trans (a : string) :
  ∀ b c : string,
    String.leb a b = true → String.leb b c = true → String.leb a c = true.
Proof.
  unfold String.leb.
  induction a as [|x a IH]; intros [|y b] [|z c]; simpl; try done.
  destruct (Ascii.compare x y) eqn:Hxy; [|clear IH|done];
    destruct (Ascii.compare y z) eqn:Hyz; try done.
  - apply Ascii.compare_eq_iff in Hxy, Hyz. subst.
    rewrite ascii_compare_refl. apply IH.
  - apply Ascii.compare_eq_iff in Hxy. subst. by rewrite Hyz.
  - apply Ascii.compare_eq_iff in Hyz. subst. by rewrite Hxy.
  - by rewrite (ascii_compare_lt_trans x y z).
Qed.

#[global] Instance str_le_trans : Transitive str_le.
Proof. intros a b c. apply string_leb_trans. Qed.

#[global] Instance str_le_total : Total str_le.
Proof. intros a b. apply String.leb_total. Qed.

#[global] Instance str_le_antisym : AntiSymm (=) str_le.
Proof. intros a b. apply String.leb_antisym. Qed.

Lemma sorted_StronglySorted (l : list string) :
  StronglySorted str_le (sorted l).
Proof. apply StronglySorted_merge_sort; apply _. Qed.

(** [sorted] does not depend on the order in which the names come *)
Lemma sorted_Permutation (l1 l2 : list string) :
  l1 ≡ₚ l2 → sorted l1 = sorted l2.
Proof.
  intros Hp. apply (StronglySorted_unique str_le);
    [apply sorted_StronglySorted..|].
  unfold sorted. by rewrite !merge_sort_Permutation.
Qed.

Lemma elem_of_keys {K} `{Countable K} {V} (d : gmap K V) (k : K) :
  k ∈ keys d ↔ is_Some (d !! k).
Proof.
  unfold keys. rewrite list_elem_of_fmap. split.
  - intros [[k' v] [-> Hin%elem_of_map_to_list]]. by eexists.
  - intros [v Hv]. exists (k, v). split; [done|].
    by apply elem_of_map_to_list.
Qed.

Lemma NoDup_keys {K} `{Countable K} {V} (d : gmap K V) : NoDup (keys d).
Proof. apply NoDup_fst_map_to_list. Qed.

Lemma keys_elements_dom {V} (d : gmap string V) :
  keys d ≡ₚ elements (dom d).
Proof.
  apply NoDup_Permutation; [apply NoDup_keys | apply NoDup_elements|].
  intros k. by rewrite elem_of_keys, elem_of_elements, elem_of_dom.
Qed.

(** the keys of dictionaries with the same key set, in whatever order the
    dictionaries iterate, are sorted to the same list *)
Lemma sorted_keys_dom {V W} (d1 : gmap string V) (d2 : gmap string W) :
  dom d1 = dom d2 → sorted (keys d1) = sorted (keys d2).
Proof.
  intros Hdom. apply sorted_Permutation.
  by rewrite !keys_elements_dom, Hdom.
Qed.

(** ** Scanning the headers *)

Section scanning.

Implicit Types (d : gmap string (gmap string string)).

Lemma defines_setitem2 d (n tb g name table : string) :
  defines (setitem2 d n tb g) name table ↔
  (name = n ∧ table = tb) ∨ defines d name table.
Proof.
  unfold defines, setitem2. destruct (decide (name = n)) as [->|Hne].
  - rewrite lookup_insert_eq. split.
    + intros (tables & [= <-] & Htb).
      destruct (decide (table = tb)) as [->|Hne]; [by left|right].
      rewrite lookup_insert_ne in Htb by done.
      destruct (d !! n) as [tables|]; simpl in *; [by eexists|].
      by rewrite lookup_empty in Htb; destruct Htb.
    + intros [[_ ->]|(tables & Hd & Htb)]; eexists; split; try done.
      * by rewrite lookup_insert_eq.
      * rewrite Hd. simpl. destruct (decide (table = tb)) as [->|Hne].
        -- by rewrite lookup_insert_eq.
        -- by rewrite lookup_insert_ne.
  - rewrite lookup_insert_ne by done. naive_solver.
Qed.

Lemma defines_collect d (tb : string) (p : regex) (h name table : string) :
  defines (collect tb p d h) name table ↔
  (table = tb ∧ name ∈ names_in p [h]) ∨ defines d name table.
Proof.
  unfold collect, names_in. simpl.
  destruct (re_match p h) as [[g0 n]|]; simpl.
  - rewrite defines_setitem2, list_elem_of_singleton. naive_solver.
  - rewrite elem_of_nil. naive_solver.
Qed.

Lemma names_in_cons (p : regex) (h : string) (hs : list string) name :
  name ∈ names_in p (h :: hs) ↔ name ∈ names_in p [h] ∨ name ∈ names_in p hs.
Proof.
  unfold names_in. simpl. destruct (re_match p h) as [[g0 n]|]; simpl.
  - rewrite elem_of_cons, list_elem_of_singleton. naive_solver.
  - rewrite elem_of_nil. naive_solver.
Qed.

Lemma defines_foldl_collect (tb : string) (p : regex) (hs : list string) :
  ∀ d name table,
    defines (foldl (collect tb p) d hs) name table ↔
    (table = tb ∧ name ∈ names_in p hs) ∨ defines d name table.
Proof.
  induction hs as [|h hs IH]; intros d name table; cbn [foldl].
  { unfold names_in. simpl. rewrite elem_of_nil. naive_solver. }
  rewrite IH, defines_collect, (names_in_cons p h hs). naive_solver.
Qed.

Lemma scan_headers_split (tb : string) (sp bp : regex) (hs : list string) :
  ∀ S B : gmap string (gmap string string),
    scan_headers tb sp bp hs (S, B) =
      (foldl (collect tb sp) S hs, foldl (collect tb bp) B hs).
Proof.
  unfold scan_headers. induction hs as [|h hs IH]; intros S B; simpl; [done|].
  apply IH.
Qed.

Lemma populated_foldl_collect (tb : string) (p : regex) (hs : list string) :
  ∀ d, populated d → populated (foldl (collect tb p) d hs).
Proof.
  induction hs as [|h hs IH]; intros d Hd; simpl; [done|].
  apply IH. unfold collect. destruct (re_match p h) as [[g0 n]|]; [|done].
  intros name tables. unfold setitem2.
  destruct (decide (name = n)) as [->|Hne].
  - rewrite lookup_insert_eq. intros [= <-]. apply insert_non_empty.
  - rewrite lookup_insert_ne by done. apply Hd.
Qed.

Lemma populated_defines d (name : string) (tables : gmap string string) :
  populated d → d !! name = Some tables → ∃ table, defines d name table.
Proof.
  intros Hd Hname. destruct (map_choose tables) as (table & g & Htb).
  { by eapply Hd. }
  exists table, tables. by rewrite Htb.
Qed.

End scanning.

(** ** What [read_tables] returns *)

Lemma getitem_Ok {V} (d : gmap string V) (key : string) (v : V) :
  getitem d key = Ok v → d !! key = Some v.
Proof. unfold getitem. by destruct (d !! key); intros [= ->]. Qed.

Lemma first_row_keys_Ok {K} `{Countable K} (table : gmap K (gmap string cell))
    (headers : list string) :
  first_row_keys table = Ok headers → headers_of table = headers.
Proof. unfold headers_of. by intros ->. Qed.

Lemma read_tables_Ok (ext : collaborators) (args : gmap string pyval)
    (t : tables) :
  read_tables ext args = Ok t →
  guild_table t =
    build_lookup_from_csv_species ext
      (default PyNone (args !! "guild_table_path")) ∧
  farm t = ogr_Open ext <$> farm_vector_path_of args ∧
  season_to_header t =
    foldl (collect "biophysical" _FLORAL_RESOURCES_AVAILABLE_PATTERN)
      (foldl (collect "farm" _FARM_FLORAL_RESOURCES_PATTERN)
         (foldl (collect "guild" _FORAGING_ACTIVITY_RE_PATTERN) ∅
            (guild_headers_of ext args))
         (farm_headers_of ext args))
      (biophysical_headers_of ext args) ∧
  substrate_to_header t =
    foldl (collect "biophysical" _NESTING_SUBSTRATE_PATTERN)
      (foldl (collect "farm" _FARM_NESTING_SUBSTRATE_RE_PATTERN)
         (foldl (collect "guild" _NESTING_SUITABILITY_PATTERN) ∅
            (guild_headers_of ext args))
         (farm_headers_of ext args))
      (biophysical_headers_of ext args).
Proof.
  unfold read_tables, guild_headers_of, biophysical_headers_of,
    farm_headers_of.
  destruct (getitem args "guild_table_path") as [gp|] eqn:Hgp; [|done].
  destruct (getitem args "landcover_biophysical_table_path") as [bp|] eqn:Hbp;
    [|done].
  apply getitem_Ok in Hgp, Hbp. rewrite Hgp, Hbp. simpl (default _ _).
  cbn [mbind res_bind].
  destruct (first_row_keys (build_lookup_from_csv_species ext gp))
    as [gh|] eqn:Hgh; [|done].
  apply first_row_keys_Ok in Hgh. rewrite Hgh. cbn [mbind res_bind].
  destruct (check_expected_headers _EXPECTED_GUILD_HEADERS _ _); [|done].
  cbn [mbind res_bind].
  destruct (first_row_keys (build_lookup_from_csv_lucode ext bp))
    as [bh|] eqn:Hbh; [|done].
  apply first_row_keys_Ok in Hbh. rewrite Hbh. cbn [mbind res_bind].
  destruct (check_expected_headers _EXPECTED_BIOPHYSICAL_HEADERS _ _); [|done].
  cbn [mbind res_bind]. rewrite !scan_headers_split.
  destruct (farm_vector_path_of args) as [path|]; cbn [mbind res_bind fmap option_fmap option_map].
  - destruct (farm_geom_type (ogr_Open ext path)); [..|done];
      (destruct (check_expected_headers _EXPECTED_FARM_HEADERS _ _); [|done]);
      cbn [mbind res_bind]; rewrite !scan_headers_split;
      by intros [= <-].
  - rewrite scan_headers_split. by intros [= <-].
Qed.

Lemma defines_empty (name table : string) : ¬ defines ∅ name table.
Proof. intros (tables & Hd & _). by rewrite lookup_empty in Hd. Qed.

Lemma names_in_nil (p : regex) (name : string) : name ∉ names_in p [].
Proof. unfold names_in. simpl. apply not_elem_of_nil. Qed.

Lemma farm_headers_of_None (ext : collaborators) (args : gmap string pyval) :
  farm_vector_path_of args = None → farm_headers_of ext args = [].
Proof. unfold farm_headers_of. by intros ->. Qed.

(** the season dictionary lists a table for a name exactly when the table is
    a required one and defines the name *)
Lemma read_tables_defines_season (ext : collaborators)
    (args : gmap string pyval) (t : tables) (name table : string) :
  read_tables ext args = Ok t →
  defines (season_to_header t) name table ↔
  table ∈ required_tables args ∧ name ∈ seasons_of ext args table.
Proof.
  intros (_ & _ & -> & _)%read_tables_Ok.
  rewrite !defines_foldl_collect. unfold required_tables, seasons_of.
  pose proof (defines_empty name table).
  pose proof (names_in_nil _FARM_FLORAL_RESOURCES_PATTERN name).
  destruct (farm_vector_path_of args) eqn:Hfarm;
    rewrite ?(farm_headers_of_None ext args Hfarm);
    rewrite ?elem_of_cons, ?elem_of_nil;
    repeat case_bool_decide; naive_solver.
Qed.

Lemma read_tables_defines_substrate (ext : collaborators)
    (args : gmap string pyval) (t : tables) (name table : string) :
  read_tables ext args = Ok t →
  defines (substrate_to_header t) name table ↔
  table ∈ required_tables args ∧ name ∈ substrates_of ext args table.
Proof.
  intros (_ & _ & _ & ->)%read_tables_Ok.
  rewrite !defines_foldl_collect. unfold required_tables, substrates_of.
  pose proof (defines_empty name table).
  pose proof (names_in_nil _FARM_NESTING_SUBSTRATE_RE_PATTERN name).
  destruct (farm_vector_path_of args) eqn:Hfarm;
    rewrite ?(farm_headers_of_None ext args Hfarm);
    rewrite ?elem_of_cons, ?elem_of_nil;
    repeat case_bool_decide; naive_solver.
Qed.

Lemma read_tables_populated (ext : collaborators) (args : gmap string pyval)
    (t : tables) :
  read_tables ext args = Ok t →
  populated (season_to_header t) ∧ populated (substrate_to_header t).
Proof.
  intros (_ & _ & -> & ->)%read_tables_Ok.
  split; repeat apply populated_foldl_collect;
    intros name tables; by rewrite lookup_empty.
Qed.

Lemma elem_of_concat_fmap (f : string → list string) (l : list string)
    (x : string) :
  x ∈ concat (f <$> l) ↔ ∃ y, y ∈ l ∧ x ∈ f y.
Proof.
  induction l as [|z l IH]; simpl.
  - rewrite elem_of_nil. split; [done|]. by intros (y & []%elem_of_nil & _).
  - rewrite elem_of_app, IH. split.
    + intros [Hx|(y & Hy & Hx)]; [exists z | exists y];
        (split; [|done]); [by left | by right].
    + intros (y & [->|Hy]%elem_of_cons & Hx); [by left | right; eauto].
Qed.

(** the keys of the two dictionaries are the names of the input tables *)
Lemma read_tables_dom (ext : collaborators) (args : gmap string pyval)
    (t : tables) :
  read_tables ext args = Ok t →
  dom (season_to_header t) = season_names ext args ∧
  dom (substrate_to_header t) = substrate_names ext args.
Proof.
  intros Ht. destruct (read_tables_populated ext args t Ht) as [Hs Hb].
  unfold season_names, substrate_names.
  split; apply set_eq; intros name;
    rewrite elem_of_dom, elem_of_list_to_set, elem_of_concat_fmap.
  - split.
    + intros [tables Hname].
      destruct (populated_defines _ _ _ Hs Hname) as [table Hd].
      exists table. by apply (read_tables_defines_season ext args t).
    + intros (table & Hd). apply (read_tables_defines_season ext args t) in Hd
        as (tables & -> & _); [by eexists|done].
  - split.
    + intros [tables Hname].
      destruct (populated_defines _ _ _ Hb Hname) as [table Hd].
      exists table. by apply (read_tables_defines_substrate ext args t).
    + intros (table & Hd).
      apply (read_tables_defines_substrate ext args t) in Hd
        as (tables & -> & _); [by eexists|done].
Qed.

(** ** The sorted lists (C9) *)

(** peels one [x ← m; ...] off a computation known to return *)
Ltac res_step :=
  match goal with
  | |- (?m ≫= _) = Ok _ → _ =>
      let H := fresh "Hstep" in
      destruct m eqn:H; cbn [mbind res_bind]; [|discriminate]
  end.

Lemma scenario_of_lists (t : tables) (sv : scenario_variables) :
  scenario_of t = Ok sv →
  season_list sv = sorted (keys (season_to_header t)) ∧
  substrate_list sv = sorted (keys (substrate_to_header t)) ∧
  species_list sv = sorted (keys (guild_table t)).
Proof.
  unfold scenario_of. cbv zeta. do 7 res_step. by intros [= <-].
Qed.

Lemma parse_scenario_variables_Ok (ext : collaborators)
    (args : gmap string pyval) (sv : scenario_variables) :
  _parse_scenario_variables ext args = Ok sv →
  ∃ t, read_tables ext args = Ok t ∧ cross_check t = Ok () ∧
       scenario_of t = Ok sv.
Proof.
  unfold _parse_scenario_variables. do 2 res_step.
  intros Hsv. eexists. repeat split; try done.
  by destruct a0.
Qed.

(** C9: the species, season and substrate lists of a successful parse are
    sorted, and two successful parses whose input tables contain the same
    species names, the same season names and the same substrate names return
    the same three lists, whatever the tables otherwise hold and in whatever
    order their dictionaries iterate. *)
Theorem sorted_lists_are_deterministic :
  (∀ ext args sv,
     _parse_scenario_variables ext args = Ok sv →
     StronglySorted str_le (species_list sv) ∧
     StronglySorted str_le (season_list sv) ∧
     StronglySorted str_le (substrate_list sv)) ∧
  (∀ ext1 args1 sv1 ext2 args2 sv2,
     _parse_scenario_variables ext1 args1 = Ok sv1 →
     _parse_scenario_variables ext2 args2 = Ok sv2 →
     species_of ext1 args1 = species_of ext2 args2 →
     season_names ext1 args1 = season_names ext2 args2 →
     substrate_names ext1 args1 = substrate_names ext2 args2 →
     species_list sv1 = species_list sv2 ∧
     season_list sv1 = season_list sv2 ∧
     substrate_list sv1 = substrate_list sv2).
Proof.
  split.
  - intros ext args sv (t & _ & _ & Hsv)%parse_scenario_variables_Ok.
    apply scenario_of_lists in Hsv as (-> & -> & ->).
    repeat split; apply sorted_StronglySorted.
  - intros ext1 args1 sv1 ext2 args2 sv2
      (t1 & Ht1 & _ & Hsv1)%parse_scenario_variables_Ok
      (t2 & Ht2 & _ & Hsv2)%parse_scenario_variables_Ok Hspecies Hseason Hsub.
    apply scenario_of_lists in Hsv1 as (-> & -> & ->).
    apply scenario_of_lists in Hsv2 as (-> & -> & ->).
    destruct (read_tables_dom ext1 args1 t1 Ht1) as [Hs1 Hb1].
    destruct (read_tables_dom ext2 args2 t2 Ht2) as [Hs2 Hb2].
    apply read_tables_Ok in Ht1 as (Hg1 & _), Ht2 as (Hg2 & _).
    repeat split; apply sorted_keys_dom; try congruence.
    rewrite Hg1, Hg2. apply Hspecies.
Qed.

(** ** The cross-table check (C7) *)

Lemma for_each_Raise {A} (body : A → res unit) (l : list A) :
  Exists (λ x, body x ≠ Ok ()) l →
  ∃ x e, x ∈ l ∧ body x = Raise e ∧ for_each body l = Raise e.
Proof.
  induction l as [|x l IH]; intros Hex; [by inversion Hex|]. simpl.
  destruct (body x) as [[]|e] eqn:Hx; cbn [mbind res_bind].
  - inversion_clear Hex as [?? Hne|?? Hl]; [done|].
    destruct (IH Hl) as (y & e & Hy & Hbody & Hfor).
    exists y, e. split; [by right | done].
  - exists x, e. split; [by left | done].
Qed.

Lemma check_entry_spec (args : gmap string pyval) (farm : option farm_vector)
    (name : string) (tables : gmap string string) :
  (farm = None ↔ farm_vector_path_of args = None) →
  check_entry (bool_decide (farm ≠ None)) (name, tables) =
    if bool_decide (size tables = length (required_tables args)) then Ok ()
    else Raise (entry_error args name tables).
Proof.
  intros Hfarm. unfold check_entry, required_tables, entry_error.
  destruct (farm_vector_path_of args) as [path|].
  - rewrite (bool_decide_eq_true_2 (farm ≠ None)) by (intros ?%Hfarm; done).
    simpl. rewrite andb_true_r, andb_false_r. by repeat case_bool_decide.
  - rewrite (bool_decide_eq_false_2 (farm ≠ None))
      by (intros Hne; by apply Hne, Hfarm).
    simpl. rewrite andb_true_r, andb_false_r. by repeat case_bool_decide.
Qed.

Lemma NoDup_required_tables (args : gmap string pyval) :
  NoDup (required_tables args).
Proof.
  unfold required_tables. destruct (farm_vector_path_of args);
    by apply (bool_decide_unpack _).
Qed.

(** an entry has as many tables as are required exactly when it lists every
    required table, provided it lists nothing else *)
Lemma size_required (args : gmap string pyval) (tables : gmap string string) :
  (∀ table, is_Some (tables !! table) → table ∈ required_tables args) →
  size tables = length (required_tables args) ↔
  Forall (λ table, is_Some (tables !! table)) (required_tables args).
Proof.
  intros Hsub.
  assert (dom tables ⊆ list_to_set (C:=gset string) (required_tables args))
    as Hdom.
  { intros table Hin. apply elem_of_list_to_set, Hsub. by apply elem_of_dom. }
  pose proof (size_list_to_set (C:=gset string) _ (NoDup_required_tables args))
    as Hsize.
  rewrite <- size_dom, <- Hsize. split.
  - intros Heq. apply Forall_forall. intros table Hin.
    apply elem_of_dom.
    rewrite (set_subseteq_size_eq _ _ Hdom) by lia.
    by apply elem_of_list_to_set.
  - intros Hall. f_equal. apply set_eq. intros table.
    rewrite elem_of_list_to_set, elem_of_dom. split; [apply Hsub|].
    rewrite Forall_forall in Hall. apply Hall.
Qed.

Section entries.

Context (args : gmap string pyval) (d : gmap string (gmap string string))
  (names_of : string → list string).
Hypothesis Hdefines : ∀ name table,
  defines d name table ↔ table ∈ required_tables args ∧ name ∈ names_of table.
Hypothesis Hpopulated : populated d.

Lemma entry_tables_required (name : string) (tables : gmap string string) :
  d !! name = Some tables →
  ∀ table, is_Some (tables !! table) → table ∈ required_tables args.
Proof.
  intros Hname table Htable.
  assert (defines d name table) as Hd by by exists tables.
  by apply Hdefines in Hd as [? _].
Qed.

(** a name defined by one required table and missing from another has an
    entry of the wrong size *)
Lemma mismatched_entry (name : string) :
  mismatched names_of args name →
  ∃ tables, d !! name = Some tables ∧
            size tables ≠ length (required_tables args).
Proof.
  intros (present & absent & Hp & Ha & Hin & Hout).
  destruct (proj2 (Hdefines name present)) as (tables & Hname & _); [done|].
  exists tables. split; [done|].
  rewrite (size_required args tables (entry_tables_required _ _ Hname)).
  rewrite Forall_forall. intros Hall. apply Hout.
  apply (Hdefines name absent). exists tables. auto.
Qed.

(** and an entry of the wrong size belongs to such a name *)
Lemma entry_mismatched (name : string) (tables : gmap string string) :
  d !! name = Some tables →
  size tables ≠ length (required_tables args) →
  mismatched names_of args name.
Proof.
  intros Hname Hsize.
  rewrite (size_required args tables (entry_tables_required _ _ Hname))
    in Hsize.
  apply not_Forall_Exists in Hsize; [|apply _].
  apply Exists_exists in Hsize as (absent & Ha & Hnone).
  destruct (populated_defines d name tables Hpopulated Hname)
    as [present Hpresent].
  exists present, absent. apply Hdefines in Hpresent as [Hp Hin].
  repeat split; try done.
  intros Hout. apply Hnone.
  destruct (proj2 (Hdefines name absent)) as (tables' & Hname' & Hsome);
    [done|].
  by simplify_eq.
Qed.

End entries.

(** [execute] registers nothing when the scenario parser raises *)
Lemma execute_parse_raises (ext : collaborators) (args : gmap string pyval)
    (e : exn) (g : list task) :
  _parse_scenario_variables ext args = Raise e →
  ∃ e', execute ext args g = (Raise e', g).
Proof.
  intros Hparse. unfold execute.
  cbn [mbind graph_bind gbind lift].
  destruct (getitem args "workspace_dir" ≫= as_str) as [workspace_dir|e'].
  - rewrite Hparse. by exists e.
  - by exists e'.
Qed.

Lemma read_tables_farm (ext : collaborators) (args : gmap string pyval)
    (t : tables) :
  read_tables ext args = Ok t →
  farm t = None ↔ farm_vector_path_of args = None.
Proof.
  intros (_ & -> & _)%read_tables_Ok.
  by destruct (farm_vector_path_of args).
Qed.

(** when the tables are read, a mismatched season or substrate makes the
    cross-table check raise the error of a mismatched entry *)
Lemma cross_check_mismatched (ext : collaborators) (args : gmap string pyval)
    (t : tables) (name : string) :
  read_tables ext args = Ok t →
  mismatched (seasons_of ext args) args name ∨
  mismatched (substrates_of ext args) args name →
  ∃ name' tables',
    cross_check t = Raise (entry_error args name' tables') ∧
    ((season_to_header t !! name' = Some tables' ∧
      mismatched (seasons_of ext args) args name') ∨
     (substrate_to_header t !! name' = Some tables' ∧
      mismatched (substrates_of ext args) args name')).
Proof.
  intros Ht Hmis.
  destruct (read_tables_populated ext args t Ht) as [Hps Hpb].
  pose proof (λ n tb, read_tables_defines_season ext args t n tb Ht) as Hds.
  pose proof (λ n tb, read_tables_defines_substrate ext args t n tb Ht) as Hdb.
  pose proof (read_tables_farm ext args t Ht) as Hfarm.
  set (entries := (map_to_list (season_to_header t)
                   ++ map_to_list (substrate_to_header t))%list).
  assert (Exists (λ x, check_entry (bool_decide (farm t ≠ None)) x ≠ Ok ())
            entries) as Hex.
  { apply Exists_exists.
    destruct Hmis as [Hmis|Hmis];
      [apply (mismatched_entry args _ _ Hds) in Hmis as (tables & Hn & Hsz)
      |apply (mismatched_entry args _ _ Hdb) in Hmis as (tables & Hn & Hsz)];
      exists (name, tables);
      (split; [apply elem_of_app; (left + right); by apply elem_of_map_to_list|]);
      rewrite (check_entry_spec args) by done;
      by rewrite bool_decide_eq_false_2. }
  destruct (for_each_Raise _ _ Hex) as ([name' tables'] & e & Hin & He & Hfor).
  rewrite (check_entry_spec args) in He by done.
  destruct (decide (size tables' = length (required_tables args)))
    as [Hsz|Hsz];
    [by rewrite bool_decide_eq_true_2 in He
    |rewrite bool_decide_eq_false_2 in He by done].
  injection He as <-. exists name', tables'. split.
  { unfold cross_check. fold entries. by rewrite Hfor. }
  apply elem_of_app in Hin as [Hin|Hin]; apply elem_of_map_to_list in Hin;
    [left|right]; (split; [done|]).
  - by apply (entry_mismatched args _ _ Hds Hps name' tables').
  - by apply (entry_mismatched args _ _ Hdb Hpb name' tables').
Qed.

(** C7, as stated, fails: the biophysical table defines the season summer
    and the guild table has neither a summer column nor an alpha column; the
    parser stops at the expected-header check, whose error names the missing
    header pattern and no season. *)
Lemma mismatch_error_counterexample :
  mismatched (seasons_of example_files (example_args "guild_without_alpha.csv"))
    (example_args "guild_without_alpha.csv") "summer" ∧
  _parse_scenario_variables example_files
    (example_args "guild_without_alpha.csv") =
  Raise (ValueError
    (GuildHeaderMissing "alpha" (PyStr "guild_without_alpha.csv")
       (guild_headers_of example_files
          (example_args "guild_without_alpha.csv")))).
Proof.
  split; [|by vm_compute].
  exists "biophysical", "guild". repeat split; compute_done.
Qed.

(** C7, amended: a season or substrate that one required table defines and
    another lacks makes the scenario parser raise, and [execute] then
    returns with no task registered.  When the tables pass the checks that
    come first (both tables non-empty, every expected header pattern found,
    the farm layer of polygon type), the error is the configuration error
    of the cross-table check: it names a mismatched season or substrate and
    carries the dictionary of exactly the required tables that define it. *)
Theorem mismatch_raises_before_any_task (ext : collaborators)
    (args : gmap string pyval) (name : string) :
  mismatched (seasons_of ext args) args name ∨
  mismatched (substrates_of ext args) args name →
  (∃ e, _parse_scenario_variables ext args = Raise e) ∧
  (∃ e, execute ext args [] = (Raise e, [])) ∧
  ((∃ t, read_tables ext args = Ok t) →
   ∃ name' tables',
     _parse_scenario_variables ext args
       = Raise (entry_error args name' tables') ∧
     ((mismatched (seasons_of ext args) args name' ∧
       ∀ table, is_Some (tables' !! table) ↔
                table ∈ required_tables args ∧
                name' ∈ seasons_of ext args table) ∨
      (mismatched (substrates_of ext args) args name' ∧
       ∀ table, is_Some (tables' !! table) ↔
                table ∈ required_tables args ∧
                name' ∈ substrates_of ext args table))).
Proof.
  intros Hmis.
  assert (∃ e, _parse_scenario_variables ext args = Raise e) as [e He].
  { unfold _parse_scenario_variables.
    destruct (read_tables ext args) as [t|e] eqn:Ht;
      cbn [mbind res_bind]; [|by eexists].
    destruct (cross_check_mismatched ext args t name Ht Hmis)
      as (name' & tables' & -> & _). by eexists. }
  split; [by eexists|]. split; [by eapply execute_parse_raises|].
  intros [t Ht].
  destruct (cross_check_mismatched ext args t name Ht Hmis)
    as (name' & tables' & Hcheck & Hentry).
  exists name', tables'. split.
  { unfold _parse_scenario_variables. by rewrite Ht; cbn; rewrite Hcheck. }
  destruct Hentry as [[Hname Hm]|[Hname Hm]]; [left|right]; (split; [done|]);
    intros table.
  - rewrite <- (read_tables_defines_season ext args t name' table Ht).
    unfold defines. rewrite Hname. naive_solver.
  - rewrite <- (read_tables_defines_substrate ext args t name' table Ht).
    unfold defines. rewrite Hname. naive_solver.
Qed.

Lemma mismatch_raises_before_any_task_witness :
  let ext := example_files in
  let args := example_args "guild_without_summer.csv" in
  (∃ e, _parse_scenario_variables ext args = Raise e) ∧
  (∃ e, execute ext args [] = (Raise e, [])) ∧
  ((∃ t, read_tables ext args = Ok t) →
   ∃ name' tables',
     _parse_scenario_variables ext args
       = Raise (entry_error args name' tables') ∧
     ((mismatched (seasons_of ext args) args name' ∧
       ∀ table, is_Some (tables' !! table) ↔
                table ∈ required_tables args ∧
                name' ∈ seasons_of ext args table) ∨
      (mismatched (substrates_of ext args) args name' ∧
       ∀ table, is_Some (tables' !! table) ↔
                table ∈ required_tables args ∧
                name' ∈ substrates_of ext args table))).
Proof.
  intros ext args.
  apply (mismatch_raises_before_any_task ext args "summer").
  left. exists "biophysical", "guild". repeat split; compute_done.
Defined.

(** the scenario of the specification: the biophysical table defines summer,
    the guild table has no summer column; the error names summer and the one
    table that defines it *)
Lemma missing_summer_column_example :
  _parse_scenario_variables example_files
    (example_args "guild_without_summer.csv") =
  Raise (ValueError
    (ExpectedTwoEntries "summer"
       {[ "biophysical" := "floral_resources_summer_index" ]})) ∧
  execute example_files (example_args "guild_without_summer.csv") [] =
  (Raise (ValueError
     (ExpectedTwoEntries "summer"
        {[ "biophysical" := "floral_resources_summer_index" ]})), []).
Proof. split; by vm_compute. Qed.

(** ** Normalisation (C6) *)


Lemma res_mapM_Forall2 {A B} (f : A → res B) (l : list A) :
  ∀ l' : list B, mapM f l = Ok l' → Forall2 (λ x y, f x = Ok y) l l'.
Proof.
  induction l as [|x l IH]; intros l'; simpl.
  { intros [= <-]. constructor. }
  destruct (f x) as [y|e] eqn:Hx; simpl; [|done].
  destruct (mapM f l) as [k|e]; simpl; [|done].
  intros [= <-]. constructor; [done|]. by apply IH.
Qed.




(** *** Dictionaries filled by a list of assignments *)

Lemma dict_of_snoc {K} `{Countable K} {V} (items : list (K * V)) (k : K)
    (v : V) :
  dict_of (items ++ [(k, v)]) = <[k := v]> (dict_of items).
Proof. unfold dict_of. by rewrite foldl_app. Qed.

Lemma dict_of_lookup {K} `{Countable K} {V} (items : list (K * V)) (k : K)
    (v : V) :
  NoDup items.*1 → (k, v) ∈ items → dict_of items !! k = Some v.
Proof.
  induction items as [|[k' v'] items IH] using rev_ind; intros Hnd Hin.
  { by apply elem_of_nil in Hin. }
  rewrite dict_of_snoc. rewrite fmap_app in Hnd.
  apply NoDup_app in Hnd as (Hnd & Hdisj & _).
  apply elem_of_app in Hin as [Hin|Hin%list_elem_of_singleton].
  - rewrite lookup_insert_ne; [by apply IH|].
    intros ->. apply (Hdisj k); [|by left].
    apply list_elem_of_fmap. by exists (k, v).
  - simplify_eq. apply lookup_insert_eq.
Qed.

Lemma NoDup_pairs {A B} (xs : list A) (ys : list B) :
  NoDup xs → NoDup ys →
  NoDup (concat ((λ x, (λ y, (x, y)) <$> ys) <$> xs)).
Proof.
  intros Hxs Hys. induction Hxs as [|x xs Hx Hxs IH]; simpl; [constructor|].
  apply NoDup_app. repeat split; [|intros [x' y]|done].
  - apply (NoDup_fmap_2 _). by exact Hys.
  - intros (y' & [= -> ->] & _)%list_elem_of_fmap Hin. apply Hx.
    apply list_elem_of_In, in_concat in Hin as (l & Hl & Hin).
    apply list_elem_of_In, list_elem_of_fmap in Hl as (x'' & -> & Hx'').
    apply list_elem_of_In, list_elem_of_fmap in Hin as (y'' & [= -> ->] & _).
    done.
Qed.











Lemma NoDup_sorted_keys {V} (d : gmap string V) : NoDup (sorted (keys d)).
Proof.
  unfold sorted. rewrite merge_sort_Permutation. apply NoDup_keys.
Qed.


Lemma elem_of_concat_lookup {A} (ls : list (list A)) (j : nat) (l : list A)
    (x : A) :
  ls !! j = Some l → x ∈ l → x ∈ concat ls.
Proof.
  intros Hj Hx. apply list_elem_of_In, in_concat. exists l.
  split; apply list_elem_of_In; [|done]. by eapply list_elem_of_lookup_2.
Qed.



(** the example scenario: the weights of apis are 2/3 and 1/3 over spring
    and summer, and the abundances are 1/4 and 3/4 *)
Lemma normalization_example :
  ∃ sv,
    _parse_scenario_variables example_files (example_args "guild_table.csv")
      = Ok sv ∧
    season_list sv = ["spring"; "summer"] ∧
    species_list sv = ["apis"; "bombus"] ∧
    activity_weights sv "apis" = Some [Finite (frac 2 3); Finite (frac 1 3)] ∧
    abundance_weights sv = Some [Finite (frac 1 4); Finite (frac 3 4)].
Proof.
  eexists. split; [vm_compute; reflexivity|]. repeat split; compute_done.
Qed.

Lemma sorted_lists_are_deterministic_witness :
  ∃ sv,
    _parse_scenario_variables example_files (example_args "guild_table.csv")
      = Ok sv ∧
    StronglySorted str_le (species_list sv) ∧
    StronglySorted str_le (season_list sv) ∧
    StronglySorted str_le (substrate_list sv).
Proof.
  eexists. split; [vm_compute; reflexivity|].
  apply (proj1 sorted_lists_are_deterministic example_files
           (example_args "guild_table.csv")).
  vm_compute. reflexivity.
Defined.

(** ** The tasks of the pipeline only accumulate *)

Section graph.

Context {A B : Type}.

Lemma graph_bind_Ok (m : graph A) (k : A → graph B) (g g' : list task)
    (r : B) :
  (m ≫= k) g = (Ok r, g') →
  ∃ a g1, m g = (Ok a, g1) ∧ k a g1 = (Ok r, g').
Proof.
  unfold mbind, graph_bind, gbind.
  destruct (m g) as [[a|e] g1]; [eauto | done].
Qed.

Lemma extends_ret (a : A) : extends (mret a : graph A).
Proof. by intros g r g' [= _ <-]. Qed.

Lemma extends_gret (a : A) : extends (gret a).
Proof. by intros g r g' [= _ <-]. Qed.

Lemma extends_lift (r : res A) : extends (lift r).
Proof. by intros g r' g' [= _ <-]. Qed.

Lemma extends_bind (m : graph A) (k : A → graph B) :
  extends m → (∀ a, extends (k a)) → extends (m ≫= k).
Proof.
  intros Hm Hk g r g'. unfold mbind, graph_bind, gbind.
  destruct (m g) as [[a|e] g1] eqn:Hmg.
  - intros Hka. trans g1; [by eapply Hm | by eapply Hk].
  - intros [= _ <-]. by eapply Hm.
Qed.

Lemma extends_gfold (body : B → A → graph B) (l : list A) :
  (∀ acc a, extends (body acc a)) → ∀ acc, extends (gfold body acc l).
Proof.
  intros Hbody. induction l as [|a l IH]; intros acc; simpl.
  - by intros g r g' [= _ <-].
  - intros g r g'. unfold gbind.
    destruct (body acc a g) as [[acc'|e] g1] eqn:Hb.
    + intros Hrest. trans g1; [by eapply Hbody | by eapply IH].
    + intros [= _ <-]. by eapply Hbody.
Qed.

End graph.

Lemma extends_add_task (f : callable) (targets : list string)
    (deps : list nat) :
  extends (add_task f targets deps).
Proof. intros g r g' [= _ <-]. by apply prefix_app_r. Qed.

(** decomposes a pipeline computation into its binds, lifts, loops and task
    registrations *)
Ltac extends_tac :=
  repeat first
    [ apply extends_add_task
    | apply extends_lift
    | apply extends_ret
    | apply extends_gret
    | apply extends_gfold; intros
    | apply extends_bind; [|intros]
    | match goal with
      | |- extends (let '(_, _) := ?p in _) => destruct p
      | |- extends ((let '(_, _) := ?p in _) _) => destruct p; cbv beta
      | |- extends (match ?o with Some _ => _ | None => _ end) => destruct o
      end ].

Lemma extends_species_tasks sv info ffp fft hnp hnt dir out suffix acc species :
  extends (species_tasks sv info ffp fft hnp hnt dir out suffix acc species).
Proof. unfold species_tasks. extends_tac. Qed.

Lemma extends_farm_yield_tasks sv lrp pap pat path reproject dir out suffix :
  extends (farm_yield_tasks sv lrp pap pat path reproject dir out suffix).
Proof. unfold farm_yield_tasks. extends_tac. Qed.

Lemma lift_Ok {A} (r : res A) (g g' : list task) (a : A) :
  lift r g = (Ok a, g') → r = Ok a ∧ g' = g.
Proof. by intros [= -> <-]. Qed.

Lemma elem_of_extends {A} (m : graph A) (g g' : list task) (r : res A)
    (t : task) :
  extends m → m g = (r, g') → t ∈ g → t ∈ g'.
Proof.
  intros Hm Hrun Hin. destruct (Hm g r g' Hrun) as [k ->].
  apply elem_of_app. by left.
Qed.

(** one turn of the species loop registers the kernel task of the species,
    for the flight distance and under the path [species_kernel] computes *)
Lemma species_tasks_kernel sv info ffp fft hnp hnt dir out suffix acc species
    (g g' : list task) acc' :
  species_tasks sv info ffp fft hnp hnt dir out suffix acc species g
    = (Ok acc', g') →
  ∃ alpha path t,
    species_kernel sv info dir suffix species = Ok (alpha, path) ∧
    t ∈ g' ∧ kernel_task alpha path t.
Proof.
  unfold species_tasks. intros Hrun.
  apply graph_bind_Ok in Hrun as (bands & g1 & [_ ->]%lift_Ok & Hrun).
  apply graph_bind_Ok in Hrun as (deps & g1 & [_ ->]%lift_Ok & Hrun).
  apply graph_bind_Ok in Hrun as (lfe & g1 & _ & Hrun).
  apply graph_bind_Ok in Hrun as ([alpha path] & g2 & [Hk ->]%lift_Ok & Hrun).
  apply graph_bind_Ok in Hrun as (kt & g2 & Hadd & Hrun).
  injection Hadd as _ <-.
  exists alpha, path, {| func := exponential_decay_kernel_raster alpha path;
                         target_path_list := [path];
                         dependent_task_list := [] |}.
  split; [done|]. split; [|by split].
  eapply elem_of_extends; [|exact Hrun|].
  - extends_tac.
  - apply elem_of_app. right. by left.
Qed.

(** the species loop registers the kernel task of every species *)
Lemma pollinator_abundance_tasks_kernel sv info ffp fft hnp hnt dir out suffix
    (g g' : list task) r :
  pollinator_abundance_tasks sv info ffp fft hnp hnt dir out suffix g
    = (Ok r, g') →
  ∀ species, species ∈ species_list sv →
    ∃ alpha path t,
      species_kernel sv info dir suffix species = Ok (alpha, path) ∧
      t ∈ g' ∧ kernel_task alpha path t.
Proof.
  unfold pollinator_abundance_tasks.
  generalize (∅ : gmap (string * string) string,
              ∅ : gmap (string * string) nat).
  revert g. induction (species_list sv) as [|sp l IH];
    intros g acc Hrun species Hin; [by apply elem_of_nil in Hin|].
  simpl in Hrun. unfold gbind in Hrun.
  destruct (species_tasks _ _ _ _ _ _ _ _ _ acc sp g)
    as [[acc'|e] g1] eqn:Hsp; [|done].
  apply elem_of_cons in Hin as [->|Hin].
  - destruct (species_tasks_kernel _ _ _ _ _ _ _ _ _ _ _ _ _ _ Hsp)
      as (alpha & path & t & Hk & Ht & Hkt).
    exists alpha, path, t. split; [done|]. split; [|done].
    eapply elem_of_extends; [|exact Hrun|done].
    apply extends_gfold. intros. apply extends_species_tasks.
  - by eapply IH.
Qed.

(** a run of [execute] that returns has parsed the scenario and registered
    the kernel task of every species *)
Lemma execute_kernel_tasks (ext : collaborators) (args : gmap string pyval)
    (g g' : list task) :
  execute ext args g = (Ok (), g') →
  ∃ sv workspace_dir landcover_raster_path,
    _parse_scenario_variables ext args = Ok sv ∧
    args !! "workspace_dir" = Some (PyStr workspace_dir) ∧
    args !! "landcover_raster_path" = Some landcover_raster_path ∧
    ∀ species, species ∈ species_list sv →
      ∃ alpha path t,
        species_kernel sv (get_raster_info ext landcover_raster_path)
          (os_path_join workspace_dir "intermediate_outputs")
          (make_suffix_string ext args) species = Ok (alpha, path) ∧
        t ∈ g' ∧ kernel_task alpha path t.
Proof.
  unfold execute. intros Hrun.
  apply graph_bind_Ok in Hrun as (ws & g1 & [Hws ->]%lift_Ok & Hrun).
  apply graph_bind_Ok in Hrun as (sv & g1 & [Hsv ->]%lift_Ok & Hrun).
  apply graph_bind_Ok in Hrun as (lrp & g1 & [Hlrp ->]%lift_Ok & Hrun).
  apply graph_bind_Ok in Hrun as (farm & g1 & _ & Hrun).
  apply graph_bind_Ok in Hrun as ([nsp lst] & g2 & _ & Hrun).
  apply graph_bind_Ok in Hrun as ([spm deps] & g3 & _ & Hrun).
  apply graph_bind_Ok in Hrun as ([hnp hnt] & g4 & _ & Hrun).
  apply graph_bind_Ok in Hrun as ([rfp rft] & g5 & _ & Hrun).
  apply graph_bind_Ok in Hrun as ([ffp fft] & g6 & _ & Hrun).
  apply graph_bind_Ok in Hrun as ([pap pat] & g7 & Hpa & Hrun).
  exists sv, ws, lrp. split; [done|].
  assert (args !! "workspace_dir" = Some (PyStr ws)) as Hdir.
  { destruct (getitem args "workspace_dir") as [[|s]|] eqn:Hg; simplify_eq/=.
    by apply getitem_Ok in Hg. }
  split; [done|]. split; [by apply getitem_Ok|].
  intros species Hin.
  destruct (pollinator_abundance_tasks_kernel _ _ _ _ _ _ _ _ _ _ _ _ Hpa
              species Hin) as (alpha & path & t & Hk & Ht & Hkt).
  exists alpha, path, t. split; [done|]. split; [|done].
  destruct farm as [[fpath reproject]|].
  - eapply elem_of_extends; [apply extends_farm_yield_tasks|exact Hrun|done].
  - by injection Hrun as <-.
Qed.

(** ** The kernel artifact of species with equal alpha (C8) *)



(** the example scenario: both species have alpha 500 on 30 m pixels, and the
    two kernel tasks of the graph build the same raster *)
Lemma kernel_path_example :
  omap (λ t, match func t with
             | exponential_decay_kernel_raster _ kernel_path => Some kernel_path
             | _ => None
             end)
    (execute example_files (example_args "guild_table.csv") []).2
  = ["workspace/intermediate_outputs/kernel_16.666667.tif";
     "workspace/intermediate_outputs/kernel_16.666667.tif"].
Proof. vm_compute. reflexivity. Qed.

(** * Further properties of the code *)

(** ** The example scenarios parse *)

Lemma example_scenario_parsed :
  _parse_scenario_variables example_files (example_args "guild_table.csv")
  = Ok example_scenario.
Proof. vm_compute. reflexivity. Qed.

Lemma example_farm_scenario_parsed :
  _parse_scenario_variables example_farm_files
    (example_farm_args (PyStr "farms.shp"))
  = Ok example_farm_scenario.
Proof. vm_compute. reflexivity. Qed.

(** ** More on the kernels *)

(** X1: the scalar product kernel keeps the shape of its block, keeps
    no-data pixels and multiplies every other pixel by the scalar. *)
Theorem MultByScalar_formula (s : _MultByScalar.self) (array : list Qc) :
  length (_MultByScalar.__call__ s array) = length array ∧
  ∀ i (x : Qc), array !! i = Some x →
    (x = _INDEX_NODATA →
     _MultByScalar.__call__ s array !! i = Some _INDEX_NODATA) ∧
    (x ≠ _INDEX_NODATA →
     _MultByScalar.__call__ s array !! i = Some (x * _MultByScalar.scalar s)).
Proof.
  split.
  - unfold _MultByScalar.__call__. cbv zeta. np_unfold. np_lengths.
  - intros i x Hx. rewrite (MultByScalar_pixel s array i x Hx).
    split; intros Hnd;
      [by rewrite bool_decide_eq_true_2 | by rewrite bool_decide_eq_false_2].
Qed.

Lemma MultByScalar_formula_witness :
  _MultByScalar.__call__ {| _MultByScalar.scalar := frac 1 2 |}
    [frac 1 2; _INDEX_NODATA] !! 0%nat = Some (frac 1 2 * frac 1 2).
Proof.
  apply (proj2 (MultByScalar_formula {| _MultByScalar.scalar := frac 1 2 |}
                  [frac 1 2; _INDEX_NODATA]) 0%nat (frac 1 2));
    [reflexivity | compute_done].
Defined.

(** X2: the pollinator supply index kernel keeps the shape of its first
    block and, where the first block is not no-data, returns the product of
    the species abundance and the two blocks. *)
Theorem PollinatorSupplyIndexOp_formula (s : _PollinatorSupplyIndexOp.self)
    (first second : list Qc) :
  length first = length second →
  length (_PollinatorSupplyIndexOp.__call__ s first second) = length first ∧
  ∀ i (x y : Qc), first !! i = Some x → second !! i = Some y →
    x ≠ _INDEX_NODATA →
    _PollinatorSupplyIndexOp.__call__ s first second !! i =
      Some (_PollinatorSupplyIndexOp.species_abundance s * x * y).
Proof.
  intros Hl. split.
  - unfold _PollinatorSupplyIndexOp.__call__. cbv zeta. np_unfold. np_lengths.
  - intros i x y Hx Hy Hnd.
    rewrite (PollinatorSupplyIndexOp_pixel s first second i x y Hl Hx Hy).
    by rewrite bool_decide_eq_false_2.
Qed.

Lemma PollinatorSupplyIndexOp_formula_witness :
  length (_PollinatorSupplyIndexOp.__call__
            {| _PollinatorSupplyIndexOp.species_abundance := frac 1 4 |}
            [frac 1 2] [frac 1 2]) = 1%nat ∧
  ∀ i (x y : Qc), [frac 1 2] !! i = Some x → [frac 1 2] !! i = Some y →
    x ≠ _INDEX_NODATA →
    _PollinatorSupplyIndexOp.__call__
      {| _PollinatorSupplyIndexOp.species_abundance := frac 1 4 |}
      [frac 1 2] [frac 1 2] !! i = Some (frac 1 4 * x * y).
Proof.
  apply (PollinatorSupplyIndexOp_formula
           {| _PollinatorSupplyIndexOp.species_abundance := frac 1 4 |}
           [frac 1 2] [frac 1 2]).
  reflexivity.
Defined.

(** ** The on-farm abundance kernel *)

(** X3: on equal-shaped [float64] blocks the on-farm abundance kernel
    returns a block of the shape of its inputs that holds no-data where
    either input is no-data and the binary64 value of
    [pat (1 - h) / (h (1 - 2 pat) + pat)] everywhere else, whatever the
    divisor: where [h] and [pat] are both 0 the pixel is [nan], and the
    other pixels of the block are computed all the same. *)
Theorem OnFarmPollinatorAbundance_formula :
  (∀ h_array pat_array : list PrimFloat.float,
     length h_array = length pat_array →
     length (_OnFarmPollinatorAbundance.__call__ h_array pat_array)
       = length h_array ∧
     ∀ i (h pat : PrimFloat.float),
       h_array !! i = Some h → pat_array !! i = Some pat →
       _OnFarmPollinatorAbundance.__call__ h_array pat_array !! i =
         Some (if (h =? _INDEX_NODATA_float64)
                  || (pat =? _INDEX_NODATA_float64)
               then _INDEX_NODATA_float64
               else pat * (1 - h) / (h * (1 - 2 * pat) + pat))%float) ∧
  _OnFarmPollinatorAbundance.__call__ [0%float; 0.5%float]
    [0%float; 0.5%float] = [nan; 0.5%float].
Proof.
  split; [|reflexivity].
  intros h_array pat_array Hl. split.
  - unfold _OnFarmPollinatorAbundance.__call__. cbv zeta.
    np_unfold. np_lengths.
  - intros i h pat Hh Hpat. by apply OnFarmPollinatorAbundance_pixel.
Qed.

Lemma OnFarmPollinatorAbundance_formula_witness :
  length (_OnFarmPollinatorAbundance.__call__
            [0.5%float; _INDEX_NODATA_float64] [0.25%float; 0.25%float])
  = 2%nat ∧
  _OnFarmPollinatorAbundance.__call__
    [0.5%float; _INDEX_NODATA_float64] [0.25%float; 0.25%float] !! 1%nat
  = Some _INDEX_NODATA_float64.
Proof.
  destruct (proj1 OnFarmPollinatorAbundance_formula
              [0.5%float; _INDEX_NODATA_float64] [0.25%float; 0.25%float]
              eq_refl) as [Hlength Hpixel].
  split; [exact Hlength|].
  exact (Hpixel 1%nat _INDEX_NODATA_float64 0.25%float eq_refl eq_refl).
Defined.

(** ** More on the raster sum *)

Lemma SumRasters_fold_length (n : nat) (arrays : list (list Qc)) :
  Forall (λ a : list Qc, length a = n) arrays →
  ∀ (result : list Qc) (mask : list bool),
    length result = n → length mask = n →
    length (foldl _SumRasters.step (result, mask) arrays).1 = n ∧
    length (foldl _SumRasters.step (result, mask) arrays).2 = n.
Proof.
  induction 1 as [|a arrays Ha _ IH]; intros result mask Hr Hm; [done|].
  cbn [foldl].
  destruct (SumRasters_step_length n result mask a) as [? ?]; [done..|].
  destruct (_SumRasters.step (result, mask) a) as [result' mask'].
  by apply IH.
Qed.

Lemma SumRasters_length (n : nat) (arrays : list (list Qc)) (result : list Qc) :
  Forall (λ a : list Qc, length a = n) arrays →
  _SumRasters.__call__ arrays = Some result → length result = n.
Proof.
  intros Hlen. unfold _SumRasters.__call__.
  destruct arrays as [|first rest]; [done|]. cbn [head mbind option_bind].
  assert (length first = n) as Hfirst by by inversion Hlen.
  destruct (SumRasters_fold_length n (first :: rest) Hlen
              (np.full_like first 0) (np.zeros_bool first)) as [Hr Hm].
  { np_unfold; np_lengths. }
  { np_unfold; np_lengths. }
  destruct (foldl _ _ _) as [result' mask]. simpl in Hr, Hm.
  intros [= <-]. rewrite length_put_scalar; [done|].
  unfold np.not. rewrite length_fmap. lia.
Qed.

Lemma SumRasters_returns (first : list Qc) (rest : list (list Qc)) :
  is_Some (_SumRasters.__call__ (first :: rest)).
Proof.
  unfold _SumRasters.__call__. cbn [head mbind option_bind].
  destruct (foldl _ _ _). by eexists.
Qed.





(** X7: the raster sum of a single block is that block. *)
Theorem SumRasters_single_raster (array : list Qc) :
  _SumRasters.__call__ [array] = Some array.
Proof.
  destruct (SumRasters_returns array []) as [result Hres]. rewrite Hres.
  f_equal. apply list_eq. intros i.
  assert (Forall (λ a : list Qc, length a = length array) [array]) as Hlen
    by by constructor.
  pose proof (SumRasters_length _ _ _ Hlen Hres) as Hl.
  destruct (array !! i) as [x|] eqn:Hx.
  - destruct (SumRasters_pixel (length array) [array] i [x]) as (r & Hr & Hp);
      [done|done|by unfold column; simpl; rewrite Hx|].
    rewrite Hres in Hr. injection Hr as <-. rewrite Hp. f_equal.
    destruct (decide (x = _INDEX_NODATA)) as [->|Hv].
    + by rewrite bool_decide_eq_true_2 by by constructor.
    + rewrite bool_decide_eq_false_2 by by inversion 1.
      rewrite filter_cons_True by done. unfold Qcsum. simpl. ring.
  - apply lookup_ge_None. apply lookup_ge_None in Hx. lia.
Qed.

(** X8: the total yield, wild yield and raster sum kernels and the
    habitat nesting index closure return a block of the shape of their
    input blocks. *)
Theorem kernels_keep_the_block_shape :
  (∀ mp_array FP_array : list PrimFloat.float,
     length mp_array = length FP_array →
     length (_PYTOp.__call__ mp_array FP_array) = length mp_array) ∧
  (∀ mp_array PYT_array : list PrimFloat.float,
     length mp_array = length PYT_array →
     length (_PYWOp.__call__ mp_array PYT_array) = length mp_array) ∧
  (∀ (n : nat) (array_list : list (list Qc)) (result : list Qc),
     Forall (λ a : list Qc, length a = n) array_list →
     _SumRasters.__call__ array_list = Some result → length result = n) ∧
  (∀ (n : nat) (s : _CalculateHabitatNestingIndex.self)
     (substrate_index_arrays : list (list Qc)) (result : list Qc),
     Forall (λ a : list Qc, length a = n) substrate_index_arrays →
     _CalculateHabitatNestingIndex.max_op s substrate_index_arrays
       = Some result →
     length result = n).
Proof.
  repeat apply conj.
  - intros mp_array FP_array Hl. unfold _PYTOp.__call__. cbv zeta.
    np_unfold. np_lengths.
  - intros mp_array PYT_array Hl. unfold _PYWOp.__call__. cbv zeta.
    np_unfold. np_lengths.
  - apply SumRasters_length.
  - intros n s stack result Hlen.
    unfold _CalculateHabitatNestingIndex.max_op, np.max_axis0.
    destruct (_CalculateHabitatNestingIndex.numbers _) as [scalars|];
      [|done]. cbn [mbind option_bind].
    destruct (zip_with _ _ _) as [|row rows] eqn:Hrows; [done|].
    destruct stack as [|first rest]; [done|]. simpl.
    intros [= <-].
    assert (Forall (λ a : list Qc, length a = n) (row :: rows)) as Hscaled.
    { rewrite <- Hrows.
      apply (Forall_length_scaled (first :: rest) scalars n Hlen). }
    inversion_clear Hscaled as [|? ? Hrow Hrest].
    inversion_clear Hlen as [|? ? Hfirst _].
    assert (length (foldl (zip_with np.maximum) row rows) = n) as Hmax.
    { rewrite length_foldl_zip_with; [done|].
      eapply Forall_impl; [exact Hrest|]. simpl. congruence. }
    rewrite length_put_scalar; [done|].
    np_unfold. rewrite length_fmap. lia.
Qed.

Lemma kernels_keep_the_block_shape_witness :
  length (_PYTOp.__call__ [0.9%float; 0.25%float] [0.3%float; 0.5%float])
  = length [0.9%float; 0.25%float].
Proof.
  apply (proj1 kernels_keep_the_block_shape
           [0.9%float; 0.25%float] [0.3%float; 0.5%float]).
  reflexivity.
Defined.

(** ** What a successful parse guarantees *)

Lemma for_each_Ok {A} (body : A → res unit) (l : list A) :
  for_each body l = Ok () → Forall (λ x, body x = Ok ()) l.
Proof.
  induction l as [|x l IH]; simpl; [constructor|].
  destruct (body x) as [[]|e] eqn:Hx; cbn [mbind res_bind]; [|done].
  intros Hl. constructor; [done | by apply IH].
Qed.

Lemma cross_check_Ok (ext : collaborators) (args : gmap string pyval)
    (t : tables) :
  read_tables ext args = Ok t → cross_check t = Ok () →
  (∀ name tables, season_to_header t !! name = Some tables →
     size tables = length (required_tables args)) ∧
  (∀ name tables, substrate_to_header t !! name = Some tables →
     size tables = length (required_tables args)) ∧
  (∀ farm_vector, farm t = Some farm_vector →
     check_farm_seasons farm_vector (season_to_header t) = Ok ()).
Proof.
  intros Ht. pose proof (read_tables_farm ext args t Ht) as Hfarm.
  unfold cross_check.
  destruct (for_each _ _) as [[]|e] eqn:Hfor; cbn [mbind res_bind]; [|done].
  intros Hseasons. apply for_each_Ok in Hfor.
  rewrite Forall_app, !Forall_forall in Hfor. destruct Hfor as [Hs Hb].
  assert (∀ d name tables,
            (∀ x, x ∈ map_to_list d →
               check_entry (bool_decide (farm t ≠ None)) x = Ok ()) →
            d !! name = Some tables →
            size tables = length (required_tables args)) as Hentry.
  { intros d name tables Hd Hname.
    specialize (Hd (name, tables)).
    rewrite (check_entry_spec args) in Hd by done.
    destruct (decide (size tables = length (required_tables args))) as [|Hne];
      [done|].
    rewrite bool_decide_eq_false_2 in Hd by done.
    discriminate Hd. by apply elem_of_map_to_list. }
  split; [|split].
  - intros name tables. by apply Hentry.
  - intros name tables. by apply Hentry.
  - intros farm_vector Hfv. by rewrite Hfv in Hseasons.
Qed.

Lemma elem_of_sorted (l : list string) (x : string) : x ∈ sorted l ↔ x ∈ l.
Proof. unfold sorted. by rewrite merge_sort_Permutation. Qed.

(** X9: after a successful parse the season, substrate and species lists
    hold exactly the season names, substrate names and species names of the
    input tables, and every season and substrate of the lists is defined by
    every required table (guild, biophysical, and farm when a farm vector is
    given). *)
Theorem parsed_names_are_defined_in_every_table (ext : collaborators)
    (args : gmap string pyval) (sv : scenario_variables) :
  _parse_scenario_variables ext args = Ok sv →
  (∀ season, season ∈ season_list sv ↔ season ∈ season_names ext args) ∧
  (∀ substrate,
     substrate ∈ substrate_list sv ↔ substrate ∈ substrate_names ext args) ∧
  (∀ species, species ∈ species_list sv ↔ species ∈ species_of ext args) ∧
  (∀ season table,
     season ∈ season_list sv → table ∈ required_tables args →
     season ∈ seasons_of ext args table) ∧
  (∀ substrate table,
     substrate ∈ substrate_list sv → table ∈ required_tables args →
     substrate ∈ substrates_of ext args table).
Proof.
  intros (t & Ht & Hcheck & Hsv)%parse_scenario_variables_Ok.
  destruct (scenario_of_lists t sv Hsv) as (-> & -> & ->).
  destruct (read_tables_dom ext args t Ht) as [Hs Hb].
  destruct (cross_check_Ok ext args t Ht Hcheck) as (Hss & Hsb & _).
  pose proof (λ n tb, read_tables_defines_season ext args t n tb Ht) as Hds.
  pose proof (λ n tb, read_tables_defines_substrate ext args t n tb Ht) as Hdb.
  pose proof (read_tables_Ok ext args t Ht) as (Hguild & _).
  repeat apply conj.
  - intros season. by rewrite elem_of_sorted, elem_of_keys, <- Hs, elem_of_dom.
  - intros substrate.
    by rewrite elem_of_sorted, elem_of_keys, <- Hb, elem_of_dom.
  - intros species. unfold species_of.
    by rewrite elem_of_sorted, elem_of_keys, elem_of_dom, Hguild.
  - intros season table [tables Hname]%elem_of_sorted%elem_of_keys Htable.
    apply (Hds season table). exists tables. split; [done|].
    pose proof (Hss season tables Hname) as Hsize.
    apply (size_required args tables) in Hsize.
    + rewrite Forall_forall in Hsize. by apply Hsize.
    + by apply (entry_tables_required args _ _ Hds season).
  - intros substrate table [tables Hname]%elem_of_sorted%elem_of_keys Htable.
    apply (Hdb substrate table). exists tables. split; [done|].
    pose proof (Hsb substrate tables Hname) as Hsize.
    apply (size_required args tables) in Hsize.
    + rewrite Forall_forall in Hsize. by apply Hsize.
    + by apply (entry_tables_required args _ _ Hdb substrate).
Qed.

Lemma parsed_names_are_defined_in_every_table_witness :
  _parse_scenario_variables example_files (example_args "guild_table.csv")
  = Ok example_scenario ∧
  ∀ season table,
    season ∈ season_list example_scenario →
    table ∈ required_tables (example_args "guild_table.csv") →
    season ∈ seasons_of example_files (example_args "guild_table.csv") table.
Proof.
  split; [exact example_scenario_parsed|].
  apply (parsed_names_are_defined_in_every_table example_files
           (example_args "guild_table.csv") example_scenario).
  exact example_scenario_parsed.
Defined.

(** X10: the parser treats a farm vector path that is [None] or [''] as an
    absent one: it returns, or raises, what it does for the same arguments
    without the key. *)
Theorem parser_ignores_an_empty_farm_vector_path (ext : collaborators)
    (args : gmap string pyval) :
  args !! "farm_vector_path" = Some PyNone ∨
  args !! "farm_vector_path" = Some (PyStr "") →
  _parse_scenario_variables ext args =
  _parse_scenario_variables ext (delete "farm_vector_path" args).
Proof.
  intros Hfarm. unfold _parse_scenario_variables. f_equal.
  unfold read_tables, getitem, farm_vector_path_of.
  rewrite (lookup_delete_ne args "farm_vector_path" "guild_table_path")
    by done.
  rewrite (lookup_delete_ne args "farm_vector_path"
             "landcover_biophysical_table_path") by done.
  rewrite lookup_delete_eq.
  destruct Hfarm as [->| ->]; reflexivity.
Qed.

Lemma parser_ignores_an_empty_farm_vector_path_witness :
  _parse_scenario_variables example_files
    (<["farm_vector_path" := PyNone]> (example_args "guild_table.csv")) =
  _parse_scenario_variables example_files
    (delete "farm_vector_path"
       (<["farm_vector_path" := PyNone]> (example_args "guild_table.csv"))).
Proof.
  apply (parser_ignores_an_empty_farm_vector_path example_files
           (<["farm_vector_path" := PyNone]> (example_args "guild_table.csv"))).
  left. reflexivity.
Defined.

(** X11: after a successful parse with a farm vector, every farm feature
    has a season field that holds one of the seasons of the season list. *)
Theorem farm_seasons_are_known (ext : collaborators)
    (args : gmap string pyval) (sv : scenario_variables) (path : string) :
  _parse_scenario_variables ext args = Ok sv →
  farm_vector_path_of args = Some path →
  Forall (λ farm_feature : gmap string cell,
            ∃ season, farm_feature !! _FARM_SEASON_FIELD = Some (CStr season) ∧
                      season ∈ season_list sv)
    (farm_features (ogr_Open ext path)).
Proof.
  intros (t & Ht & Hcheck & Hsv)%parse_scenario_variables_Ok Hpath.
  destruct (scenario_of_lists t sv Hsv) as (-> & _ & _).
  destruct (cross_check_Ok ext args t Ht Hcheck) as (_ & _ & Hfarm).
  apply read_tables_Ok in Ht as (_ & Hfv & _). rewrite Hpath in Hfv.
  specialize (Hfarm _ Hfv). unfold check_farm_seasons in Hfarm.
  destruct (mapM _ (farm_features (ogr_Open ext path)))
    as [farm_seasons|e] eqn:Hseasons; cbn [mbind res_bind] in Hfarm; [|done].
  case_bool_decide as Hunknown; [|done].
  apply res_mapM_Forall2 in Hseasons.
  apply Forall_forall. intros farm_feature Hin.
  apply list_elem_of_lookup in Hin as [i Hi].
  destruct (Forall2_lookup_l _ _ _ _ _ Hseasons Hi) as (c & Hc & Hget).
  apply getitem_Ok in Hget.
  assert (c ∈ farm_seasons) as Hcin by by eapply list_elem_of_lookup_2.
  destruct c as [q|season].
  - exfalso. apply list_elem_of_In in Hcin.
    assert (In (CNum q) []) as []. rewrite <- Hunknown.
    apply List.filter_In. by split.
  - exists season. split; [done|].
    apply elem_of_sorted, elem_of_keys.
    destruct (season_to_header t !! season) as [tables|] eqn:Hs; [by eexists|].
    exfalso. apply list_elem_of_In in Hcin.
    assert (In (CStr season) []) as []. rewrite <- Hunknown.
    apply List.filter_In. split; [done|]. by apply bool_decide_eq_true_2.
Qed.

Lemma farm_seasons_are_known_witness :
  Forall (λ farm_feature : gmap string cell,
            ∃ season,
              farm_feature !! _FARM_SEASON_FIELD = Some (CStr season) ∧
              season ∈ season_list example_farm_scenario)
    (farm_features (ogr_Open example_farm_files "farms.shp")).
Proof.
  apply (farm_seasons_are_known example_farm_files
           (example_farm_args (PyStr "farms.shp"))).
  - exact example_farm_scenario_parsed.
  - reflexivity.
Defined.

(** X12: when the guild and biophysical tables pass their header checks
    and the farm layer is of neither polygon type, the parser raises the
    error of a farm layer that is not a polygon type, and [execute] returns
    with the graph it was given. *)
Theorem non_polygon_farm_layer_is_rejected (ext : collaborators)
    (args : gmap string pyval) (path : string) (t : tables) :
  args !! "farm_vector_path" = Some (PyStr path) → path ≠ "" →
  farm_geom_type (ogr_Open ext path) = wkbOther →
  read_tables ext (delete "farm_vector_path" args) = Ok t →
  _parse_scenario_variables ext args = Raise (ValueError FarmNotPolygon) ∧
  ∀ g, ∃ e, execute ext args g = (Raise e, g).
Proof.
  intros Hfarm Hpath Hgeom Ht.
  assert (_parse_scenario_variables ext args
          = Raise (ValueError FarmNotPolygon)) as Hparse.
  { unfold _parse_scenario_variables.
    assert (read_tables ext args = Raise (ValueError FarmNotPolygon)) as ->;
      [|done].
    revert Ht. unfold read_tables, getitem, farm_vector_path_of.
    rewrite (lookup_delete_ne args "farm_vector_path" "guild_table_path")
      by done.
    rewrite (lookup_delete_ne args "farm_vector_path"
               "landcover_biophysical_table_path") by done.
    rewrite lookup_delete_eq, Hfarm, bool_decide_eq_true_2 by done.
    destruct (args !! "guild_table_path") as [gp|]; [|done].
    destruct (args !! "landcover_biophysical_table_path") as [bp|]; [|done].
    cbn [mbind res_bind].
    destruct (first_row_keys (build_lookup_from_csv_species ext gp));
      cbn [mbind res_bind]; [|done].
    destruct (check_expected_headers _EXPECTED_GUILD_HEADERS _ _);
      cbn [mbind res_bind]; [|done].
    destruct (first_row_keys (build_lookup_from_csv_lucode ext bp));
      cbn [mbind res_bind]; [|done].
    destruct (check_expected_headers _EXPECTED_BIOPHYSICAL_HEADERS _ _);
      cbn [mbind res_bind]; [|done].
    by rewrite Hgeom. }
  split; [done|]. intros g. by eapply execute_parse_raises.
Qed.

Lemma non_polygon_farm_layer_is_rejected_witness :
  _parse_scenario_variables example_farm_files
    (example_farm_args (PyStr "roads.shp"))
  = Raise (ValueError FarmNotPolygon) ∧
  ∀ g, ∃ e, execute example_farm_files
              (example_farm_args (PyStr "roads.shp")) g = (Raise e, g).
Proof.
  assert (∃ t, read_tables example_farm_files
                 (delete "farm_vector_path"
                    (example_farm_args (PyStr "roads.shp"))) = Ok t)
    as [t Ht].
  { eexists. vm_compute. reflexivity. }
  apply (non_polygon_farm_layer_is_rejected example_farm_files
           (example_farm_args (PyStr "roads.shp")) "roads.shp" t);
    [reflexivity | done | reflexivity | exact Ht].
Defined.

(** ** Edge inputs of the parser *)

(** X13: without the guild table key the parser raises the [KeyError] of
    that key; with it and without the biophysical table key, the [KeyError]
    of the latter; with both keys and a guild table of no rows it raises
    [StopIteration]. *)
Theorem parser_missing_or_empty_tables (ext : collaborators)
    (args : gmap string pyval) :
  (args !! "guild_table_path" = None →
   _parse_scenario_variables ext args = Raise (KeyError "guild_table_path")) ∧
  (is_Some (args !! "guild_table_path") →
   args !! "landcover_biophysical_table_path" = None →
   _parse_scenario_variables ext args
     = Raise (KeyError "landcover_biophysical_table_path")) ∧
  (is_Some (args !! "guild_table_path") →
   is_Some (args !! "landcover_biophysical_table_path") →
   guild_table_of ext args = ∅ →
   _parse_scenario_variables ext args = Raise StopIteration).
Proof.
  unfold _parse_scenario_variables, read_tables, getitem, guild_table_of.
  repeat apply conj.
  - by intros ->.
  - by intros [gp ->] ->.
  - intros [gp ->] [bp ->]. simpl. intros ->.
    unfold first_row_keys. by rewrite map_to_list_empty.
Qed.

Lemma parser_missing_or_empty_tables_witness :
  _parse_scenario_variables example_files
    (delete "guild_table_path" (example_args "guild_table.csv"))
  = Raise (KeyError "guild_table_path").
Proof.
  apply (proj1 (parser_missing_or_empty_tables example_files
                  (delete "guild_table_path"
                     (example_args "guild_table.csv")))).
  reflexivity.
Defined.

(** ** The header patterns *)

Lemma string_app_assoc (a b c : string) : (a ++ b) ++ c = a ++ (b ++ c).
Proof.
  induction a as [|x a IH]; [done|].
  change (String x ((a ++ b) ++ c) = String x (a ++ (b ++ c))). by f_equal.
Qed.

Lemma string_app_nil_r (a : string) : a ++ "" = a.
Proof.
  induction a as [|x a IH]; [done|].
  change (String x (a ++ "") = String x a). by f_equal.
Qed.

Lemma strip_prefix_Some (p s rest : string) :
  strip_prefix p s = Some rest ↔ s = p ++ rest.
Proof.
  revert s. induction p as [|a p IH]; intros s; simpl.
  { split; [by intros [= ->] | by intros ->]. }
  destruct s as [|b s]; [done|].
  destruct (Ascii.eqb_spec a b) as [->|Hne].
  - rewrite IH. split; [by intros -> | by intros [= ->]].
  - split; [done | by intros [= ? ?]].
Qed.

Lemma span_group_spec (s g rest : string) :
  span_group s = (g, rest) →
  s = g ++ rest ∧ has_underscore g = false.
Proof.
  revert g rest. induction s as [|c s IH]; intros g rest; simpl.
  { by intros [= <- <-]. }
  destruct (Ascii.eqb c "_") eqn:Hc; [by intros [= <- <-]|].
  destruct (span_group s) as [g' rest']. intros [= <- <-].
  destruct (IH g' rest' eq_refl) as [-> Hg]. simpl. by rewrite Hc.
Qed.

Lemma span_group_name (name suffix : string) :
  has_underscore name = false →
  suffix = "" ∨ (∃ suffix', suffix = String "_" suffix') →
  span_group (name ++ suffix) = (name, suffix).
Proof.
  intros Hname Hsuffix. induction name as [|c name IH]; simpl in *.
  - by destruct Hsuffix as [->|[suffix' ->]].
  - apply orb_false_iff in Hname as [-> Hname]. by rewrite IH.
Qed.

Lemma re_match_matched_text (prefix suffix header group0 name : string) :
  re_match (OneGroup prefix suffix) header = Some (group0, name) →
  group0 = prefix ++ name ++ suffix.
Proof.
  simpl.
  destruct (strip_prefix prefix header) as [rest|]; simpl; [|done].
  destruct (span_group rest) as [g rest'].
  case_bool_decide; [done|].
  destruct (strip_prefix suffix rest') as [rest''|]; simpl; [|done].
  by intros [= <- <-].
Qed.

(** X14: a header pattern made of a prefix, the group [([^_]+)] and a
    suffix matches a header only with a group that is not empty and holds no
    underscore, the matched text is the prefix, the group and the suffix, and
    the header starts with it; conversely the header formatted from a name
    that is not empty and holds no underscore matches with that name as its
    group. *)
Theorem header_pattern_round_trip (prefix suffix : string) :
  (∀ header group0 name,
     re_match (OneGroup prefix suffix) header = Some (group0, name) →
     name ≠ "" ∧ has_underscore name = false ∧
     group0 = prefix ++ name ++ suffix ∧
     ∃ rest, header = group0 ++ rest) ∧
  (∀ name,
     name ≠ "" → has_underscore name = false →
     suffix = "" ∨ (∃ suffix', suffix = String "_" suffix') →
     re_match (OneGroup prefix suffix) (prefix ++ name ++ suffix)
       = Some (prefix ++ name ++ suffix, name)).
Proof.
  split.
  - intros header group0 name. simpl.
    destruct (strip_prefix prefix header) as [rest|] eqn:Hp; simpl; [|done].
    apply strip_prefix_Some in Hp as ->.
    destruct (span_group rest) as [g rest'] eqn:Hg.
    apply span_group_spec in Hg as [-> Hg].
    case_bool_decide as Hne; [done|].
    destruct (strip_prefix suffix rest') as [rest''|] eqn:Hs; simpl; [|done].
    apply strip_prefix_Some in Hs as ->. intros [= <- <-].
    repeat split; try done. exists rest''.
    by rewrite !string_app_assoc.
  - intros name Hne Hname Hsuffix. simpl.
    rewrite (proj2 (strip_prefix_Some prefix _ (name ++ suffix)) eq_refl).
    simpl. rewrite span_group_name by done.
    rewrite bool_decide_eq_false_2 by done.
    by rewrite (proj2 (strip_prefix_Some suffix suffix "")
                  (eq_sym (string_app_nil_r _))).
Qed.

Lemma header_pattern_round_trip_witness :
  re_match _FORAGING_ACTIVITY_RE_PATTERN
    (_FORAGING_ACTIVITY_PATTERN "spring")
  = Some (_FORAGING_ACTIVITY_PATTERN "spring", "spring").
Proof.
  apply (proj2 (header_pattern_round_trip "foraging_activity_" "_index")
           "spring"); [done | reflexivity | right; by eexists].
Defined.

(** ** The outcomes of [validate] *)

Lemma filter_missing_nil (args : gmap string pyval) (keys : list string) :
  Forall (λ key, is_Some (args !! key)) keys →
  filter (λ key, args !! key = None) keys = [].
Proof.
  induction 1 as [|key keys [v Hkey] _ IH]; [done|].
  rewrite filter_cons_False; [done|]. simpl. congruence.
Qed.

(** symbolic evaluation of [validate] without a [limit_to] on an [args] whose
    five values are known *)
Ltac validate_eval H1 H2 H3 H4 H5 :=
  unfold validate;
  change ["workspace_dir"; "landcover_raster_path"; "guild_table_path";
          "landcover_biophysical_table_path"; "farm_vector_path"]
    with required_keys;
  rewrite validate_first_loop; cbn [app];
  rewrite filter_missing_nil
    by (repeat constructor; simpl; rewrite ?H1, ?H2, ?H3, ?H4, ?H5; by eexists);
  rewrite (bool_decide_eq_false_2 (0 < length [])%nat) by (simpl; lia);
  cbn [fold_each limited]; unfold getitem;
  rewrite ?H1, ?H2, ?H3, ?H4, ?H5;
  cbn [mbind res_bind os_path_exists as_str negb].

Lemma validate_present_cases (d : disk) (args : gmap string pyval) :
  Forall (λ key, is_Some (args !! key)) required_keys →
  ((∃ key, key ∈ path_keys ∧ args !! key = Some PyNone) ∧
   validate d args None = Raise TypeError) ∨
  (Forall (λ key, ∃ path, args !! key = Some (PyStr path)) path_keys ∧
   ∃ validation_error_list, validate d args None = Ok validation_error_list).
Proof.
  intros Hall. apply Forall_cons in Hall as [[v1 H1] Hall].
  apply Forall_cons in Hall as [[v2 H2] Hall].
  apply Forall_cons in Hall as [[v3 H3] Hall].
  apply Forall_cons in Hall as [[v4 H4] Hall].
  apply Forall_cons in Hall as [[v5 H5] _].
  destruct v2 as [|s2].
  { left. split; [exists "landcover_raster_path"; split; [set_solver|done]|].
    by validate_eval H1 H2 H3 H4 H5. }
  destruct v3 as [|s3].
  { left. split; [exists "guild_table_path"; split; [set_solver|done]|].
    validate_eval H1 H2 H3 H4 H5. by destruct (path_exists d s2). }
  destruct v4 as [|s4].
  { left. split;
      [exists "landcover_biophysical_table_path"; split; [set_solver|done]|].
    validate_eval H1 H2 H3 H4 H5.
    by destruct (path_exists d s2), (path_exists d s3). }
  destruct v5 as [|s5].
  { left. split; [exists "farm_vector_path"; split; [set_solver|done]|].
    validate_eval H1 H2 H3 H4 H5.
    by destruct (path_exists d s2), (path_exists d s3), (path_exists d s4). }
  right. split.
  { repeat constructor; by eexists. }
  validate_eval H1 H2 H3 H4 H5.
  destruct (path_exists d s2), (path_exists d s3), (path_exists d s4),
    (path_exists d s5), (opens_as_raster d s2), (opens_as_vector d s5);
    cbn [mbind res_bind negb]; by eexists.
Qed.

Lemma validate_returns (d : disk) (args : gmap string pyval)
    (validation_error_list : list (list string * string)) :
  validate d args None = Ok validation_error_list →
  Forall (λ key, is_Some (args !! key)) required_keys ∧
  Forall (λ key, ∃ path, args !! key = Some (PyStr path)) path_keys.
Proof.
  intros Hvalid.
  destruct (decide (Forall (λ key, is_Some (args !! key)) required_keys))
    as [Hall|Hmissing].
  - destruct (validate_present_cases d args Hall) as [[_ Hraise]|[Hpaths _]];
      [congruence | done].
  - apply not_Forall_Exists in Hmissing; [|apply _].
    apply Exists_exists in Hmissing as (key & Hin & Hkey).
    unfold compose in Hkey.
    destruct (args !! key) as [v|] eqn:Hnone;
      [exfalso; apply Hkey; by exists v|].
    rewrite (validate_missing_keys d args key Hin Hnone) in Hvalid. done.
Qed.

(** X15: without a [limit_to], [validate] raises a [KeyError] exactly when
    one of the five keys is missing, raises a [TypeError] exactly when the
    five keys are present and one of the four path keys holds [None], and
    returns a list exactly when the five keys are present and the four path
    keys hold strings. *)
Theorem validate_outcomes (d : disk) (args : gmap string pyval) :
  ((∃ message, validate d args None = Raise (KeyError message)) ↔
   ∃ key, key ∈ required_keys ∧ args !! key = None) ∧
  (validate d args None = Raise TypeError ↔
   Forall (λ key, is_Some (args !! key)) required_keys ∧
   ∃ key, key ∈ path_keys ∧ args !! key = Some PyNone) ∧
  ((∃ validation_error_list,
      validate d args None = Ok validation_error_list) ↔
   Forall (λ key, is_Some (args !! key)) required_keys ∧
   Forall (λ key, ∃ path, args !! key = Some (PyStr path)) path_keys).
Proof.
  destruct (decide (Forall (λ key, is_Some (args !! key)) required_keys))
    as [Hall|Hmissing].
  - assert (¬ ∃ key, key ∈ required_keys ∧ args !! key = None) as Hnone.
    { intros (key & Hin & Hkey). rewrite Forall_forall in Hall.
      destruct (Hall key Hin) as [v Hv]. congruence. }
    destruct (validate_present_cases d args Hall)
      as [[(key & Hin & Hkey) Hraise]|[Hpaths [l Hl]]].
    + rewrite Hraise. split; [|split].
      * split; [by intros [message [=]] | by intros ?%Hnone].
      * split; [by eauto | done].
      * split; [by intros [l [=]]|]. intros [_ Hpaths].
        rewrite Forall_forall in Hpaths.
        destruct (Hpaths key Hin) as [path Hpath]. congruence.
    + rewrite Hl. split; [|split].
      * split; [by intros [message [=]] | by intros ?%Hnone].
      * split; [done|]. intros (_ & key & Hin & Hkey).
        rewrite Forall_forall in Hpaths.
        destruct (Hpaths key Hin) as [path Hpath]. congruence.
      * split; [done | by eauto].
  - assert (∃ key, key ∈ required_keys ∧ args !! key = None)
      as (key & Hin & Hnone).
    { apply not_Forall_Exists in Hmissing; [|apply _].
      apply Exists_exists in Hmissing as (key & Hin & Hkey).
      exists key. split; [done|].
      unfold compose in Hkey.
      destruct (args !! key) as [v|]; [|done]. exfalso. apply Hkey. by exists v. }
    rewrite (validate_missing_keys d args key Hin Hnone). split; [|split].
    * split; [by eauto | by eexists].
    * split; [done | by intros [? _]].
    * split; [by intros [l [=]] | by intros [? _]].
Qed.

Lemma filter_no_value_nil (args : gmap string pyval) (keys : list string) :
  filter (λ key, args !! key = Some (PyStr "") ∨ args !! key = Some PyNone)
    keys = [] ↔
  Forall (λ key, args !! key ≠ Some (PyStr "") ∧ args !! key ≠ Some PyNone)
    keys.
Proof.
  induction keys as [|key keys IH]; [done|].
  rewrite Forall_cons, <- IH.
  destruct (decide (args !! key = Some (PyStr "") ∨ args !! key = Some PyNone))
    as [Hkey|Hkey].
  - rewrite filter_cons_True by done. split; [done|]. intros [[? ?] _].
    by destruct Hkey.
  - rewrite filter_cons_False by done. split; [|by intros [_ ?]].
    intros Hnil. split; [|done]. split; intros ?; apply Hkey; auto.
Qed.

(** X16: without a [limit_to], [validate] returns the empty list exactly
    when the five keys hold strings other than [''], the four paths exist on
    disk, the landcover raster opens as a raster and the farm vector opens
    as a vector. *)
Theorem validate_accepts_exactly_well_formed_args (d : disk)
    (args : gmap string pyval) :
  validate d args None = Ok [] ↔
  Forall (λ key, ∃ value, args !! key = Some (PyStr value) ∧ value ≠ "")
    required_keys ∧
  Forall (λ key, ∃ path, args !! key = Some (PyStr path) ∧
                         path_exists d path = true) path_keys ∧
  (∃ path, args !! "landcover_raster_path" = Some (PyStr path) ∧
           opens_as_raster d path = true) ∧
  (∃ path, args !! "farm_vector_path" = Some (PyStr path) ∧
           opens_as_vector d path = true).
Proof.
  split.
  - intros Hvalid.
    destruct (validate_returns d args [] Hvalid) as [Hall Hpaths].
    apply Forall_cons in Hall as [[v1 H1] _].
    apply Forall_cons in Hpaths as [[s2 H2] Hpaths].
    apply Forall_cons in Hpaths as [[s3 H3] Hpaths].
    apply Forall_cons in Hpaths as [[s4 H4] Hpaths].
    apply Forall_cons in Hpaths as [[s5 H5] _].
    revert Hvalid. validate_eval H1 H2 H3 H4 H5.
    destruct (filter _ required_keys) as [|key no_value_list] eqn:Hno_value;
      cbn [length];
      [|rewrite bool_decide_eq_true_2 by lia;
        by destruct (path_exists d s2), (path_exists d s3),
             (path_exists d s4), (path_exists d s5), (opens_as_raster d s2),
             (opens_as_vector d s5)].
    rewrite bool_decide_eq_false_2 by lia.
    apply filter_no_value_nil in Hno_value.
    apply Forall_cons in Hno_value as [[Hv1 Hn1] Hno_value].
    apply Forall_cons in Hno_value as [[Hv2 _] Hno_value].
    apply Forall_cons in Hno_value as [[Hv3 _] Hno_value].
    apply Forall_cons in Hno_value as [[Hv4 _] Hno_value].
    apply Forall_cons in Hno_value as [[Hv5 _] _].
    destruct v1 as [|s1]; [congruence|].
    destruct (path_exists d s2) eqn:He2, (path_exists d s3) eqn:He3,
      (path_exists d s4) eqn:He4, (path_exists d s5) eqn:He5,
      (opens_as_raster d s2) eqn:Hr, (opens_as_vector d s5) eqn:Hv;
      cbn [mbind res_bind negb app]; try done.
    intros _. split; [|split; [|split]].
    + repeat constructor; eexists; (split; [done|]); congruence.
    + repeat constructor; by eexists.
    + by exists s2.
    + by exists s5.
  - intros (Hall & Hpaths & (s2' & H2' & Hr) & (s5' & H5' & Hv)).
    apply Forall_cons in Hall as [(s1 & H1 & Hs1) Hall].
    apply Forall_cons in Hall as [(s2 & H2 & Hs2) Hall].
    apply Forall_cons in Hall as [(s3 & H3 & Hs3) Hall].
    apply Forall_cons in Hall as [(s4 & H4 & Hs4) Hall].
    apply Forall_cons in Hall as [(s5 & H5 & Hs5) _].
    apply Forall_cons in Hpaths as [(? & ? & He2) Hpaths].
    apply Forall_cons in Hpaths as [(? & ? & He3) Hpaths].
    apply Forall_cons in Hpaths as [(? & ? & He4) Hpaths].
    apply Forall_cons in Hpaths as [(? & ? & He5) _].
    simplify_eq.
    validate_eval H1 H2 H3 H4 H5.
    rewrite (proj2 (filter_no_value_nil args required_keys)).
    + rewrite (bool_decide_eq_false_2 (0 < length [])%nat) by (simpl; lia).
      by rewrite He2, He3, He4, He5, Hr, Hv.
    + repeat constructor; congruence.
Qed.

(** X17: a path that is not found on disk is reported once for the guild
    and biophysical tables, and twice, with the same message, for the
    landcover raster and for the farm vector. *)
Theorem validate_reports_a_missing_file (d : disk) (args : gmap string pyval)
    (key path : string) :
  is_Some (args !! "workspace_dir") →
  Forall (λ key, ∃ path, args !! key = Some (PyStr path)) path_keys →
  key ∈ path_keys → args !! key = Some (PyStr path) →
  path_exists d path = false →
  ∃ validation_error_list,
    validate d args None = Ok validation_error_list ∧
    length (filter (λ error, error = ([key], "not found on disk"))
              validation_error_list) =
      if bool_decide (key ∈ ["landcover_raster_path"; "farm_vector_path"])
      then 2%nat else 1%nat.
Proof.
  intros [v1 H1] Hpaths Hkey Hpath Hexists.
  apply Forall_cons in Hpaths as [[s2 H2] Hpaths].
  apply Forall_cons in Hpaths as [[s3 H3] Hpaths].
  apply Forall_cons in Hpaths as [[s4 H4] Hpaths].
  apply Forall_cons in Hpaths as [[s5 H5] _].
  validate_eval H1 H2 H3 H4 H5.
  set (no_value_list := filter _ required_keys).
  assert (∀ error_list : list (list string * string),
            filter (λ error, error = ([key], "not found on disk"))
              ((if bool_decide (0 < length no_value_list)%nat
                then [(no_value_list, "parameter has no value")] else [])
               ++ error_list)%list
            = filter (λ error, error = ([key], "not found on disk"))
                error_list) as Hfirst.
  { intros error_list. case_bool_decide; [|done].
    cbn [app]. by rewrite filter_cons_False by (by intros [= _ ?]). }
  unfold path_keys in Hkey.
  repeat (apply elem_of_cons in Hkey as [->|Hkey]);
    [| | | |by apply elem_of_nil in Hkey];
    simplify_eq; rewrite Hexists;
    repeat match goal with
           | |- context [path_exists d ?s] => destruct (path_exists d s)
           | |- context [opens_as_raster d ?s] => destruct (opens_as_raster d s)
           | |- context [opens_as_vector d ?s] => destruct (opens_as_vector d s)
           end;
    cbn [mbind res_bind negb]; eexists; (split; [reflexivity|]);
    rewrite <- ?app_assoc, ?Hfirst;
    try (rewrite <- (app_nil_r (if bool_decide _ then _ else _)), Hfirst);
    reflexivity.
Qed.

(** X18: limited to a key of [args] other than the five it knows,
    [validate] looks at nothing and returns the empty list, whatever
    [args] holds. *)
Theorem validate_limited_to_another_key (d : disk) (args : gmap string pyval)
    (limit_to : string) :
  is_Some (args !! limit_to) → limit_to ∉ required_keys →
  validate d args (Some limit_to) = Ok [].
Proof.
  intros _ Hother. unfold validate.
  assert (∀ key, key ∈ required_keys → limited (Some limit_to) key = false)
    as Hlimited.
  { intros key Hin. apply bool_decide_eq_false_2. by intros ->. }
  cbn [foldl fold_each].
  rewrite !Hlimited by (unfold required_keys; set_solver).
  rewrite (bool_decide_eq_false_2 (0 < length [])%nat) by (simpl; lia).
  cbn [mbind res_bind].
  by destruct (args !! "landcover_raster_path"), (args !! "farm_vector_path").
Qed.

Lemma validate_limited_to_another_key_witness :
  validate {| path_exists := λ _, false; opens_as_raster := λ _, false;
              opens_as_vector := λ _, false |}
    (<["results_suffix" := PyStr "test"]> (example_args "guild_table.csv"))
    (Some "results_suffix")
  = Ok [].
Proof.
  apply (validate_limited_to_another_key _
           (<["results_suffix" := PyStr "test"]>
              (example_args "guild_table.csv")) "results_suffix").
  - by eexists.
  - unfold required_keys. set_solver.
Defined.

Lemma validate_outcomes_witness :
  ∃ validation_error_list,
    validate example_disk (example_farm_args (PyStr "farms.shp")) None
    = Ok validation_error_list.
Proof.
  apply (proj2 (proj2 (proj2 (validate_outcomes example_disk
                                (example_farm_args (PyStr "farms.shp")))))).
  split; repeat constructor; by eexists.
Defined.

Lemma validate_accepts_exactly_well_formed_args_witness :
  validate example_disk (example_farm_args (PyStr "farms.shp")) None = Ok [].
Proof.
  apply (proj2 (validate_accepts_exactly_well_formed_args example_disk
                  (example_farm_args (PyStr "farms.shp")))).
  split; [|split; [|split]].
  - repeat constructor; eexists; by split.
  - repeat constructor; eexists; by split.
  - by eexists.
  - by eexists.
Defined.

Lemma validate_reports_a_missing_file_witness :
  ∃ validation_error_list,
    validate disk_without_landcover (example_farm_args (PyStr "farms.shp"))
      None = Ok validation_error_list ∧
    length (filter (λ error,
                      error = (["landcover_raster_path"], "not found on disk"))
              validation_error_list) = 2%nat.
Proof.
  apply (validate_reports_a_missing_file disk_without_landcover
           (example_farm_args (PyStr "farms.shp")) "landcover_raster_path"
           "landcover.tif").
  - by eexists.
  - repeat constructor; by eexists.
  - unfold path_keys. set_solver.
  - reflexivity.
  - reflexivity.
Defined.

(** ** Well-formed task graphs *)

#[global] Instance mono_task_id : BoundedMono nat.
Proof. intros n n' t Hle Ht. unfold bounded, bounded_task_id in *. lia. Qed.
#[global] Instance mono_unit : BoundedMono unit.
Proof. done. Qed.
#[global] Instance mono_string : BoundedMono string.
Proof. done. Qed.
#[global] Instance mono_pyval : BoundedMono pyval.
Proof. done. Qed.
#[global] Instance mono_fnum : BoundedMono fnum.
Proof. done. Qed.
#[global] Instance mono_Qc : BoundedMono Qc.
Proof. done. Qed.
#[global] Instance mono_scenario : BoundedMono scenario_variables.
Proof. done. Qed.
#[global] Instance mono_closure :
  BoundedMono _CalculateHabitatNestingIndex.self.
Proof. done. Qed.
#[global] Instance mono_list {A} `{BoundedMono A} : BoundedMono (list A).
Proof.
  intros n n' l Hle Hl. unfold bounded, bounded_list in *.
  eapply Forall_impl; [done|]. intros a. by apply bounded_mono.
Qed.
#[global] Instance mono_option {A} `{BoundedMono A} : BoundedMono (option A).
Proof.
  intros n n' [a|] Hle Ha; [|done].
  change (bounded n a) in Ha. change (bounded n' a). by eapply bounded_mono.
Qed.
#[global] Instance mono_prod {A B} `{BoundedMono A} `{BoundedMono B}
  : BoundedMono (A * B).
Proof.
  intros n n' [a b] Hle [Ha Hb]. simpl in Ha, Hb.
  split; simpl; by eapply bounded_mono.
Qed.
#[global] Instance mono_map {K} `{Countable K} {V} `{BoundedMono V}
  : BoundedMono (gmap K V).
Proof.
  intros n n' m Hle Hm k v Hk. eapply bounded_mono; [done|]. by eapply Hm.
Qed.

Lemma bounded_insert {K} `{Countable K} {V} `{Bounded V} (n : nat)
    (m : gmap K V) (k : K) (v : V) :
  bounded n v → bounded n m → bounded n (<[k := v]> m).
Proof.
  intros Hv Hm k' v'. destruct (decide (k' = k)) as [->|Hne].
  - rewrite lookup_insert_eq. by intros [= <-].
  - rewrite lookup_insert_ne by done. apply Hm.
Qed.

Lemma bounded_empty {K} `{Countable K} {V} `{Bounded V} (n : nat) :
  bounded n (∅ : gmap K V).
Proof. intros k v. by rewrite lookup_empty. Qed.

Lemma bounded_lookup_or_raise {K} `{Countable K} {V} `{Bounded V} (n : nat)
    (m : gmap K V) (k : K) (name : string) (v : V) :
  bounded n m → lookup_or_raise m k name = Ok v → bounded n v.
Proof.
  intros Hm. unfold lookup_or_raise.
  destruct (m !! k) as [v'|] eqn:Hk; [|done]. intros [= <-]. by eapply Hm.
Qed.

Lemma bounded_mapM_lookup {A K} `{Countable K} {V} `{Bounded V} (n : nat)
    (m : gmap K V) (key : A → K) (name : A → string) (l : list A)
    (vs : list V) :
  bounded n m →
  mapM (λ a, lookup_or_raise m (key a) (name a)) l = Ok vs → bounded n vs.
Proof.
  intros Hm Hvs%res_mapM_Forall2. unfold bounded, bounded_list.
  induction Hvs as [|a v l vs Hv _ IH]; constructor; [|done].
  by eapply bounded_lookup_or_raise.
Qed.

Lemma bounded_values {K} `{Countable K} {V} `{Bounded V} (n : nat)
    (m : gmap K V) :
  bounded n m → bounded n (map_to_list m).*2.
Proof.
  intros Hm. apply Forall_forall. intros v [[k v'] [-> Hin]]%list_elem_of_fmap.
  apply elem_of_map_to_list in Hin. by eapply Hm.
Qed.

Lemma bounded_Some {A} `{Bounded A} (n : nat) (a : A) :
  bounded n a → bounded n (Some a).
Proof. done. Qed.

Lemma bounded_snoc {A} `{Bounded A} (n : nat) (l : list A) (a : A) :
  bounded n l → bounded n a → bounded n (l ++ [a])%list.
Proof. intros Hl Ha. apply Forall_app. split; [done | by constructor]. Qed.

Section rules.

Context (P : task → Prop).

Lemma sound_ret {A} `{Bounded A} (n : nat) (a : A) :
  (∀ n', (n ≤ n')%nat → bounded n' a) → sound P n (mret a : graph A).
Proof.
  intros Ha g r g' Hwf Hn [= <- <-]. split; [done|]. split; [lia|].
  intros a' [= <-]. by apply Ha.
Qed.

Lemma sound_lift {A} `{Bounded A} (n : nat) (r : res A) :
  (∀ a n', r = Ok a → (n ≤ n')%nat → bounded n' a) → sound P n (lift r).
Proof.
  intros Ha g r' g' Hwf Hn [= <- <-]. split; [done|]. split; [lia|].
  intros a ->. by apply Ha.
Qed.

Lemma sound_add_task (n : nat) (f : callable) (targets : list string)
    (deps : list nat) :
  P {| func := f; target_path_list := targets; dependent_task_list := deps |} →
  bounded n deps →
  sound P n (add_task f targets deps).
Proof.
  intros HP Hdeps g r g' Hwf Hn [= <- <-]. rewrite length_app. simpl.
  split; [|split; [lia|]].
  - intros i t Hi. apply lookup_app_Some in Hi as [Hi|[Hge Hi]].
    + by apply Hwf.
    + apply list_lookup_singleton_Some in Hi as [Hi <-]. split; [done|].
      simpl. eapply (bounded_mono n); [lia | done].
  - intros a [= <-]. unfold bounded, bounded_task_id. lia.
Qed.

Lemma sound_bind {A B} `{Bounded A} `{Bounded B} (n : nat) (m : graph A)
    (k : A → graph B) :
  sound P n m →
  (∀ a n', (n ≤ n')%nat → bounded n' a → sound P n' (k a)) →
  sound P n (m ≫= k).
Proof.
  intros Hm Hk g r g' Hwf Hn. unfold mbind, graph_bind, gbind.
  destruct (m g) as [[a|e] g1] eqn:Hmg.
  - destruct (Hm g _ g1 Hwf Hn Hmg) as (Hwf1 & Hlen1 & Ha).
    intros Hka.
    destruct (Hk a (length g1) ltac:(lia) (Ha a eq_refl) g1 r g' Hwf1
                ltac:(lia) Hka) as (Hwf' & Hlen' & Hb).
    split; [done|]. split; [lia | done].
  - intros [= <- <-].
    destruct (Hm g _ g1 Hwf Hn Hmg) as (Hwf1 & Hlen1 & _). split; [done|]. split; [lia | done].
Qed.

Lemma sound_gfold {A B} `{BoundedMono B} (n : nat) (body : B → A → graph B)
    (l : list A) :
  (∀ acc a n', (n ≤ n')%nat → bounded n' acc → sound P n' (body acc a)) →
  ∀ acc, bounded n acc → sound P n (gfold body acc l).
Proof.
  intros Hbody. revert n Hbody.
  induction l as [|a l IH]; intros n Hbody acc Hacc; simpl.
  - intros g r g' Hwf Hn [= <- <-]. split; [done|]. split; [lia|].
    intros a' [= <-]. by eapply bounded_mono.
  - intros g r g' Hwf Hn. unfold gbind.
    destruct (body acc a g) as [[acc'|e] g1] eqn:Hb.
    + destruct (Hbody acc a n ltac:(lia) Hacc g _ g1 Hwf Hn Hb)
        as (Hwf1 & Hlen1 & Hacc').
      intros Hrest.
      destruct (IH (length g1)
                  (λ acc a n' Hle, Hbody acc a n' ltac:(lia))
                  acc' (Hacc' acc' eq_refl) g1 r g' Hwf1 ltac:(lia) Hrest)
        as (Hwf' & Hlen' & Hr).
      split; [done|]. split; [lia | done].
    + intros [= <- <-].
      destruct (Hbody acc a n ltac:(lia) Hacc g _ g1 Hwf Hn Hb)
        as (Hwf1 & Hlen1 & _). split; [done|]. split; [lia | done].
Qed.

End rules.

#[global] Instance no_ids_unit : NoIds unit.
Proof. done. Qed.
#[global] Instance no_ids_string : NoIds string.
Proof. done. Qed.
#[global] Instance no_ids_pyval : NoIds pyval.
Proof. done. Qed.
#[global] Instance no_ids_fnum : NoIds fnum.
Proof. done. Qed.
#[global] Instance no_ids_Qc : NoIds Qc.
Proof. done. Qed.
#[global] Instance no_ids_scenario : NoIds scenario_variables.
Proof. done. Qed.
#[global] Instance no_ids_closure : NoIds _CalculateHabitatNestingIndex.self.
Proof. done. Qed.
#[global] Instance no_ids_list {A} `{NoIds A} : NoIds (list A).
Proof. intros n l. apply Forall_forall. intros a _. apply no_ids. Qed.
#[global] Instance no_ids_prod {A B} `{NoIds A} `{NoIds B} : NoIds (A * B).
Proof. intros n [a b]. split; apply no_ids. Qed.
#[global] Instance no_ids_map {K} `{Countable K} {V} `{NoIds V}
  : NoIds (gmap K V).
Proof. intros n m k v _. apply no_ids. Qed.

Section more_rules.

Context (P : task → Prop).

(** a lifted computation hands its result to the rest, which may use what
    it returned *)
Lemma sound_bind_lift {A B} `{Bounded B} (n : nat) (r : res A)
    (k : A → graph B) :
  (∀ a, r = Ok a → sound P n (k a)) → sound P n (lift r ≫= k).
Proof.
  intros Hk g r' g' Hwf Hn. unfold mbind, graph_bind, gbind, lift.
  destruct r as [a|e].
  - by apply Hk.
  - intros [= <- <-]. split; [done|]. split; [lia | done].
Qed.

Lemma sound_bind_ret {A B} `{Bounded B} (n : nat) (a : A) (k : A → graph B) :
  sound P n (k a) → sound P n (mret a ≫= k).
Proof. intros Hk g r' g' Hwf Hn. by apply Hk. Qed.

Lemma sound_gret {A} `{Bounded A} (n : nat) (a : A) :
  (∀ n', (n ≤ n')%nat → bounded n' a) → sound P n (gret a).
Proof. apply sound_ret. Qed.

Lemma sound_mono {A} `{Bounded A} (n n' : nat) (m : graph A) :
  (n ≤ n')%nat → sound P n m → sound P n' m.
Proof. intros Hle Hm g r g' Hwf Hn. apply Hm; [done | lia]. Qed.

End more_rules.

Lemma inside_refl (workspace_dir : string) : inside workspace_dir workspace_dir.
Proof. exists "". by rewrite string_app_nil_r. Qed.

Lemma inside_join (workspace_dir dir name : string) :
  inside workspace_dir dir → starts_with_slash name = false →
  inside workspace_dir (os_path_join dir name).
Proof.
  intros [rest ->] Hname. unfold os_path_join. rewrite Hname.
  destruct (_ || _); eexists; by rewrite string_app_assoc.
Qed.

(** lifts the bounds in scope to the current length of the graph *)
Ltac upgrade :=
  repeat match goal with
         | Hle : (?n ≤ ?n')%nat, H : bounded ?n ?x |- _ =>
             apply (bounded_mono n n' x Hle) in H
         end;
  repeat match goal with Hle : (_ ≤ _)%nat |- _ => clear Hle end.

Ltac bounded_solve :=
  lazymatch goal with
  | |- bounded _ (_, _) => split; cbn [fst snd]; bounded_solve
  | |- bounded _ (<[_ := _]> _) => apply bounded_insert; bounded_solve
  | |- bounded _ (_ ++ [_])%list => apply bounded_snoc; bounded_solve
  | |- bounded _ (_ :: _) => constructor; bounded_solve
  | |- bounded _ [] => constructor
  | |- Forall _ (_ :: _) => constructor; bounded_solve
  | |- Forall _ [] => constructor
  | |- bounded _ ∅ => apply bounded_empty
  | |- bounded _ (Some _) => apply bounded_Some; bounded_solve
  | |- _ =>
      first [ assumption
            | apply no_ids
            | match goal with
              | H : lookup_or_raise _ _ _ = Ok ?v |- bounded _ ?v =>
                  eapply bounded_lookup_or_raise; [|exact H]; assumption
              | H : mapM _ _ = Ok ?vs |- bounded _ ?vs =>
                  eapply bounded_mapM_lookup; [|exact H]; assumption
              end
            | apply bounded_values; assumption ]
  end.

Ltac task_ok_solve :=
  split;
  [ eexists; split; [reflexivity|];
    first [ assumption
          | apply inside_join; [assumption | reflexivity] ]
  | first [ by intros _ | intros; congruence ] ].

(** decomposes a pipeline computation and leaves what has to be shown of
    each registered task *)
(** splits the bounds of the pairs in scope *)
Ltac split_bounds :=
  repeat match goal with
         | H : bounded ?n (Some ?a) |- _ => change (bounded n a) in H
         | H : bounded ?n (?a, ?b) |- _ =>
             let H1 := fresh "Hb" in
             let H2 := fresh "Hb" in
             destruct H as [H1 H2];
             change (bounded n a) in H1; change (bounded n b) in H2
         end.

Ltac sound_step :=
  lazymatch goal with
  | |- sound _ _ (lift _ ≫= _) => apply sound_bind_lift; intros ? ?
  | |- sound _ _ (mret _ ≫= _) => apply sound_bind_ret
  | |- sound _ _ (add_task _ _ _ ≫= _) =>
      eapply sound_bind;
        [ apply sound_add_task; [task_ok_solve | upgrade; bounded_solve]
        | intros ? ? ? ?; upgrade ]
  | |- sound _ _ (gret _) => apply sound_gret; intros ? ?; upgrade; bounded_solve
  | |- sound _ _ (mret _) => apply sound_ret; intros ? ?; upgrade; bounded_solve
  | |- sound _ _ (let '(_, _) := ?p in _) => destruct p; split_bounds
  | |- sound _ _ ((let '(_, _) := ?p in _) _) =>
      destruct p; split_bounds; cbv beta
  | |- sound _ _ _ => progress cbv beta iota zeta
  end.

(** a loop: the accumulator stays bounded *)
Ltac sound_loop :=
  apply sound_gfold; [apply _ | intros ? ? ? ? ?; upgrade | bounded_solve].

Section soundness.

Context (workspace_dir : string) (farm : bool).

Lemma sound_nesting_substrate_tasks sv landcover_raster_path dir suffix n :
  inside workspace_dir dir →
  sound (task_ok workspace_dir farm) n
    (nesting_substrate_tasks sv landcover_raster_path dir suffix).
Proof.
  intros Hdir. unfold nesting_substrate_tasks. sound_loop.
  repeat sound_step.
Qed.

Lemma sound_farm_nesting_substrate_tasks sv paths tasks farm_vector_path
    reproject dir suffix n :
  farm = true → inside workspace_dir dir →
  bounded n tasks → bounded n reproject →
  sound (task_ok workspace_dir farm) n
    (farm_nesting_substrate_tasks sv paths tasks farm_vector_path reproject
       dir suffix).
Proof.
  intros Hfarm Hdir Htasks Hreproject. unfold farm_nesting_substrate_tasks.
  sound_loop. repeat sound_step.
Qed.

Lemma sound_habitat_nesting_index_tasks sv substrate_path_map
    dependent_task_list dir suffix n :
  inside workspace_dir dir → bounded n dependent_task_list →
  sound (task_ok workspace_dir farm) n
    (habitat_nesting_index_tasks sv substrate_path_map dependent_task_list
       dir suffix).
Proof.
  intros Hdir Hdeps. unfold habitat_nesting_index_tasks.
  sound_loop. repeat sound_step.
Qed.

Lemma sound_relative_floral_abundance_tasks sv landcover_raster_path
    farm_vector dir suffix n :
  inside workspace_dir dir →
  match farm_vector with
  | Some (_, reproject) => farm = true ∧ bounded n reproject
  | None => True
  end →
  sound (task_ok workspace_dir farm) n
    (relative_floral_abundance_tasks sv landcover_raster_path farm_vector
       dir suffix).
Proof.
  intros Hdir Hfarm. unfold relative_floral_abundance_tasks.
  destruct farm_vector as [[path reproject]|].
  - destruct Hfarm as [Hfarm Hreproject]. sound_loop. repeat sound_step.
  - sound_loop. repeat sound_step.
Qed.

Lemma sound_foraged_flowers_tasks sv paths tasks dir suffix n :
  inside workspace_dir dir → bounded n tasks →
  sound (task_ok workspace_dir farm) n
    (foraged_flowers_tasks sv paths tasks dir suffix).
Proof.
  intros Hdir Htasks. unfold foraged_flowers_tasks.
  sound_loop. sound_loop. repeat sound_step.
Qed.

Lemma species_kernel_inside sv info dir suffix species alpha kernel_path :
  inside workspace_dir dir →
  species_kernel sv info dir suffix species = Ok (alpha, kernel_path) →
  inside workspace_dir kernel_path.
Proof.
  intros Hdir. unfold species_kernel.
  destruct (lookup_or_raise _ _ _); cbn [mbind res_bind]; [|done].
  case_bool_decide; cbn [mbind res_bind]; [done|]. intros [= _ <-].
  by apply inside_join.
Qed.

Lemma sound_species_tasks sv info ffp fft hnp hnt dir out suffix acc species n :
  inside workspace_dir dir → inside workspace_dir out →
  bounded n fft → bounded n hnt → bounded n acc →
  sound (task_ok workspace_dir farm) n
    (species_tasks sv info ffp fft hnp hnt dir out suffix acc species).
Proof.
  intros Hdir Hout Hfft Hhnt Hacc. unfold species_tasks.
  repeat sound_step.
  (* the kernel raster lies in the intermediate directory *)
  match goal with
  | H : species_kernel _ _ _ _ _ = Ok _ |- _ =>
      pose proof (species_kernel_inside _ _ _ _ _ _ _ Hdir H)
  end.
  repeat sound_step. sound_loop. repeat sound_step.
Qed.

Lemma sound_pollinator_abundance_tasks sv info ffp fft hnp hnt dir out suffix n :
  inside workspace_dir dir → inside workspace_dir out →
  bounded n fft → bounded n hnt →
  sound (task_ok workspace_dir farm) n
    (pollinator_abundance_tasks sv info ffp fft hnp hnt dir out suffix).
Proof.
  intros Hdir Hout Hfft Hhnt. unfold pollinator_abundance_tasks.
  sound_loop. by apply sound_species_tasks.
Qed.

Lemma sound_farm_yield_tasks sv landcover_raster_path pap pat farm_vector_path
    reproject dir out suffix n :
  farm = true → inside workspace_dir dir → inside workspace_dir out →
  bounded n pat → bounded n reproject →
  sound (task_ok workspace_dir farm) n
    (farm_yield_tasks sv landcover_raster_path pap pat farm_vector_path
       reproject dir out suffix).
Proof.
  intros Hfarm Hdir Hout Hpat Hreproject. unfold farm_yield_tasks.
  sound_step. eapply sound_bind.
  { sound_loop. repeat sound_step. }
  intros [paths tasks] ? ? ?. upgrade. split_bounds.
  repeat sound_step.
Qed.

End soundness.

(** a call of one of the loops of the pipeline *)
Ltac sound_call :=
  first
    [ apply sound_nesting_substrate_tasks
    | apply sound_farm_nesting_substrate_tasks
    | apply sound_habitat_nesting_index_tasks
    | apply sound_relative_floral_abundance_tasks
    | apply sound_foraged_flowers_tasks
    | apply sound_pollinator_abundance_tasks
    | apply sound_farm_yield_tasks ];
  first
    [ assumption | reflexivity | bounded_solve
    | lazymatch goal with
      | |- match ?o with Some _ => _ | None => _ end =>
          destruct o as [[? ?]|]; split_bounds;
          [split; [reflexivity | assumption] | exact I]
      end ].

Ltac sound_pipeline_step :=
  first
    [ sound_step
    | sound_call
    | lazymatch goal with
      | |- sound _ _ (match ?o with Some _ => _ | None => _ end) =>
          destruct o as [[? ?]|]; split_bounds
      | |- sound _ _ (_ ≫= _) =>
          eapply sound_bind; [|intros ? ? ? ?; upgrade; split_bounds]
      end ].

Ltac sound_pipeline := repeat sound_pipeline_step.

Lemma sound_execute (ext : collaborators) (args : gmap string pyval)
    (workspace_dir : string) :
  args !! "workspace_dir" = Some (PyStr workspace_dir) →
  sound (task_ok workspace_dir (farm_requested args)) 0 (execute ext args).
Proof.
  intros Hws. unfold execute, farm_requested.
  apply sound_bind_lift. intros ws Hlookup.
  assert (ws = workspace_dir) as ->.
  { unfold getitem in Hlookup. rewrite Hws in Hlookup. by injection Hlookup. }
  pose proof (inside_refl workspace_dir) as Hout.
  pose proof (inside_join workspace_dir workspace_dir "intermediate_outputs"
                Hout eq_refl) as Hdir.
  cbv zeta.
  destruct (args !! "farm_vector_path") as [v|] eqn:Hfarm;
    [destruct (decide (v ≠ PyStr "")) as [Hv|Hv];
       [rewrite !(bool_decide_eq_true_2 (v ≠ PyStr "")) by done
       |rewrite !(bool_decide_eq_false_2 (v ≠ PyStr "")) by done]|].
  - sound_pipeline.
  - sound_pipeline.
  - sound_pipeline.
Qed.

Lemma execute_without_workspace (ext : collaborators)
    (args : gmap string pyval) (g g' : list task) (r : res unit) :
  (∀ workspace_dir, args !! "workspace_dir" ≠ Some (PyStr workspace_dir)) →
  execute ext args g = (r, g') → g' = g.
Proof.
  intros Hws. unfold execute, getitem.
  cbn [mbind graph_bind gbind lift].
  destruct (args !! "workspace_dir") as [[|workspace_dir]|] eqn:Hdir;
    cbn [mbind res_bind as_str]; try by intros [= _ <-].
  by destruct (Hws workspace_dir).
Qed.

Lemma well_formed_nil (P : task → Prop) : well_formed P [].
Proof. intros i t. by rewrite lookup_nil. Qed.

Lemma execute_well_formed (ext : collaborators) (args : gmap string pyval)
    (workspace_dir : string) (r : res unit) (g : list task) :
  args !! "workspace_dir" = Some (PyStr workspace_dir) →
  execute ext args [] = (r, g) →
  well_formed (task_ok workspace_dir (farm_requested args)) g.
Proof.
  intros Hws Hrun.
  by destruct (sound_execute ext args workspace_dir Hws [] r g
                 (well_formed_nil _) ltac:(simpl; lia) Hrun) as [Hwf _].
Qed.

(** X19: in the graph [execute] builds, whether it returns or raises,
    every task depends only on tasks registered before it. *)
Theorem task_graph_is_acyclic (ext : collaborators)
    (args : gmap string pyval) (r : res unit) (g : list task) :
  execute ext args [] = (r, g) →
  ∀ i t, g !! i = Some t →
    Forall (λ dependency, (dependency < i)%nat) (dependent_task_list t).
Proof.
  intros Hrun i t Hi.
  destruct (args !! "workspace_dir") as [[|workspace_dir]|] eqn:Hws.
  - apply execute_without_workspace in Hrun as ->; [|congruence].
    by rewrite lookup_nil in Hi.
  - by destruct (execute_well_formed ext args workspace_dir r g Hws Hrun i t Hi).
  - apply execute_without_workspace in Hrun as ->; [|congruence].
    by rewrite lookup_nil in Hi.
Qed.

(** X20: every task [execute] registers has exactly one target path, and
    that path starts with the workspace directory. *)
Theorem every_target_is_inside_the_workspace (ext : collaborators)
    (args : gmap string pyval) (workspace_dir : string) (r : res unit)
    (g : list task) :
  args !! "workspace_dir" = Some (PyStr workspace_dir) →
  execute ext args [] = (r, g) →
  ∀ t, t ∈ g →
    ∃ path, target_path_list t = [path] ∧ inside workspace_dir path.
Proof.
  intros Hws Hrun t [i Hi]%list_elem_of_lookup.
  by destruct (execute_well_formed ext args workspace_dir r g Hws Hrun i t Hi)
    as [[Hpath _] _].
Qed.

(** X21: when [args] has no farm vector path, or the empty one, [execute]
    registers no reprojection, no rasterization of a farm field, no blank
    raster and no on-farm abundance or yield kernel. *)
Theorem no_farm_task_without_a_farm_vector (ext : collaborators)
    (args : gmap string pyval) (r : res unit) (g : list task) :
  farm_requested args = false →
  execute ext args [] = (r, g) →
  ∀ t, t ∈ g → landscape_only (func t).
Proof.
  intros Hfarm Hrun t [i Hi]%list_elem_of_lookup.
  destruct (args !! "workspace_dir") as [[|workspace_dir]|] eqn:Hws.
  - apply execute_without_workspace in Hrun as ->; [|congruence].
    by rewrite lookup_nil in Hi.
  - destruct (execute_well_formed ext args workspace_dir r g Hws Hrun i t Hi)
      as [[_ Hlandscape] _]. by apply Hlandscape.
  - apply execute_without_workspace in Hrun as ->; [|congruence].
    by rewrite lookup_nil in Hi.
Qed.

Lemma task_graph_is_acyclic_witness :
  ∃ (r : res unit) (g : list task),
    execute example_farm_files (example_farm_args (PyStr "farms.shp")) []
    = (r, g) ∧
    ∀ i t, g !! i = Some t →
      Forall (λ dependency, (dependency < i)%nat) (dependent_task_list t).
Proof.
  exists (execute example_farm_files
            (example_farm_args (PyStr "farms.shp")) []).1,
         (execute example_farm_files
            (example_farm_args (PyStr "farms.shp")) []).2.
  split; [by destruct (execute _ _ _)|].
  apply (task_graph_is_acyclic example_farm_files
           (example_farm_args (PyStr "farms.shp"))
           (execute example_farm_files
              (example_farm_args (PyStr "farms.shp")) []).1).
  by destruct (execute _ _ _).
Defined.

Lemma every_target_is_inside_the_workspace_witness :
  example_farm_args (PyStr "farms.shp") !! "workspace_dir"
  = Some (PyStr "workspace") ∧
  ∀ t,
    t ∈ (execute example_farm_files
           (example_farm_args (PyStr "farms.shp")) []).2 →
    ∃ path, target_path_list t = [path] ∧ inside "workspace" path.
Proof.
  split; [reflexivity|].
  apply (every_target_is_inside_the_workspace example_farm_files
           (example_farm_args (PyStr "farms.shp")) "workspace"
           (execute example_farm_files
              (example_farm_args (PyStr "farms.shp")) []).1).
  - reflexivity.
  - by destruct (execute _ _ _).
Defined.

Lemma no_farm_task_without_a_farm_vector_witness :
  farm_requested (example_args "guild_table.csv") = false ∧
  ∀ t,
    t ∈ (execute example_files (example_args "guild_table.csv") []).2 →
    landscape_only (func t).
Proof.
  split; [reflexivity|].
  apply (no_farm_task_without_a_farm_vector example_files
           (example_args "guild_table.csv")
           (execute example_files (example_args "guild_table.csv") []).1).
  - reflexivity.
  - by destruct (execute _ _ _).
Defined.

Lemma extends_execute_after_reprojection (ext : collaborators)
    (sv : scenario_variables) (landcover_raster_path : pyval)
    (farm_vector : option (string * nat))
    (intermediate_output_dir output_dir file_suffix : string) :
  extends
    ('(nesting_substrate_index_path, landcover_substrate_index_tasks) ←
       nesting_substrate_tasks sv landcover_raster_path
         intermediate_output_dir file_suffix;
     '(substrate_path_map, dependent_task_list) ←
       match farm_vector with
       | Some (path, reproject_farm_task) =>
           farm_nesting_substrate_tasks sv
             nesting_substrate_index_path landcover_substrate_index_tasks
             path reproject_farm_task intermediate_output_dir file_suffix
       | None =>
           mret (nesting_substrate_index_path,
                 (map_to_list landcover_substrate_index_tasks).*2)
       end;
     '(habitat_nesting_index_path, habitat_nesting_tasks) ←
       habitat_nesting_index_tasks sv substrate_path_map
         dependent_task_list intermediate_output_dir file_suffix;
     '(relative_floral_abundance_index_path,
       relative_floral_abudance_task_map) ←
       relative_floral_abundance_tasks sv landcover_raster_path
         farm_vector intermediate_output_dir file_suffix;
     '(foraged_flowers_index_path, foraged_flowers_index_task_map) ←
       foraged_flowers_tasks sv
         relative_floral_abundance_index_path
         relative_floral_abudance_task_map
         intermediate_output_dir file_suffix;
     '(pollinator_abundance_path_map, pollinator_abundance_task_map) ←
       pollinator_abundance_tasks sv (get_raster_info ext landcover_raster_path)
         foraged_flowers_index_path foraged_flowers_index_task_map
         habitat_nesting_index_path habitat_nesting_tasks
         intermediate_output_dir output_dir file_suffix;
     match farm_vector with
     | None => mret ()
     | Some (path, reproject_farm_task) =>
         farm_yield_tasks sv landcover_raster_path
           pollinator_abundance_path_map pollinator_abundance_task_map
           path reproject_farm_task intermediate_output_dir output_dir
           file_suffix
     end : graph unit).
Proof.
  unfold nesting_substrate_tasks, farm_nesting_substrate_tasks,
    habitat_nesting_index_tasks, relative_floral_abundance_tasks,
    foraged_flowers_tasks, pollinator_abundance_tasks.
  destruct farm_vector as [[path reproject_farm_task]|];
    extends_tac;
    first [apply extends_species_tasks | apply extends_farm_yield_tasks].
Qed.

(** X22: when [args] holds a farm vector path other than [''], be it
    [None], the first task of a run of [execute] that returns is the
    reprojection of that value into the intermediate directory. *)
Theorem requested_farm_vector_is_reprojected_first (ext : collaborators)
    (args : gmap string pyval) (g : list task) :
  farm_requested args = true →
  execute ext args [] = (Ok (), g) →
  ∃ farm_vector_path landcover_raster_path,
    args !! "farm_vector_path" = Some farm_vector_path ∧
    args !! "landcover_raster_path" = Some landcover_raster_path ∧
    let target :=
      os_path_join (intermediate_dir_of args)
        (_PROJECTED_FARM_VECTOR_FILE_PATTERN (make_suffix_string ext args)) in
    head g =
      Some {| func :=
                reproject_vector farm_vector_path
                  (projection (get_raster_info ext landcover_raster_path))
                  target;
              target_path_list := [target];
              dependent_task_list := [] |}.
Proof.
  unfold farm_requested, execute, intermediate_dir_of. intros Hfarm Hrun.
  destruct (args !! "farm_vector_path") as [v|] eqn:Hv; [|done].
  rewrite Hfarm in Hrun.
  apply graph_bind_Ok in Hrun as (ws & g1 & [Hws ->]%lift_Ok & Hrun).
  apply graph_bind_Ok in Hrun as (sv & g1 & [Hsv ->]%lift_Ok & Hrun).
  apply graph_bind_Ok in Hrun as (lrp & g1 & [Hlrp ->]%lift_Ok & Hrun).
  apply graph_bind_Ok in Hrun as (farm_vector & g1 & Hreproject & Hrun).
  apply graph_bind_Ok in Hreproject
    as (base & g0 & [Hbase ->]%lift_Ok & Hreproject).
  apply graph_bind_Ok in Hreproject as (t & g0 & Hadd & Hreproject).
  injection Hadd as <- <-. injection Hreproject as <- <-.
  assert (args !! "workspace_dir" = Some (PyStr ws)) as ->.
  { destruct (getitem args "workspace_dir") as [[|s]|] eqn:Hg; simplify_eq/=.
    by apply getitem_Ok in Hg. }
  apply getitem_Ok in Hlrp, Hbase. simplify_eq.
  exists v, lrp. split; [done|]. split; [done|]. cbv zeta.
  apply extends_execute_after_reprojection in Hrun as [rest ->]. done.
Qed.

Lemma requested_farm_vector_is_reprojected_first_witness :
  ∃ g,
    execute example_farm_files (example_farm_args PyNone) [] = (Ok (), g) ∧
    ∃ farm_vector_path landcover_raster_path,
      example_farm_args PyNone !! "farm_vector_path"
        = Some farm_vector_path ∧
      example_farm_args PyNone !! "landcover_raster_path"
        = Some landcover_raster_path ∧
      let target :=
        os_path_join (intermediate_dir_of (example_farm_args PyNone))
          (_PROJECTED_FARM_VECTOR_FILE_PATTERN
             (make_suffix_string example_farm_files
                (example_farm_args PyNone))) in
      head g =
        Some {| func :=
                  reproject_vector farm_vector_path
                    (projection
                       (get_raster_info example_farm_files
                          landcover_raster_path))
                    target;
                target_path_list := [target];
                dependent_task_list := [] |}.
Proof.
  assert (∃ g, execute example_farm_files (example_farm_args PyNone) []
               = (Ok (), g)) as [g Hrun].
  { eexists. vm_compute. reflexivity. }
  exists g.
  exact (conj Hrun
           (requested_farm_vector_is_reprojected_first example_farm_files
              (example_farm_args PyNone) g eq_refl Hrun)).
Defined.

(** ** The headers behind the names *)

Lemma named_collect (fmt : string → string → string) (table prefix suffix : string)
    (d : gmap string (gmap string string)) (header : string) :
  (∀ name, fmt table name = prefix ++ name ++ suffix) →
  named fmt d → named fmt (collect table (OneGroup prefix suffix) d header).
Proof.
  intros Hfmt Hd. unfold collect.
  destruct (re_match _ header) as [[group0 name]|] eqn:Hmatch; [|done].
  apply re_match_matched_text in Hmatch as ->.
  intros name' tables table' header'. unfold setitem2.
  destruct (decide (name' = name)) as [->|Hne].
  - rewrite lookup_insert_eq. intros [= <-].
    destruct (decide (table' = table)) as [->|Hne].
    + rewrite lookup_insert_eq. intros [= <-]. by rewrite Hfmt.
    + rewrite lookup_insert_ne by done.
      destruct (d !! name) as [tables|] eqn:Hname; simpl; [by eapply Hd|].
      by rewrite lookup_empty.
  - rewrite lookup_insert_ne by done. apply Hd.
Qed.

Lemma named_foldl_collect (fmt : string → string → string)
    (table prefix suffix : string) (headers : list string) :
  (∀ name, fmt table name = prefix ++ name ++ suffix) →
  ∀ d, named fmt d →
       named fmt (foldl (collect table (OneGroup prefix suffix)) d headers).
Proof.
  intros Hfmt. induction headers as [|header headers IH]; intros d Hd; [done|].
  simpl. apply IH. by apply named_collect.
Qed.

Lemma named_empty (fmt : string → string → string) : named fmt ∅.
Proof. intros name tables table header. by rewrite lookup_empty. Qed.

Lemma read_tables_named (ext : collaborators) (args : gmap string pyval)
    (t : tables) :
  read_tables ext args = Ok t →
  named season_header (season_to_header t) ∧
  named substrate_header (substrate_to_header t).
Proof.
  intros (_ & _ & -> & ->)%read_tables_Ok.
  split; repeat apply named_foldl_collect; try apply named_empty;
    intros name; rewrite ?string_app_nil_r; reflexivity.
Qed.

(** ** The dictionaries of the result *)

Lemma mapM_keys {K V} (h : K → res (K * V)) (ks : list K) :
  (∀ k item, h k = Ok item → item.1 = k) →
  ∀ items, mapM h ks = Ok items → items.*1 = ks.
Proof.
  intros Hh items Hitems%res_mapM_Forall2.
  induction Hitems as [|k item ks items Hk _ IH]; [done|].
  rewrite fmap_cons. f_equal; [by apply Hh | done].
Qed.

(** a dictionary filled key by key from a list without duplicates holds,
    for every key of the list, the value computed for that key *)
Lemma mapM_dict_spec {K V} `{Countable K} (h : K → res (K * V))
    (R : K → V → Prop) (ks : list K) (items : list (K * V)) :
  mapM h ks = Ok items →
  (∀ k item, h k = Ok item → item.1 = k ∧ R k item.2) →
  NoDup ks →
  ∀ k, k ∈ ks → ∃ v, dict_of items !! k = Some v ∧ R k v.
Proof.
  intros Hitems Hh Hnd k [i Hi]%list_elem_of_lookup.
  pose proof (mapM_keys h ks (λ k item Hk, proj1 (Hh k item Hk)) items Hitems)
    as Hkeys.
  apply res_mapM_Forall2 in Hitems.
  destruct (Forall2_lookup_l _ _ _ _ _ Hitems Hi) as ([k' v] & Hitem & Hk).
  destruct (Hh k (k', v) Hk) as [Hfst HR]. simpl in Hfst, HR. subst k'.
  exists v. split; [|done]. apply dict_of_lookup.
  - by rewrite Hkeys.
  - by eapply list_elem_of_lookup_2.
Qed.

Lemma mapM_concat_keys {A B V} (h : A → B → res (A * B * V)) (bs : list B)
    (xs : list A) :
  (∀ a b item, h a b = Ok item → item.1 = (a, b)) →
  ∀ itemss, mapM (λ a, mapM (h a) bs) xs = Ok itemss →
    (concat itemss).*1 = concat ((λ a, (λ b, (a, b)) <$> bs) <$> xs).
Proof.
  intros Hh. induction xs as [|a xs IH]; intros itemss; simpl.
  { by intros [= <-]. }
  destruct (mapM (h a) bs) as [items|e] eqn:Ha; simpl; [|done].
  destruct (mapM _ xs) as [rest|e]; simpl; [|done].
  intros [= <-]. simpl. rewrite fmap_app, (IH rest) by done. f_equal.
  clear IH. revert items Ha. induction bs as [|b bs IHb]; intros items; simpl.
  { by intros [= <-]. }
  destruct (h a b) as [item|e] eqn:Hb; simpl; [|done].
  destruct (mapM (h a) bs) as [items'|e]; simpl; [|done].
  intros [= <-]. rewrite fmap_cons. f_equal; [by apply Hh | by apply IHb].
Qed.

Lemma mapM_concat_dict_spec {A B V} `{Countable A} `{Countable B}
    (h : A → B → res (A * B * V)) (R : A → B → V → Prop)
    (xs : list A) (bs : list B) (itemss : list (list (A * B * V))) :
  mapM (λ a, mapM (h a) bs) xs = Ok itemss →
  (∀ a b item, h a b = Ok item → item.1 = (a, b) ∧ R a b item.2) →
  NoDup xs → NoDup bs →
  ∀ a b, a ∈ xs → b ∈ bs →
    ∃ v, dict_of (concat itemss) !! (a, b) = Some v ∧ R a b v.
Proof.
  intros Hitems Hh Hxs Hbs a b [i Hi]%list_elem_of_lookup
    [j Hj]%list_elem_of_lookup.
  pose proof (mapM_concat_keys h bs xs
                (λ a b item Hk, proj1 (Hh a b item Hk)) itemss Hitems)
    as Hkeys.
  apply res_mapM_Forall2 in Hitems.
  destruct (Forall2_lookup_l _ _ _ _ _ Hitems Hi) as (items & Hitems_i & Ha).
  apply res_mapM_Forall2 in Ha.
  destruct (Forall2_lookup_l _ _ _ _ _ Ha Hj) as ([k v] & Hitem & Hb).
  destruct (Hh a b (k, v) Hb) as [Hfst HR]. simpl in Hfst, HR. subst k.
  exists v. split; [|done]. apply dict_of_lookup.
  - rewrite Hkeys. by apply NoDup_pairs.
  - apply (elem_of_concat_lookup _ i _ _ Hitems_i).
    by eapply list_elem_of_lookup_2.
Qed.

Lemma cell_at_raw {K} `{Countable K} (table : gmap K (gmap string cell))
    (key : K) (key_name header : string) (c : cell) :
  cell_at table key key_name header = Ok c →
  raw_cell table key header = Some c.
Proof.
  unfold cell_at, raw_cell, getitem.
  destruct (table !! key) as [row|]; simpl; [|done].
  by destruct (row !! header); intros [= ->].
Qed.

Lemma scenario_of_guild_items (t : tables) (sv : scenario_variables) :
  scenario_of t = Ok sv →
  ∃ alpha_items substrate_items foraging_items,
    mapM (λ species,
            a ← cell_at (guild_table t) species species _ALPHA_HEADER
                  ≫= float;
            Ok (species, a)) (species_list sv) = Ok alpha_items ∧
    alpha_value sv = dict_of alpha_items ∧
    mapM (λ species,
            row ← mapM (λ substrate,
                     headers ← getitem (substrate_to_header t) substrate;
                     header ← getitem headers "guild";
                     c ← cell_at (guild_table t) species species header;
                     Ok (substrate, c)) (substrate_list sv);
            Ok (species, dict_of row)) (species_list sv)
      = Ok substrate_items ∧
    species_substrate_index sv = dict_of substrate_items ∧
    mapM (λ species,
            mapM (λ season,
              headers ← getitem (season_to_header t) season;
              header ← getitem headers "guild";
              c ← cell_at (guild_table t) species species header;
              Ok ((species, season), c)) (season_list sv)) (species_list sv)
      = Ok foraging_items ∧
    foraging_activity_index sv = dict_of (concat foraging_items).
Proof.
  unfold scenario_of. cbv zeta. do 7 res_step. intros [= <-]. simpl.
  eauto 10.
Qed.

(** X23: after a successful parse, for every species of the species list
    the alpha value is the number in the alpha column of the species' row of
    the guild table, the substrate index of every substrate of the list is
    the cell in the column [nesting_suitability_<substrate>_index], and the
    foraging activity index of every season of the list is the cell in the
    column [foraging_activity_<season>_index]. *)
Theorem parsed_dictionaries_copy_the_guild_table (ext : collaborators)
    (args : gmap string pyval) (sv : scenario_variables) (species : string) :
  _parse_scenario_variables ext args = Ok sv →
  species ∈ species_list sv →
  (∃ alpha,
     alpha_value sv !! species = Some alpha ∧
     raw_cell (guild_table_of ext args) species _ALPHA_HEADER
       = Some (CNum alpha)) ∧
  (∃ row,
     species_substrate_index sv !! species = Some row ∧
     ∀ substrate, substrate ∈ substrate_list sv →
       ∃ c, row !! substrate = Some c ∧
            raw_cell (guild_table_of ext args) species
              ("nesting_suitability_" ++ substrate ++ "_index") = Some c) ∧
  (∀ season, season ∈ season_list sv →
     ∃ c, foraging_activity_index sv !! (species, season) = Some c ∧
          raw_cell (guild_table_of ext args) species
            (_FORAGING_ACTIVITY_PATTERN season) = Some c).
Proof.
  intros (t & Ht & _ & Hsv)%parse_scenario_variables_Ok Hspecies.
  destruct (read_tables_named ext args t Ht) as [Hseasons Hsubstrates].
  destruct (scenario_of_lists t sv Hsv) as (Hsl & Hbl & Hpl).
  assert (NoDup (species_list sv)) as Hnd_species.
  { rewrite Hpl. apply NoDup_sorted_keys. }
  assert (NoDup (season_list sv)) as Hnd_seasons.
  { rewrite Hsl. apply NoDup_sorted_keys. }
  assert (NoDup (substrate_list sv)) as Hnd_substrates.
  { rewrite Hbl. apply NoDup_sorted_keys. }
  destruct (scenario_of_guild_items t sv Hsv)
    as (alpha_items & substrate_items & foraging_items
        & Halpha & -> & Hsubstrate & -> & Hforaging & ->).
  apply read_tables_Ok in Ht as (Hguild & _).
  fold (guild_table_of ext args) in Hguild. rewrite Hguild in *. clear Hguild.
  split; [|split].
  - apply (mapM_dict_spec _
             (λ species alpha,
                raw_cell (guild_table_of ext args) species _ALPHA_HEADER
                  = Some (CNum alpha)) _ _ Halpha); [|done..].
    intros k item.
    destruct (cell_at _ k k _ALPHA_HEADER) as [c|e] eqn:Hc;
      cbn [mbind res_bind]; [|done].
    destruct c as [q|s]; cbn [float mbind res_bind]; [|done].
    intros [= <-]. split; [done|]. by apply cell_at_raw in Hc.
  - apply (mapM_dict_spec _
             (λ species row,
                ∀ substrate, substrate ∈ substrate_list sv →
                  ∃ c, row !! substrate = Some c ∧
                       raw_cell (guild_table_of ext args) species
                         ("nesting_suitability_" ++ substrate ++ "_index")
                         = Some c) _ _ Hsubstrate); [|done..].
    intros k item.
    destruct (mapM _ (substrate_list sv)) as [row|e] eqn:Hrow;
      cbn [mbind res_bind]; [|done].
    intros [= <-]. split; [done|]. simpl.
    apply (mapM_dict_spec _
             (λ substrate c,
                raw_cell (guild_table_of ext args) k
                  ("nesting_suitability_" ++ substrate ++ "_index") = Some c)
             _ _ Hrow); [|done].
    intros substrate item.
    destruct (getitem (substrate_to_header t) substrate) as [headers|e]
      eqn:Hheaders; cbn [mbind res_bind]; [|done].
    destruct (getitem headers "guild") as [header|e] eqn:Hheader;
      cbn [mbind res_bind]; [|done].
    destruct (cell_at _ k k header) as [c|e] eqn:Hc;
      cbn [mbind res_bind]; [|done].
    intros [= <-]. split; [done|]. simpl.
    apply getitem_Ok in Hheaders, Hheader.
    rewrite (Hsubstrates _ _ _ _ Hheaders Hheader) in Hc.
    by apply cell_at_raw in Hc.
  - intros season Hseason.
    apply (mapM_concat_dict_spec _
             (λ species season c,
                raw_cell (guild_table_of ext args) species
                  (_FORAGING_ACTIVITY_PATTERN season) = Some c)
             _ _ _ Hforaging); [|done..].
    intros k season' item.
    destruct (getitem (season_to_header t) season') as [headers|e]
      eqn:Hheaders; cbn [mbind res_bind]; [|done].
    destruct (getitem headers "guild") as [header|e] eqn:Hheader;
      cbn [mbind res_bind]; [|done].
    destruct (cell_at _ k k header) as [c|e] eqn:Hc;
      cbn [mbind res_bind]; [|done].
    intros [= <-]. split; [done|]. simpl.
    apply getitem_Ok in Hheaders, Hheader.
    rewrite (Hseasons _ _ _ _ Hheaders Hheader) in Hc.
    by apply cell_at_raw in Hc.
Qed.

Lemma parsed_dictionaries_copy_the_guild_table_witness :
  ∃ alpha,
    alpha_value example_scenario !! "apis" = Some alpha ∧
    raw_cell (guild_table_of example_files (example_args "guild_table.csv"))
      "apis" _ALPHA_HEADER = Some (CNum alpha).
Proof.
  apply (parsed_dictionaries_copy_the_guild_table example_files
           (example_args "guild_table.csv") example_scenario "apis").
  - exact example_scenario_parsed.
  - compute_done.
Defined.

(** ** The closure of the habitat nesting index *)

(** X24: when the constructor of the habitat nesting index closure
    returns, the suitability map has exactly the substrates of the path map,
    and the i-th path and the i-th suitability cell of the closure are the
    path and the cell, a number or a text, of the i-th substrate in sorted
    order; the constructor returns on a text cell, on which only the later
    call of the closure fails. *)
Theorem habitat_closure_pairs_paths_with_scalars :
  (∀ (substrate_path_map : gmap string string)
     (species_substrate_index_map : gmap string cell) (target : string)
     (s : _CalculateHabitatNestingIndex.self),
     _CalculateHabitatNestingIndex.__init__ substrate_path_map
       species_substrate_index_map target = Ok s →
     dom species_substrate_index_map = dom substrate_path_map ∧
     _CalculateHabitatNestingIndex.target_habitat_nesting_index_path s
       = target ∧
     ∀ i substrate_id,
       sorted (keys substrate_path_map) !! i = Some substrate_id →
       ∃ path c,
         substrate_path_map !! substrate_id = Some path ∧
         species_substrate_index_map !! substrate_id = Some c ∧
         _CalculateHabitatNestingIndex.substrate_path_list s !! i
           = Some path ∧
         _CalculateHabitatNestingIndex.species_substrate_suitability_index_array
           s !! i = Some c) ∧
  (∃ s,
     _CalculateHabitatNestingIndex.__init__ {[ "cavity" := "cavity.tif" ]}
       {[ "cavity" := CStr "high" ]} "habitat_nesting_index.tif" = Ok s ∧
     _CalculateHabitatNestingIndex.__call__ s (λ _, [frac 1 5]) = None).
Proof.
  split; [|eexists; split; reflexivity].
  intros substrate_path_map species_substrate_index_map target s.
  unfold _CalculateHabitatNestingIndex.__init__.
  destruct (mapM (getitem substrate_path_map) _) as [paths|e] eqn:Hp;
    simpl; [|done].
  destruct (mapM (getitem species_substrate_index_map) _) as [cells|e]
    eqn:Hs; simpl; [|done].
  case_bool_decide as Hsize; [|done]. intros [= <-]. simpl.
  pose proof (res_mapM_length _ _ _ Hs) as Hlen.
  rewrite sorted_length in Hlen.
  apply res_mapM_Forall2 in Hp, Hs.
  assert (∀ i substrate_id,
            sorted (keys substrate_path_map) !! i = Some substrate_id →
            ∃ path c,
              substrate_path_map !! substrate_id = Some path ∧
              species_substrate_index_map !! substrate_id = Some c ∧
              paths !! i = Some path ∧ cells !! i = Some c) as Hpairs.
  { intros i substrate_id Hi.
    destruct (Forall2_lookup_l _ _ _ _ _ Hp Hi) as (path & Hpath & Hget).
    destruct (Forall2_lookup_l _ _ _ _ _ Hs Hi) as (c & Hc & Hcell).
    apply getitem_Ok in Hget, Hcell. by exists path, c. }
  split; [|done].
  assert (dom substrate_path_map ⊆ dom species_substrate_index_map) as Hsub.
  { intros substrate_id [path Hpath]%elem_of_dom.
    assert (substrate_id ∈ sorted (keys substrate_path_map)) as Hin.
    { apply elem_of_sorted, elem_of_keys. by eexists. }
    apply list_elem_of_lookup in Hin as [i Hi].
    destruct (Hpairs i substrate_id Hi) as (_ & c & _ & Hc & _).
    apply elem_of_dom. by eexists. }
  symmetry. apply set_subseteq_size_eq; [done|].
  rewrite !size_dom, <- Hsize, Hlen. unfold keys.
  by rewrite length_fmap, length_map_to_list.
Qed.

Lemma habitat_closure_pairs_paths_with_scalars_witness :
  dom ({[ "cavity" := CNum (frac 1 2); "ground" := CNum 1 ]}
         : gmap string cell)
  = dom ({[ "cavity" := "cavity.tif"; "ground" := "ground.tif" ]}
           : gmap string string).
Proof.
  apply (proj1 habitat_closure_pairs_paths_with_scalars
           {[ "cavity" := "cavity.tif"; "ground" := "ground.tif" ]}
           {[ "cavity" := CNum (frac 1 2); "ground" := CNum 1 ]}
           "habitat_nesting_index.tif"
           {| _CalculateHabitatNestingIndex.substrate_path_list :=
                ["cavity.tif"; "ground.tif"];
              _CalculateHabitatNestingIndex.species_substrate_suitability_index_array
                := [CNum (frac 1 2); CNum 1];
              _CalculateHabitatNestingIndex.target_habitat_nesting_index_path
                := "habitat_nesting_index.tif" |}).
  vm_compute. reflexivity.
Defined.

(** ** The dictionaries read from the biophysical table *)

Lemma read_tables_biophysical (ext : collaborators) (args : gmap string pyval)
    (t : tables) :
  read_tables ext args = Ok t →
  landcover_biophysical_table t = biophysical_table_of ext args ∧
  ∃ landcover_id, is_Some (biophysical_table_of ext args !! landcover_id).
Proof.
  unfold read_tables, biophysical_table_of.
  destruct (getitem args "guild_table_path") as [gp|] eqn:Hgp; [|done].
  destruct (getitem args "landcover_biophysical_table_path") as [bp|] eqn:Hbp;
    [|done].
  apply getitem_Ok in Hbp. rewrite Hbp. simpl (default _ _).
  cbn [mbind res_bind].
  destruct (first_row_keys (build_lookup_from_csv_species ext gp))
    as [gh|]; [|done].
  cbn [mbind res_bind].
  destruct (check_expected_headers _EXPECTED_GUILD_HEADERS _ _); [|done].
  cbn [mbind res_bind].
  destruct (first_row_keys (build_lookup_from_csv_lucode ext bp))
    as [bh|] eqn:Hbh; [|done].
  assert (∃ landcover_id,
            is_Some (build_lookup_from_csv_lucode ext bp !! landcover_id))
    as Hrow.
  { unfold first_row_keys in Hbh.
    destruct (map_to_list (build_lookup_from_csv_lucode ext bp))
      as [|[landcover_id row] rows] eqn:Hrows; [done|].
    exists landcover_id, row. apply elem_of_map_to_list. rewrite Hrows.
    apply elem_of_cons. by left. }
  cbn [mbind res_bind].
  destruct (check_expected_headers _EXPECTED_BIOPHYSICAL_HEADERS _ _); [|done].
  cbn [mbind res_bind].
  destruct (farm_vector_path_of args) as [path|]; cbn [mbind res_bind].
  - destruct (farm_geom_type (ogr_Open ext path)); [..|done];
      (destruct (check_expected_headers _EXPECTED_FARM_HEADERS _ _); [|done]);
      cbn [mbind res_bind];
      destruct (scan_headers "biophysical" _ _ _ _); by intros [= <-].
  - destruct (scan_headers "biophysical" _ _ _ _); by intros [= <-].
Qed.

Lemma copied_step (table : gmap Z (gmap string cell))
    (name_to_header : gmap string (gmap string string))
    (written : string → Z → Prop) (landcover_id : Z)
    (names : list string) :
  ∀ result result' : gmap string (gmap Z cell),
    fold_each (λ result name,
      headers ← getitem name_to_header name;
      header ← getitem headers "biophysical";
      c ← cell_at table landcover_id "lucode" header;
      Ok (<[name := <[landcover_id := c]> (default ∅ (result !! name))]> result))
      result names = Ok result' →
    copied table name_to_header written result →
    copied table name_to_header
      (λ name id, written name id ∨ (name ∈ names ∧ id = landcover_id))
      result'.
Proof.
  revert written.
  induction names as [|name names IH]; intros written result result'.
  - simpl. intros [= <-] Hcopied name id Hw. cbn beta in Hw.
    destruct Hw as [Hw|[Hin _]]; [by apply Hcopied|].
    by apply elem_of_nil in Hin.
  - cbn [fold_each].
    destruct (getitem name_to_header name) as [headers|e] eqn:Hheaders;
      cbn [mbind res_bind]; [|done].
    destruct (getitem headers "biophysical") as [header|e] eqn:Hheader;
      cbn [mbind res_bind]; [|done].
    destruct (cell_at table landcover_id "lucode" header) as [c|e] eqn:Hc;
      cbn [mbind res_bind]; [|done].
    intros Hfold Hcopied.
    apply getitem_Ok in Hheaders, Hheader. apply cell_at_raw in Hc.
    apply (IH (λ name' id, written name' id
                           ∨ (name' = name ∧ id = landcover_id))) in Hfold.
    + intros name' id Hw. apply Hfold. cbn beta in Hw |- *.
      destruct Hw as [Hw|[Hin ->]]; [left; left; exact Hw|].
      apply elem_of_cons in Hin as [->|Hin];
        [left; right; done | right; done].
    + intros name' id Hw. cbn beta in Hw. destruct Hw as [Hw|[-> ->]].
      * destruct (Hcopied name' id Hw)
          as (headers' & header' & row & c' & H1 & H2 & H3 & H4 & H5).
        destruct (decide (name' = name)) as [->|Hne].
        -- exists headers', header', (<[landcover_id := c]> row).
           rewrite lookup_insert_eq, H3. simpl.
           destruct (decide (id = landcover_id)) as [->|Hid].
           ++ exists c. rewrite lookup_insert_eq.
              repeat split; try done. congruence.
           ++ exists c'. rewrite lookup_insert_ne by done. done.
        -- exists headers', header', row, c'.
           rewrite lookup_insert_ne by done. done.
      * exists headers, header,
          (<[landcover_id := c]> (default ∅ (result !! name))), c.
        by rewrite !lookup_insert_eq.
Qed.

Lemma landcover_index_copied (table : gmap Z (gmap string cell))
    (name_to_header : gmap string (gmap string string))
    (names : list string) (result : gmap string (gmap Z cell)) :
  landcover_index table name_to_header names = Ok result →
  copied table name_to_header
    (λ name landcover_id, name ∈ names ∧ is_Some (table !! landcover_id))
    result.
Proof.
  unfold landcover_index.
  assert (∀ (ids : list Z) (written : string → Z → Prop)
            (acc : gmap string (gmap Z cell)),
            fold_each (λ result landcover_id,
              fold_each (λ result name,
                headers ← getitem name_to_header name;
                header ← getitem headers "biophysical";
                c ← cell_at table landcover_id "lucode" header;
                Ok (<[name := <[landcover_id := c]>
                                 (default ∅ (result !! name))]> result))
                result names) acc ids = Ok result →
            copied table name_to_header written acc →
            copied table name_to_header
              (λ name id, written name id ∨ (name ∈ names ∧ id ∈ ids))
              result) as Hloop.
  { induction ids as [|landcover_id ids IH]; intros written acc.
    - simpl. intros [= <-] Hcopied name id Hw. cbn beta in Hw.
      destruct Hw as [Hw|[_ Hin]]; [by apply Hcopied|].
      by apply elem_of_nil in Hin.
    - cbn [fold_each].
      destruct (fold_each _ acc names) as [acc'|e] eqn:Hinner;
        cbn [mbind res_bind]; [|done].
      intros Houter Hcopied.
      apply (copied_step _ _ written) in Hinner; [|done].
      apply (IH (λ name id, written name id
                             ∨ (name ∈ names ∧ id = landcover_id)))
        in Houter; [|exact Hinner].
      intros name id Hw. apply Houter. cbn beta in Hw |- *.
      destruct Hw as [Hw|[Hname Hid]]; [by left; left|].
      apply elem_of_cons in Hid as [->|Hid]; [left; right; done|right; done]. }
  intros Hresult name id Hw. cbn beta in Hw. destruct Hw as [Hname Hid].
  apply (Hloop _ (λ _ _, False) _ Hresult); [by intros ? ? []|].
  right. split; [done|]. by apply elem_of_keys.
Qed.


Lemma landcover_index_only (table : gmap Z (gmap string cell))
    (name_to_header : gmap string (gmap string string))
    (names : list string) (result : gmap string (gmap Z cell)) :
  landcover_index table name_to_header names = Ok result →
  ∀ name row, result !! name = Some row →
    name ∈ names ∧ ∀ id, is_Some (row !! id) → is_Some (table !! id).
Proof.
  unfold landcover_index.
  set (only (ids : list Z) (acc : gmap string (gmap Z cell)) :=
         ∀ name row, acc !! name = Some row →
           name ∈ names ∧ ∀ id, is_Some (row !! id) → id ∈ ids).
  assert (∀ (landcover_id : Z) (ids : list Z) (todo : list string)
            (acc acc' : gmap string (gmap Z cell)),
            todo ⊆ names → landcover_id ∈ ids →
            fold_each (λ result name,
              headers ← getitem name_to_header name;
              header ← getitem headers "biophysical";
              c ← cell_at table landcover_id "lucode" header;
              Ok (<[name := <[landcover_id := c]>
                               (default ∅ (result !! name))]> result))
              acc todo = Ok acc' →
            only ids acc → only ids acc') as Hinner.
  { intros landcover_id ids todo.
    induction todo as [|name todo IH]; intros acc acc' Htodo Hid.
    - simpl. by intros [= <-].
    - cbn [fold_each].
      destruct (getitem name_to_header name) as [headers|e];
        cbn [mbind res_bind]; [|done].
      destruct (getitem headers "biophysical") as [header|e];
        cbn [mbind res_bind]; [|done].
      destruct (cell_at table landcover_id "lucode" header) as [c|e];
        cbn [mbind res_bind]; [|done].
      intros Hfold Honly.
      eapply IH; [set_solver | done | exact Hfold |].
      intros name' row. destruct (decide (name' = name)) as [->|Hne].
      + rewrite lookup_insert_eq. intros [= <-]. split; [set_solver|].
        intros id. destruct (decide (id = landcover_id)) as [->|Hne]; [done|].
        rewrite lookup_insert_ne by done.
        destruct (acc !! name) as [row|] eqn:Hrow; simpl.
        * by apply (Honly name row).
        * rewrite lookup_empty. by intros [? ?].
      + rewrite lookup_insert_ne by done. apply Honly. }
  assert (∀ (seen ids : list Z) (acc : gmap string (gmap Z cell)),
            fold_each (λ result landcover_id,
              fold_each (λ result name,
                headers ← getitem name_to_header name;
                header ← getitem headers "biophysical";
                c ← cell_at table landcover_id "lucode" header;
                Ok (<[name := <[landcover_id := c]>
                                 (default ∅ (result !! name))]> result))
                result names) acc ids = Ok result →
            only (seen ++ ids)%list acc → only (seen ++ ids)%list result) as Houter.
  { intros seen ids. revert seen.
    induction ids as [|landcover_id ids IH]; intros seen acc.
    - simpl. by intros [= <-].
    - cbn [fold_each].
      destruct (fold_each _ acc names) as [acc'|e] eqn:Hstep;
        cbn [mbind res_bind]; [|done].
      intros Hfold Honly.
      replace (seen ++ landcover_id :: ids)%list
        with ((seen ++ [landcover_id]) ++ ids)%list in * by by rewrite <- app_assoc.
      apply (IH _ acc'); [done|].
      eapply Hinner; [done| |exact Hstep|done]. set_solver. }
  intros Hresult name row Hrow.
  destruct (Houter [] _ _ Hresult) with (name := name) (row := row)
    as [Hname Hids]; [|done|].
  { intros name' row'. by rewrite lookup_empty. }
  split; [done|]. intros id Hid. apply elem_of_keys. by apply Hids.
Qed.

Lemma scenario_of_landcover_items (t : tables) (sv : scenario_variables) :
  scenario_of t = Ok sv →
  landcover_index (landcover_biophysical_table t) (substrate_to_header t)
    (substrate_list sv) = Ok (landcover_substrate_index sv) ∧
  landcover_index (landcover_biophysical_table t) (season_to_header t)
    (season_list sv) = Ok (landcover_floral_resources sv).
Proof.
  unfold scenario_of. cbv zeta. do 7 res_step. intros [= <-]. simpl.
  eauto.
Qed.

(** X25: after a successful parse the landcover substrate index has a row
    for every substrate of the substrate list and for no other name, the
    row has exactly the landcover codes of the biophysical table, and under
    each code it holds the cell of that code's table row in the column
    [nesting_<substrate>_availability_index]; the landcover floral resources
    are the same with the seasons and the columns
    [floral_resources_<season>_index]. *)
Theorem parsed_dictionaries_copy_the_biophysical_table (ext : collaborators)
    (args : gmap string pyval) (sv : scenario_variables) :
  _parse_scenario_variables ext args = Ok sv →
  (∀ substrate, substrate ∈ substrate_list sv →
     ∃ row,
       landcover_substrate_index sv !! substrate = Some row ∧
       dom row = dom (biophysical_table_of ext args) ∧
       ∀ landcover_id, is_Some (biophysical_table_of ext args !! landcover_id) →
         ∃ c, row !! landcover_id = Some c ∧
              raw_cell (biophysical_table_of ext args) landcover_id
                ("nesting_" ++ substrate ++ "_availability_index") = Some c) ∧
  (∀ season, season ∈ season_list sv →
     ∃ row,
       landcover_floral_resources sv !! season = Some row ∧
       dom row = dom (biophysical_table_of ext args) ∧
       ∀ landcover_id, is_Some (biophysical_table_of ext args !! landcover_id) →
         ∃ c, row !! landcover_id = Some c ∧
              raw_cell (biophysical_table_of ext args) landcover_id
                ("floral_resources_" ++ season ++ "_index") = Some c) ∧
  (∀ substrate, is_Some (landcover_substrate_index sv !! substrate) →
     substrate ∈ substrate_list sv) ∧
  (∀ season, is_Some (landcover_floral_resources sv !! season) →
     season ∈ season_list sv).
Proof.
  intros (t & Ht & _ & Hsv)%parse_scenario_variables_Ok.
  destruct (read_tables_named ext args t Ht) as [Hseasons Hsubstrates].
  destruct (scenario_of_landcover_items t sv Hsv) as [Hsubstrate Hseason].
  rewrite (proj1 (read_tables_biophysical ext args t Ht))
    in Hsubstrate, Hseason.
  assert (∃ landcover_id,
            is_Some (biophysical_table_of ext args !! landcover_id))
    as [first Hfirst].
  { by apply read_tables_biophysical in Ht as [_ ?]. }
  assert (∀ (fmt : string → string → string)
            (name_to_header : gmap string (gmap string string))
            (names : list string) (result : gmap string (gmap Z cell)),
            named fmt name_to_header →
            landcover_index (biophysical_table_of ext args) name_to_header names
              = Ok result →
            (∀ name, name ∈ names →
               ∃ row, result !! name = Some row ∧
                 dom row = dom (biophysical_table_of ext args) ∧
                 ∀ landcover_id,
                   is_Some (biophysical_table_of ext args !! landcover_id) →
                   ∃ c, row !! landcover_id = Some c ∧
                        raw_cell (biophysical_table_of ext args) landcover_id
                          (fmt "biophysical" name) = Some c) ∧
            (∀ name, is_Some (result !! name) → name ∈ names)) as Hindex.
  { intros fmt name_to_header names result Hnamed Hresult. split.
    - intros name Hname.
      destruct (landcover_index_copied _ _ _ _ Hresult name first)
        as (_ & _ & row & _ & _ & _ & Hrow & _); [done|].
      exists row. split; [done|]. split.
      + apply set_eq. intros id. rewrite !elem_of_dom. split.
        * by apply (landcover_index_only _ _ _ _ Hresult name row Hrow).
        * intros Hid.
          destruct (landcover_index_copied _ _ _ _ Hresult name id)
            as (_ & _ & row' & c & _ & _ & Hrow' & Hc & _); [done|].
          rewrite Hrow in Hrow'. injection Hrow' as <-. by exists c.
      + intros id Hid.
        destruct (landcover_index_copied _ _ _ _ Hresult name id)
          as (headers & header & row' & c & Hheaders & Hheader & Hrow' & Hc
              & Hcell); [done|].
        rewrite Hrow in Hrow'. injection Hrow' as <-. exists c.
        split; [done|].
        by rewrite <- (Hnamed _ _ _ _ Hheaders Hheader).
    - intros name [row Hrow].
      by apply (landcover_index_only _ _ _ _ Hresult name row Hrow). }
  destruct (Hindex _ _ _ _ Hsubstrates Hsubstrate) as [Hb1 Hb2].
  destruct (Hindex _ _ _ _ Hseasons Hseason) as [Hs1 Hs2].
  done.
Qed.


Lemma parsed_dictionaries_copy_the_biophysical_table_witness :
  ∃ row,
    landcover_substrate_index example_scenario !! "cavity" = Some row ∧
    dom row = dom (biophysical_table_of example_files
                     (example_args "guild_table.csv")) ∧
    ∀ landcover_id,
      is_Some (biophysical_table_of example_files
                 (example_args "guild_table.csv") !! landcover_id) →
      ∃ c, row !! landcover_id = Some c ∧
           raw_cell (biophysical_table_of example_files
                       (example_args "guild_table.csv")) landcover_id
             "nesting_cavity_availability_index" = Some c.
Proof.
  apply (proj1 (parsed_dictionaries_copy_the_biophysical_table example_files
                  (example_args "guild_table.csv") example_scenario
                  example_scenario_parsed) "cavity").
  compute_done.
Defined.

(** ** The number of tasks *)

Section counting.

Lemma adds_ret {A} (a : A) : adds 0 (mret a : graph A).
Proof. intros g a' g' [= _ <-]. lia. Qed.

Lemma adds_gret {A} (a : A) : adds 0 (gret a).
Proof. intros g a' g' [= _ <-]. lia. Qed.

Lemma adds_add_task (f : callable) (targets : list string) (deps : list nat) :
  adds 1 (add_task f targets deps).
Proof. intros g a g' [= _ <-]. by rewrite length_app. Qed.

Lemma adds_bind {A B} (k k' : nat) (m : graph A) (f : A → graph B) :
  adds k m → (∀ a, adds k' (f a)) → adds (k + k') (m ≫= f).
Proof.
  intros Hm Hf g b g'. unfold mbind, graph_bind, gbind.
  destruct (m g) as [[a|e] g1] eqn:Hrun; [|done].
  intros Hrest. apply Hm in Hrun. apply Hf in Hrest. lia.
Qed.

Lemma adds_bind_lift {A B} (k : nat) (r : res A) (f : A → graph B) :
  (∀ a, r = Ok a → adds k (f a)) → adds k (lift r ≫= f).
Proof.
  intros Hf g b g'. unfold mbind, graph_bind, gbind, lift.
  destruct r as [a|e]; [|done]. by apply Hf.
Qed.

Lemma adds_bind_ret {A B} (k : nat) (a : A) (f : A → graph B) :
  adds k (f a) → adds k (mret a ≫= f).
Proof. intros Hf g b g'. apply Hf. Qed.

Lemma adds_assoc {A B C} (k : nat) (m : graph A) (f : A → graph B)
    (h : B → graph C) :
  adds k (m ≫= λ a, f a ≫= h) → adds k ((m ≫= f) ≫= h).
Proof.
  intros Hm g c g' Hrun. apply (Hm g c g'). revert Hrun.
  unfold mbind, graph_bind, gbind. by destruct (m g) as [[a|e] g1].
Qed.

Lemma adds_gfold {A B} (k : nat) (body : B → A → graph B) (l : list A) :
  (∀ acc x, adds k (body acc x)) →
  ∀ acc, adds (length l * k) (gfold body acc l).
Proof.
  intros Hbody. induction l as [|x l IH]; intros acc.
  - apply adds_gret.
  - cbn [gfold length Nat.mul]. by apply (adds_bind k (length l * k)).
Qed.

Lemma adds_eq {A} (k k' : nat) (m : graph A) : adds k m → k = k' → adds k' m.
Proof. by intros Hm <-. Qed.

End counting.

Ltac adds_step :=
  lazymatch goal with
  | |- adds _ ((_ ≫= _) ≫= _) => apply adds_assoc
  | |- adds _ (lift _ ≫= _) => apply adds_bind_lift; intros ? ?
  | |- adds _ (mret _ ≫= _) => apply adds_bind_ret
  | |- adds _ (add_task _ _ _ ≫= _) =>
      eapply (adds_bind 1); [apply adds_add_task | intros ?]
  | |- adds _ (gret _) => apply adds_gret
  | |- adds _ (mret _) => apply adds_ret
  | |- adds _ (let '(_, _) := ?p in _) => destruct p
  | |- adds _ ((let '(_, _) := ?p in _) _) => destruct p; cbv beta
  | |- adds _ _ => progress cbv beta iota zeta
  end.

(** the body of a loop registers [k] tasks at every turn *)
Ltac adds_loop k :=
  eapply adds_eq;
    [ apply (adds_gfold k); intros ? ?;
      eapply adds_eq; [repeat adds_step | simpl; lia]
    | first [reflexivity | simpl; lia] ].

Section task_counts.

Context (ext : collaborators).

Lemma adds_nesting_substrate_tasks sv landcover_raster_path dir suffix :
  adds (length (substrate_list sv))
    (nesting_substrate_tasks sv landcover_raster_path dir suffix).
Proof. unfold nesting_substrate_tasks. adds_loop 1%nat. Qed.

Lemma adds_farm_nesting_substrate_tasks sv paths tasks farm_vector_path
    reproject dir suffix :
  adds (length (substrate_list sv))
    (farm_nesting_substrate_tasks sv paths tasks farm_vector_path reproject
       dir suffix).
Proof. unfold farm_nesting_substrate_tasks. adds_loop 1%nat. Qed.

Lemma adds_habitat_nesting_index_tasks sv substrate_path_map
    dependent_task_list dir suffix :
  adds (length (species_list sv))
    (habitat_nesting_index_tasks sv substrate_path_map dependent_task_list
       dir suffix).
Proof. unfold habitat_nesting_index_tasks. adds_loop 1%nat. Qed.

Lemma adds_relative_floral_abundance_tasks sv landcover_raster_path
    (farm : option (string * nat)) dir suffix :
  adds (length (season_list sv) * match farm with Some _ => 2 | None => 1 end)
    (relative_floral_abundance_tasks sv landcover_raster_path farm dir suffix).
Proof.
  unfold relative_floral_abundance_tasks.
  destruct farm as [[farm_vector_path reproject]|].
  - adds_loop 2%nat.
  - adds_loop 1%nat.
Qed.

Lemma adds_foraged_flowers_tasks sv paths tasks dir suffix :
  adds (length (species_list sv) * length (season_list sv))
    (foraged_flowers_tasks sv paths tasks dir suffix).
Proof.
  unfold foraged_flowers_tasks.
  apply (adds_gfold (length (season_list sv))). intros acc species.
  adds_loop 1%nat.
Qed.

Lemma adds_species_tasks sv info foraged_paths foraged_tasks
    habitat_paths habitat_tasks dir output_dir suffix acc species :
  adds (5 + length (season_list sv))
    (species_tasks sv info foraged_paths foraged_tasks habitat_paths
       habitat_tasks dir output_dir suffix acc species).
Proof.
  unfold species_tasks. eapply adds_eq.
  - do 25 (try adds_step). adds_loop 1%nat.
  - simpl. lia.
Qed.

Lemma adds_pollinator_abundance_tasks sv info foraged_paths foraged_tasks
    habitat_paths habitat_tasks dir output_dir suffix :
  adds (length (species_list sv) * (5 + length (season_list sv)))
    (pollinator_abundance_tasks sv info foraged_paths foraged_tasks
       habitat_paths habitat_tasks dir output_dir suffix).
Proof.
  unfold pollinator_abundance_tasks. apply adds_gfold. intros acc species.
  apply adds_species_tasks.
Qed.

Lemma adds_farm_yield_tasks sv landcover_raster_path paths tasks
    farm_vector_path reproject dir output_dir suffix :
  adds (5 + 3 * length (season_list sv))
    (farm_yield_tasks sv landcover_raster_path paths tasks farm_vector_path
       reproject dir output_dir suffix).
Proof.
  unfold farm_yield_tasks. eapply adds_eq.
  - repeat adds_step.
    eapply adds_bind; [adds_loop 3%nat|]. intros [paths' tasks'].
    repeat adds_step.
  - simpl. lia.
Qed.

End task_counts.


(** a call of one of the loops of the pipeline *)
Ltac adds_call lemma :=
  eapply adds_bind;
    [eapply adds_eq; [apply lemma | cbv beta iota; reflexivity] | intros [? ?]].

Lemma adds_execute (ext : collaborators) (args : gmap string pyval)
    (sv : scenario_variables) :
  _parse_scenario_variables ext args = Ok sv →
  adds (task_count sv (farm_requested args)) (execute ext args).
Proof.
  intros Hsv. unfold execute, task_count, farm_requested.
  adds_step. cbv zeta. adds_step.
  match goal with H : _parse_scenario_variables _ _ = Ok _ |- _ =>
    rewrite Hsv in H; injection H as <- end.
  adds_step.
  destruct (args !! "farm_vector_path") as [farm_vector_path|];
    [case_bool_decide|];
    (eapply adds_eq;
     [ repeat adds_step;
       adds_call adds_nesting_substrate_tasks; repeat adds_step;
       try (adds_call adds_farm_nesting_substrate_tasks);
       adds_call adds_habitat_nesting_index_tasks;
       adds_call adds_relative_floral_abundance_tasks;
       adds_call adds_foraged_flowers_tasks;
       adds_call adds_pollinator_abundance_tasks;
       first [apply adds_farm_yield_tasks | apply adds_ret]
     | simpl; lia ]).
Qed.

(** X26: a run of [execute] that returns has registered, for [n] substrates,
    [j] seasons and [s] species, [n + j + s (6 + 2 j)] tasks without a farm
    vector and [6 + 2 n + 5 j + s (6 + 2 j)] tasks with one. *)
Theorem number_of_tasks (ext : collaborators) (args : gmap string pyval)
    (sv : scenario_variables) (g : list task) :
  _parse_scenario_variables ext args = Ok sv →
  execute ext args [] = (Ok (), g) →
  let substrates := length (substrate_list sv) in
  let seasons := length (season_list sv) in
  let species := length (species_list sv) in
  length g =
    if farm_requested args
    then (6 + 2 * substrates + 5 * seasons + species * (6 + 2 * seasons))%nat
    else (substrates + seasons + species * (6 + 2 * seasons))%nat.
Proof.
  intros Hsv Hrun. apply (adds_execute ext args sv Hsv) in Hrun.
  rewrite Hrun. unfold task_count. by destruct (farm_requested args).
Qed.


Lemma number_of_tasks_witness :
  ∃ g,
    execute example_farm_files (example_farm_args (PyStr "farms.shp")) []
    = (Ok (), g) ∧
    length g = 38%nat.
Proof.
  assert (∃ g, execute example_farm_files
                 (example_farm_args (PyStr "farms.shp")) [] = (Ok (), g))
    as [g Hrun].
  { eexists. vm_compute. reflexivity. }
  exists g. split; [exact Hrun|].
  exact (number_of_tasks example_farm_files
           (example_farm_args (PyStr "farms.shp")) example_farm_scenario g
           example_farm_scenario_parsed Hrun).
Defined.

(** ** A landcover raster without pixel size *)

Lemma read_tables_species (ext : collaborators) (args : gmap string pyval)
    (t : tables) :
  read_tables ext args = Ok t → keys (guild_table t) ≠ [].
Proof.
  intros Ht. destruct (read_tables_Ok ext args t Ht) as (-> & _).
  revert Ht. unfold read_tables.
  destruct (getitem args "guild_table_path") as [gp|] eqn:Hgp; [|done].
  apply getitem_Ok in Hgp. rewrite Hgp. simpl (default _ _).
  destruct (getitem args "landcover_biophysical_table_path") as [bp|];
    [|done].
  cbn [mbind res_bind].
  destruct (first_row_keys (build_lookup_from_csv_species ext gp))
    as [gh|] eqn:Hgh; [|done].
  intros _. unfold first_row_keys in Hgh. unfold keys.
  by destruct (map_to_list (build_lookup_from_csv_species ext gp)).
Qed.

(** X27: on a landcover raster whose mean pixel size is zero [execute]
    raises, whatever the other inputs are. *)
Theorem zero_pixel_size_never_returns (ext : collaborators)
    (args : gmap string pyval) (landcover_raster_path : pyval) :
  args !! "landcover_raster_path" = Some landcover_raster_path →
  mean_pixel_size (get_raster_info ext landcover_raster_path) = 0 →
  ∀ g, ∃ e g', execute ext args g = (Raise e, g').
Proof.
  intros Hpath Hsize g.
  destruct (execute ext args g) as [[[]|e] g'] eqn:Hrun; [|by eauto].
  exfalso.
  apply execute_kernel_tasks in Hrun
    as (sv & workspace_dir & path & Hsv & _ & Hpath' & Hkernels).
  rewrite Hpath in Hpath'. injection Hpath' as <-.
  apply parse_scenario_variables_Ok in Hsv as (t & Ht & _ & Hsv).
  destruct (scenario_of_lists t sv Hsv) as (_ & _ & Hspecies).
  apply read_tables_species in Ht.
  destruct (species_list sv) as [|species rest] eqn:Hlist.
  { apply Ht. apply length_zero_iff_nil.
    rewrite <- (sorted_length (keys (guild_table t))), <- Hspecies. done. }
  destruct (Hkernels species) as (alpha & kernel_path & _ & Hkernel & _);
    [by left|].
  by apply species_kernel_Ok in Hkernel as (_ & _ & Hne & _).
Qed.

Lemma zero_pixel_size_never_returns_witness :
  mean_pixel_size (get_raster_info flat_raster_files (PyStr "landcover.tif"))
  = 0 ∧
  ∀ g, ∃ e g',
    execute flat_raster_files (example_args "guild_table.csv") g
    = (Raise e, g').
Proof.
  split; [reflexivity|].
  apply (zero_pixel_size_never_returns flat_raster_files
           (example_args "guild_table.csv") (PyStr "landcover.tif"));
    reflexivity.
Defined.
